(** * awsrastools: the resource registry and the fixed-width table codec

    A shallow embedding of [src/awsrastools/awsrastools.py] (class
    [AwsRasTools]) and the properties of its numbering, insertion, validation
    and table-codec routines.

    Conventions of the embedding.
    - A Python [str] is a [list ascii].  The files handled are ASCII text;
      the classification functions below ([isspace], [is_digit]) follow
      Python on code points below 128 and treat the upper half of the
      [ascii] type as ordinary characters.
    - A Python [int] is a [Z]; list indices that the code only ever produces
      as non-negative numbers are [nat].
    - A raised exception is a value of [exn]; functions that can raise return
      an [outcome].
    - The file system is a finite map from paths to the text of each file as
      the text layer hands it to the program; a function that reads or
      writes is a state transformer over it.
    - [print] calls are not modelled. *)

From Stdlib Require Import ZArith QArith List Ascii String Bool Lia Arith.
From stdpp Require Import base gmap strings list.

Close Scope Q_scope.
Local Open Scope nat_scope.
Local Open Scope list_scope.

(** ** Text *)

Abbreviation text := (list ascii).

(** String literals of the source, as character lists. *)
Definition lit (s : string) : text := list_ascii_of_string s.

Module Py.

(** [str.isspace] of one character: TAB, LF, VT, FF, CR, the four separator
    controls 0x1c..0x1f and the space. *)
Definition isspace (c : ascii) : bool :=
  let n := nat_of_ascii c in
  ((9 <=? n) && (n <=? 13)) || ((28 <=? n) && (n <=? 32)).

(** A decimal digit ['0'..'9']; this is what [\d], [int] and [float] accept
    in ASCII text. *)
Definition is_digit (c : ascii) : bool :=
  let n := nat_of_ascii c in (48 <=? n) && (n <=? 57).

Definition digit_val (c : ascii) : Z := Z.of_nat (nat_of_ascii c) - 48.

Definition digit_char (d : N) : ascii := ascii_of_N (48 + d).

(** ASCII lower-casing, the folding that [re.IGNORECASE] applies to the
    letters of the patterns used in the source. *)
Definition lower (c : ascii) : ascii :=
  let n := nat_of_ascii c in
  if (65 <=? n) && (n <=? 90) then ascii_of_nat (n + 32) else c.

Fixpoint drop_while {A} (p : A -> bool) (l : list A) : list A :=
  match l with
  | [] => []
  | x :: t => if p x then drop_while p t else l
  end.

Fixpoint take_while {A} (p : A -> bool) (l : list A) : list A :=
  match l with
  | [] => []
  | x :: t => if p x then x :: take_while p t else []
  end.

Definition lstrip (s : text) : text := drop_while isspace s.
Definition rstrip (s : text) : text := rev (drop_while isspace (rev s)).

(** [s.strip()] *)
Definition strip (s : text) : text := rstrip (lstrip s).

(** [s.startswith(p)] *)
Fixpoint startswith (p s : text) : bool :=
  match p, s with
  | [], _ => true
  | _ :: _, [] => false
  | a :: p', b :: s' => Ascii.eqb a b && startswith p' s'
  end.

(** The rest of [s] after the prefix [p], when [s.startswith(p)]. *)
Fixpoint strip_prefix (p s : text) : option text :=
  match p, s with
  | [], _ => Some s
  | _ :: _, [] => None
  | a :: p', b :: s' => if Ascii.eqb a b then strip_prefix p' s' else None
  end.

(** [p in s] for strings: [p] occurs as a substring of [s]. *)
Fixpoint contains (p s : text) : bool :=
  startswith p s ||
  match s with
  | [] => false
  | _ :: t => contains p t
  end.

(** [s.split(c)] for a one-character separator. *)
Fixpoint split (c : ascii) (s : text) : list text :=
  match s with
  | [] => [[]]
  | x :: t =>
      if Ascii.eqb x c then [] :: split c t
      else match split c t with
           | p :: ps => (x :: p) :: ps
           | [] => [[x]]
           end
  end.

(** [s.split()]: the maximal runs of non-space characters. *)
Fixpoint split_ws_aux (cur : text) (s : text) : list text :=
  match s with
  | [] => match cur with [] => [] | _ => [rev cur] end
  | x :: t =>
      if isspace x
      then match cur with [] => split_ws_aux [] t | _ => rev cur :: split_ws_aux [] t end
      else split_ws_aux (x :: cur) t
  end.
Definition split_ws (s : text) : list text := split_ws_aux [] s.

(** [s.isdigit()] on ASCII text: non-empty and all digits. *)
Definition isdigit (s : text) : bool :=
  match s with [] => false | _ => forallb is_digit s end.

(** [s[a:b]] for non-negative [a], [b]. *)
Definition slice {A} (l : list A) (a b : nat) : list A := firstn (b - a) (skipn a l).

(** [s[a:b]] for arbitrary integers: a negative bound counts from the end
    and both bounds are clamped to the list. *)
Definition norm_index (len : nat) (i : Z) : nat :=
  if (i <? 0)%Z then Z.to_nat (Z.max 0 (i + Z.of_nat len))
  else Nat.min (Z.to_nat i) len.
Definition slice_z {A} (l : list A) (a b : Z) : list A :=
  slice l (norm_index (length l) a) (norm_index (length l) b).

(** [l.insert(i, x)] for a non-negative [i]: past the end it appends. *)
Definition insert_at {A} (i : nat) (x : A) (l : list A) : list A :=
  firstn i l ++ x :: skipn i l.

(** [range(0, len(l), n)] followed by [l[i:i+n]]: consecutive pieces of
    [n] elements, the last one possibly shorter. *)
Fixpoint chunks_fuel {A} (fuel n : nat) (l : list A) : list (list A) :=
  match fuel with
  | O => []
  | S f =>
      match l with
      | [] => []
      | _ :: _ => firstn n l :: chunks_fuel f n (skipn n l)
      end
  end.
Definition chunks {A} (n : nat) (l : list A) : list (list A) :=
  chunks_fuel (length l) n l.

(** *** Decimal numbers *)

(** The value of a string of digits, most significant first. *)
Fixpoint digits_value (acc : Z) (s : text) : Z :=
  match s with
  | [] => acc
  | c :: t => digits_value (10 * acc + digit_val c) t
  end.

(** The [digitpart] of Python's numeric literals: digits, with single
    underscores allowed between two digits. *)
Fixpoint digitpart_rest (acc : Z) (after_us : bool) (s : text) : option Z :=
  match s with
  | [] => if after_us then None else Some acc
  | c :: t =>
      if is_digit c then digitpart_rest (10 * acc + digit_val c) false t
      else if Ascii.eqb c "_" && negb after_us then digitpart_rest acc true t
      else None
  end.
Definition digitpart (s : text) : option Z :=
  match s with
  | [] => None
  | c :: t => if is_digit c then digitpart_rest (digit_val c) false t else None
  end.

(** An optional sign in front of a literal. *)
Definition split_sign (s : text) : bool * text :=
  match s with
  | "-"%char :: t => (true, t)
  | "+"%char :: t => (false, t)
  | _ => (false, s)
  end.

(** [int(s)] in base 10: [None] stands for [ValueError]. *)
Definition int (s : text) : option Z :=
  let '(neg, body) := split_sign (strip s) in
  match digitpart body with
  | Some v => Some (if neg then (- v)%Z else v)
  | None => None
  end.

(** The decimal digits of a natural number. *)
Fixpoint digits_fuel (fuel : nat) (n : N) (acc : text) : text :=
  match fuel with
  | O => acc
  | S f =>
      let acc' := digit_char (n mod 10) :: acc in
      if (n / 10 =? 0)%N then acc' else digits_fuel f (n / 10) acc'
  end.
Definition str_N (n : N) : text := digits_fuel (S (N.to_nat (N.log2 n))) n [].

(** [str(n)] for an [int]. *)
Definition str (z : Z) : text :=
  if (z <? 0)%Z then "-"%char :: str_N (Z.to_N (- z)) else str_N (Z.to_N z).

(** [f"{z:02d}"]: zero padding to width 2, placed after the sign. *)
Definition format_02d (z : Z) : text :=
  if (z <? 0)%Z
  then let d := str_N (Z.to_N (- z)) in "-"%char :: repeat "0"%char (1 - length d) ++ d
  else let d := str_N (Z.to_N z) in repeat "0"%char (2 - length d) ++ d.

(** [s.rjust(w)]: padding with spaces on the left. *)
Definition rjust (w : nat) (s : text) : text := repeat " "%char (w - length s) ++ s.

End Py.

(** ** Exceptions, outcomes and the file system *)

Inductive exn : Type :=
  | FileNotFoundError
  | SameFileError
  | ValueError
  | KeyError
  | IndexError.

Inductive outcome (A : Type) : Type :=
  | Ok (a : A)
  | Raise (e : exn).
Arguments Ok {A} a.
Arguments Raise {A} e.

(** The store: path to text.  Directories, permissions and encodings are
    not modelled. *)
Abbreviation fsys := (gmap (list ascii) (list ascii)).

(** A computation that may read and write files and may raise.  A raise
    keeps the writes made before it, as in Python. *)
Definition io (A : Type) : Type := fsys -> outcome A * fsys.

Definition io_ret {A} (a : A) : io A := fun fs => (Ok a, fs).
Definition io_bind {A B} (c : io A) (k : A -> io B) : io B :=
  fun fs => match c fs with
            | (Ok a, fs') => k a fs'
            | (Raise e, fs') => (Raise e, fs')
            end.
Definition raise {A} (e : exn) : io A := fun fs => (Raise e, fs).
Definition lift {A} (o : outcome A) : io A := fun fs => (o, fs).

Notation "'let!' x ':=' c 'in' k" := (io_bind c (fun x => k))
  (at level 10, x name, c at level 200, k at level 200, only parsing).

Definition newline : ascii := ascii_of_nat 10.

Module Os.

(** [os.path.isfile(p)] *)
Definition isfile (p : text) : io bool :=
  fun fs => (Ok (match fs !! p with Some _ => true | None => false end), fs).

(** [open(p, 'r').read()] *)
Definition read_text (p : text) : io text :=
  fun fs => match fs !! p with
            | Some t => (Ok t, fs)
            | None => (Raise FileNotFoundError, fs)
            end.

(** [open(p, 'w')] followed by the writes and the close: the file then
    holds exactly [t]. *)
Definition write_text (p : text) (t : text) : io unit :=
  fun fs => (Ok tt, <[p := t]> fs).

(** [file.readlines()]: the lines of a text, each with its newline, the
    last one without when the text does not end in one. *)
Fixpoint readlines_aux (cur : text) (s : text) : list text :=
  match s with
  | [] => match cur with [] => [] | _ => [rev cur] end
  | c :: t =>
      if Ascii.eqb c newline then rev (c :: cur) :: readlines_aux [] t
      else readlines_aux (c :: cur) t
  end.
Definition readlines (t : text) : list text := readlines_aux [] t.

(** [file.writelines(lines)] *)
Definition writelines (lines : list text) : text := concat lines.

(** [shutil.copyfile(src, dst)] *)
Definition copyfile (src dst : text) : io unit :=
  if decide (src = dst) then raise SameFileError
  else let! t := read_text src in write_text dst t.

End Os.

(** ** The regular expressions of the source *)

Module Re.

(** Case-insensitive literal prefix ([re.IGNORECASE], anchored by [^] or by
    [pattern.match]): the rest of the subject after the literal. *)
Fixpoint prefix_ci (p s : text) : option text :=
  match p, s with
  | [], _ => Some s
  | _ :: _, [] => None
  | a :: p', b :: s' =>
      if Ascii.eqb (Py.lower a) (Py.lower b) then prefix_ci p' s' else None
  end.

(** [(\d+)]: the longest run of digits, which must not be empty, and what
    follows it. *)
Definition digits1 (s : text) : option (text * text) :=
  match Py.take_while Py.is_digit s with
  | [] => None
  | ds => Some (ds, Py.drop_while Py.is_digit s)
  end.

(** [re.compile(r'^KEY(\d+)', re.IGNORECASE).match(s)]: group 1. *)
Definition match_key_digits (key s : text) : option text :=
  match prefix_ci key s with
  | Some rest => match digits1 rest with Some (ds, _) => Some ds | None => None end
  | None => None
  end.

(** [KEY\d+] (case-sensitive) tried at the start of [s]: the digits and
    the text after the match. *)
Definition match_at (key s : text) : option (text * text) :=
  match Py.strip_prefix key s with
  | Some rest => digits1 rest
  | None => None
  end.

(** [re.findall(r'KEY(\d+)', s)]: group 1 of the successive
    non-overlapping matches, scanning from the left. *)
Fixpoint findall_fuel (fuel : nat) (key s : text) : list text :=
  match fuel with
  | O => []
  | S f =>
      match match_at key s with
      | Some (ds, rest) => ds :: findall_fuel f key rest
      | None => match s with
                | [] => []
                | _ :: t => findall_fuel f key t
                end
      end
  end.
Definition findall (key s : text) : list text := findall_fuel (S (length s)) key s.

(** [re.compile(r'(KEY)\d+').search(s)]: [match.group()], the whole text
    of the first match. *)
Fixpoint search_fuel (fuel : nat) (key s : text) : option text :=
  match fuel with
  | O => None
  | S f =>
      match match_at key s with
      | Some (ds, _) => Some (key ++ ds)
      | None => match s with
                | [] => None
                | _ :: t => search_fuel f key t
                end
      end
  end.
Definition search (key s : text) : option text := search_fuel (S (length s)) key s.

(** [re.compile(r'(KEY)\d+').sub(r'\g<1>REPL', s)]: every match is replaced
    by the key followed by [repl]; the rest is copied. *)
Fixpoint sub_fuel (fuel : nat) (key repl s : text) : text :=
  match fuel with
  | O => s
  | S f =>
      match match_at key s with
      | Some (_, rest) => key ++ repl ++ sub_fuel f key repl rest
      | None => match s with
                | [] => []
                | c :: t => c :: sub_fuel f key repl t
                end
      end
  end.
Definition sub (key repl s : text) : text := sub_fuel (S (length s)) key repl s.

End Re.

(** ** The resource registry *)

(** *** Project-file entries *)

(** A frame built by [pd.DataFrame(records)] from a list of one-key
    records is represented by the list of the values.  Built from an empty
    list the frame has no column at all, so selecting the column raises
    [KeyError]; otherwise the selection gives the values. *)
Definition column (df : list text) : outcome (list text) :=
  match df with
  | [] => Raise KeyError
  | _ :: _ => Ok df
  end.

(** [line.split('=')[1].strip()[1:]], for a line that starts with a key
    ending in ['=']: the text after the type letter. *)
Definition entry_number (line : text) : text :=
  tl (Py.strip (nth 1 (Py.split "=" line) [])).

(** The loop shared by the four [get_*_entries] functions. *)
Definition entries_of (key : text) (lines : list text) : list text :=
  flat_map (fun line => if Py.startswith key line then [entry_number line] else []) lines.

Definition get_plan_entries (project_file : text) : io (list text) :=
  let! t := Os.read_text project_file in
  io_ret (entries_of (lit "Plan File=") (Os.readlines t)).

Definition get_flow_entries (project_file : text) : io (list text) :=
  let! t := Os.read_text project_file in
  io_ret (entries_of (lit "Flow File=") (Os.readlines t)).

Definition get_unsteady_entries (project_file : text) : io (list text) :=
  let! t := Os.read_text project_file in
  io_ret (entries_of (lit "Unsteady File=") (Os.readlines t)).

Definition get_geom_entries (project_file : text) : io (list text) :=
  let! t := Os.read_text project_file in
  io_ret (entries_of (lit "Geom File=") (Os.readlines t)).

(** *** Numbers of the reference lines *)

(** [pattern.match(line.strip())] followed by [int(match.group(1))]. *)
Definition match_number (key : text) (line : text) : option Z :=
  match Re.match_key_digits key (Py.strip line) with
  | Some ds => Some (Py.digits_value 0 ds)
  | None => None
  end.

(** The [existing_numbers] list of the copy functions. *)
Definition existing_numbers (key : text) (lines : list text) : list Z :=
  flat_map (fun line => match match_number key line with
                        | Some n => [n]
                        | None => []
                        end) lines.

(** [list.sort()] on integers. *)
Fixpoint insert_sorted (x : Z) (l : list Z) : list Z :=
  match l with
  | [] => [x]
  | y :: t => if (x <=? y)%Z then x :: l else y :: insert_sorted x t
  end.
Fixpoint sort (l : list Z) : list Z :=
  match l with
  | [] => []
  | x :: t => insert_sorted x (sort t)
  end.

(** The scan over the sorted numbers in [copy_geometry_from_template]:
    [next_number] advances while the numbers met equal it. *)
Fixpoint gap_scan (next_number : Z) (nums : list Z) : Z :=
  match nums with
  | [] => next_number
  | num :: t => if (num =? next_number)%Z then gap_scan (next_number + 1) t else next_number
  end.

(** Gap-fill allocation, inline in [copy_geometry_from_template]. *)
Definition gap_fill_next (existing : list Z) : Z :=
  match existing with
  | [] => 1%Z
  | _ :: _ => gap_scan 1 (sort existing)
  end.

(** [max(existing_numbers)] on a non-empty list. *)
Definition list_max_Z (x : Z) (l : list Z) : Z := fold_left Z.max l x.

(** Append allocation, inline in [copy_unsteady_from_template] and
    [copy_plan_from_template]. *)
Definition append_next (existing : list Z) : Z :=
  match existing with
  | [] => 1%Z
  | x :: t => (list_max_Z x t + 1)%Z
  end.

(** [get_next_available_number]: the numbers present are those of the
    entries whose text after the first character is all digits; the
    [while] loop walks up from 1.  The loop runs at most once per element
    of the set, which is the fuel given to it. *)
Definition entry_digits (num : text) : list Z :=
  if Py.isdigit (tl num) then [Py.digits_value 0 (tl num)] else [].

Fixpoint first_free (fuel : nat) (next_num : Z) (existing_set : gset Z) : Z :=
  match fuel with
  | O => next_num
  | S f =>
      if decide (next_num ∈ existing_set)
      then first_free f (next_num + 1) existing_set
      else next_num
  end.

Definition next_available (existing_numbers : list text) : Z :=
  let existing_set : gset Z := list_to_set (flat_map entry_digits existing_numbers) in
  first_free (S (size existing_set)) 1 existing_set.

Definition get_next_available_number (existing_numbers : list text) : text :=
  Py.format_02d (next_available existing_numbers).

(** *** Where the new reference line goes *)

(** The index of the first line for which [f] gives [true], counting
    from [i]. *)
Fixpoint find_index {A} (f : A -> bool) (i : nat) (l : list A) : option nat :=
  match l with
  | [] => None
  | x :: t => if f x then Some i else find_index f (S i) t
  end.

(** The index of the last line for which [f] gives [true], counting
    from [i]. *)
Fixpoint last_index {A} (f : A -> bool) (i : nat) (l : list A) : option nat :=
  match l with
  | [] => None
  | x :: t =>
      match last_index f (S i) t with
      | Some j => Some j
      | None => if f x then Some i else None
      end
  end.

Definition is_ref_line (key line : text) : bool :=
  match match_number key line with Some _ => true | None => false end.

(** Geometry: the loop skips a reference line whose number is below the
    new one and stops at the first other reference line. *)
Definition geom_stop (key : text) (next_number : Z) (line : text) : bool :=
  match match_number key line with
  | Some current_number => negb (current_number <? next_number)%Z
  | None => false
  end.

(** Unsteady and plan: the loop stops at the first reference line whose
    number is above the new one. *)
Definition greater_stop (key : text) (next_number : Z) (line : text) : bool :=
  match match_number key line with
  | Some current_number => (next_number <? current_number)%Z
  | None => false
  end.

(** [^(Proj Title|Current Plan|Default Exp/Contr|English Units)] with
    [re.IGNORECASE], matched on the stripped line. *)
Definition header_keys : list text :=
  [lit "Proj Title"; lit "Current Plan"; lit "Default Exp/Contr"; lit "English Units"].
Definition header_match (line : text) : bool :=
  existsb (fun k => match Re.prefix_ci k (Py.strip line) with Some _ => true | None => false end)
          header_keys.

Definition geom_key : text := lit "Geom File=g".
Definition unsteady_key : text := lit "Unsteady File=u".
Definition plan_key : text := lit "Plan File=p".

(** The project lines after [copy_geometry_from_template] has placed the
    new line. *)
Definition geom_insert (lines : list text) (next_number : Z) : list text :=
  let new_geom_line := lit "Geom File=g" ++ Py.format_02d next_number ++ [newline] in
  match find_index (geom_stop geom_key next_number) 0 lines with
  | Some insertion_index => Py.insert_at insertion_index new_geom_line lines
  | None =>
      match last_index header_match 0 lines with
      | Some last_header_index => Py.insert_at (last_header_index + 2) new_geom_line lines
      | None => Py.insert_at 0 new_geom_line lines
      end
  end.

(** The project lines after [copy_unsteady_from_template] or
    [copy_plan_from_template] has placed the new line. *)
Definition ref_insert (key : text) (lines : list text) (next_number : Z) : list text :=
  let new_line := key ++ Py.format_02d next_number ++ [newline] in
  match find_index (greater_stop key next_number) 0 lines with
  | Some insertion_index => Py.insert_at insertion_index new_line lines
  | None =>
      match last_index (is_ref_line key) 0 lines with
      | Some last_ref_index => Py.insert_at (last_ref_index + 1) new_line lines
      | None => lines ++ [new_line]
      end
  end.

(** *** The copy-from-template operations *)

(** [list] membership test of Python's [in] on strings. *)
Definition text_in (x : text) (l : list text) : bool :=
  existsb (fun y => bool_decide (x = y)) l.

(** The first line whose stripped text starts with [Short Identifier=]
    (case-insensitive; group 1 is the rest of that text) is rewritten; the
    others are kept. *)
Fixpoint rename_short_identifier (new_plan_shortid : option text) (plan_lines : list text)
  : list text :=
  match plan_lines with
  | [] => []
  | line :: rest =>
      match Re.prefix_ci (lit "Short Identifier=") (Py.strip line) with
      | Some current_shortid =>
          let chosen := match new_plan_shortid with
                        | Some (c :: s) => c :: s
                        | _ => current_shortid ++ lit "_copy"
                        end in
          (lit "Short Identifier=" ++ firstn 24 chosen ++ [newline]) :: rest
      | None => line :: rename_short_identifier new_plan_shortid rest
      end
  end.

(** The numbers found by [re.findall(r'Plan File=p(\d+)', project_content)]. *)
Definition plan_numbers (project_content : text) : list Z :=
  map (Py.digits_value 0) (Re.findall plan_key project_content).

Section Paths.

(** [Path(p).stem] and [os.path.join], which depend on the platform. *)
Variable path_stem : text -> text.
Variable path_join : text -> text -> text.

Definition copy_geometry_from_template (project_folder project_file template_geom : text)
  : io text :=
  let project_name := path_stem project_file in
  let template_geom_filename := project_name ++ lit "." ++ template_geom in
  let template_geom_path := path_join project_folder template_geom_filename in
  let! found := Os.isfile template_geom_path in
  if negb found then raise FileNotFoundError else
  let template_hdf_path := template_geom_path ++ lit ".hdf" in
  let! found_hdf := Os.isfile template_hdf_path in
  if negb found_hdf then raise FileNotFoundError else
  let! t := Os.read_text project_file in
  let lines := Os.readlines t in
  let next_number := gap_fill_next (existing_numbers geom_key lines) in
  let next_geom_number := Py.format_02d next_number in
  let new_geom_filename := project_name ++ lit ".g" ++ next_geom_number in
  let new_geom_path := path_join project_folder new_geom_filename in
  let! _ := Os.copyfile template_geom_path new_geom_path in
  let new_hdf_path := new_geom_path ++ lit ".hdf" in
  let! _ := Os.copyfile template_hdf_path new_hdf_path in
  let! _ := Os.write_text project_file (Os.writelines (geom_insert lines next_number)) in
  io_ret (lit "g" ++ next_geom_number).

Definition copy_unsteady_from_template (project_folder project_file template_unsteady : text)
  : io text :=
  let project_name := path_stem project_file in
  let template_unsteady_filename := project_name ++ lit "." ++ template_unsteady in
  let template_unsteady_path := path_join project_folder template_unsteady_filename in
  let! found := Os.isfile template_unsteady_path in
  if negb found then raise FileNotFoundError else
  let! t := Os.read_text project_file in
  let lines := Os.readlines t in
  let next_number := append_next (existing_numbers unsteady_key lines) in
  let next_unsteady_number := Py.format_02d next_number in
  let new_unsteady_filename := project_name ++ lit ".u" ++ next_unsteady_number in
  let new_unsteady_path := path_join project_folder new_unsteady_filename in
  let! _ := Os.copyfile template_unsteady_path new_unsteady_path in
  let template_hdf_path := template_unsteady_path ++ lit ".hdf" in
  let new_hdf_path := new_unsteady_path ++ lit ".hdf" in
  let! found_hdf := Os.isfile template_hdf_path in
  let! _ := (if found_hdf then Os.copyfile template_hdf_path new_hdf_path else io_ret tt) in
  let! _ := Os.write_text project_file
              (Os.writelines (ref_insert unsteady_key lines next_number)) in
  io_ret (lit "u" ++ next_unsteady_number).


End Paths.

(** *** Rewiring a plan *)

Definition apply_geometry_to_plan (plan_file geometry_number project_file : text) : io unit :=
  let! geom_entries := get_geom_entries project_file in
  let! geom_number := lift (column geom_entries) in
  if negb (text_in geometry_number geom_number) then raise ValueError else
  let! t := Os.read_text plan_file in
  Os.write_text plan_file
    (Os.writelines
       (map (fun line => if Py.startswith (lit "Geom File=g") line
                         then lit "Geom File=g" ++ geometry_number ++ [newline]
                         else line)
            (Os.readlines t))).

Definition apply_unsteady_to_plan (plan_file unsteady_number project_file : text) : io unit :=
  let! unsteady_entries := get_unsteady_entries project_file in
  let! unsteady_numbers := lift (column unsteady_entries) in
  if negb (text_in unsteady_number unsteady_numbers) then raise ValueError else
  let! t := Os.read_text plan_file in
  Os.write_text plan_file
    (Os.writelines
       (map (fun line => if Py.startswith (lit "Flow File=u") line
                         then lit "Flow File=u" ++ unsteady_number ++ [newline]
                         else line)
            (Os.readlines t))).

(** *** Run parameters of a plan *)

Definition d1_cores_key : text := lit "UNET D1 Cores= ".
Definition d2_cores_key : text := lit "UNET D2 Cores= ".
Definition ps_cores_key : text := lit "PS Cores= ".

(** [int(d2_match.group().split()[-1]) == 2] *)
Definition d2_is_two (d2_match : option text) : bool :=
  match d2_match with
  | Some m =>
      match Py.int (List.last (Py.split_ws m) []) with
      | Some v => (v =? 2)%Z
      | None => false
      end
  | None => false
  end.

(** The content that [set_num_cores] writes back. *)
Definition set_num_cores_text (content : text) (num_cores : Z) : text :=
  let new_content := Re.sub d2_cores_key (Py.str num_cores) content in
  let d2_match := Re.search d2_cores_key new_content in
  if d2_is_two d2_match
  then Re.sub ps_cores_key (lit "1") (Re.sub d1_cores_key (lit "1") new_content)
  else Re.sub ps_cores_key (Py.str num_cores)
         (Re.sub d1_cores_key (Py.str num_cores) new_content).

Definition set_num_cores (plan_file : text) (num_cores : Z) : io unit :=
  let! content := Os.read_text plan_file in
  Os.write_text plan_file (set_num_cores_text content num_cores).

(** The lines that [update_geompre_flags] writes back. *)
Definition geompre_line (run_htab_value use_ib_tables_value : Z) (line : text) : text :=
  if Py.startswith (lit "Run HTab=") (Py.strip line)
  then lit "Run HTab= " ++ Py.str run_htab_value ++ lit " " ++ [newline]
  else if Py.startswith (lit "UNET Use Existing IB Tables=") (Py.strip line)
  then lit "UNET Use Existing IB Tables= " ++ Py.str use_ib_tables_value ++ lit " " ++ [newline]
  else line.

Definition flag_ok (v : Z) : bool := (v =? -1)%Z || (v =? 0)%Z.

Definition update_geompre_flags (file_path : text) (run_htab_value use_ib_tables_value : Z)
  : io unit :=
  if negb (flag_ok run_htab_value) then raise ValueError else
  if negb (flag_ok use_ib_tables_value) then raise ValueError else
  let! t := Os.read_text file_path in
  Os.write_text file_path
    (Os.writelines (map (geompre_line run_htab_value use_ib_tables_value) (Os.readlines t))).

(** ** The fixed-width table codec *)

(** *** Values *)

(** A Python [float].  A finite value is carried as the exact rational
    denoted by its decimal literal or obtained by exact arithmetic; the
    rounding to binary64 is not modelled.  The two agree on the integers
    below [2^53], which is all that the theorems on values rely on. *)
Inductive pyfloat : Type :=
  | Finite (q : Q)
  | Inf (negative : bool)
  | NaN.

(** A cell of the [Value] column: [float64] after decoding, an integer
    after [astype(int)]. *)
Inductive cell : Type :=
  | CFloat (f : pyfloat)
  | CInt (z : Z).

Module Float.

Definition lower_text (s : text) : text := map Py.lower s.

(** [m] times ten to the [k]. *)
Definition decimal (m k : Z) : Q :=
  if (0 <=? k)%Z then inject_Z (m * 10 ^ k) else Qred (Qmake m (Z.to_pos (10 ^ (- k)))).

(** The text up to the first character satisfying [p], and the text from
    that character on, if there is one. *)
Fixpoint break_at (p : ascii -> bool) (s : text) : text * option text :=
  match s with
  | [] => ([], None)
  | c :: t =>
      if p c then ([], Some t)
      else let '(a, b) := break_at p t in (c :: a, b)
  end.

Definition count_digits (s : text) : Z := Z.of_nat (length (filter (fun c => Py.is_digit c = true) s)).

(** [number ::= [digitpart] "." digitpart | digitpart ["."]]: the integer
    made of all the digits and the number of digits after the point. *)
Definition mantissa (s : text) : option (Z * Z) :=
  match break_at (fun c => Ascii.eqb c ".") s with
  | (ip, None) =>
      match Py.digitpart ip with Some v => Some (v, 0%Z) | None => None end
  | (ip, Some fp) =>
      match ip, fp with
      | [], [] => None
      | _ :: _, [] =>
          match Py.digitpart ip with Some v => Some (v, 0%Z) | None => None end
      | [], _ :: _ =>
          match Py.digitpart fp with Some v => Some (v, count_digits fp) | None => None end
      | _ :: _, _ :: _ =>
          match Py.digitpart ip, Py.digitpart fp with
          | Some a, Some b => Some ((a * 10 ^ count_digits fp + b)%Z, count_digits fp)
          | _, _ => None
          end
      end
  end.

(** [exponent ::= ("e" | "E") [sign] digitpart], after the letter. *)
Definition exponent (s : text) : option Z :=
  let '(neg, body) := Py.split_sign s in
  match Py.digitpart body with
  | Some v => Some (if neg then (- v)%Z else v)
  | None => None
  end.

(** [floatnumber ::= number [exponent]] *)
Definition floatnumber (s : text) : option Q :=
  match break_at (fun c => Ascii.eqb (Py.lower c) "e") s with
  | (m, None) =>
      match mantissa m with
      | Some (v, fd) => Some (decimal v (- fd))
      | None => None
      end
  | (m, Some e) =>
      match mantissa m, exponent e with
      | Some (v, fd), Some x => Some (decimal v (x - fd))
      | _, _ => None
      end
  end.

(** [float(s)]: [None] stands for [ValueError]. *)
Definition float (s : text) : option pyfloat :=
  let '(neg, body) := Py.split_sign (Py.strip s) in
  let l := lower_text body in
  if bool_decide (l = lit "inf") || bool_decide (l = lit "infinity") then Some (Inf neg)
  else if bool_decide (l = lit "nan") then Some NaN
  else match floatnumber body with
       | Some q => Some (Finite (if neg then Qopp q else q))
       | None => None
       end.

(** Rounding to the nearest integer, ties to the even one ([round] of
    NumPy). *)
Definition round_half_even (q : Q) : Z :=
  let n := Qnum q in
  let d := Zpos (Qden q) in
  let fl := (n / d)%Z in
  let r := (n mod d)%Z in
  match (2 * r ?= d)%Z with
  | Lt => fl
  | Gt => (fl + 1)%Z
  | Eq => if Z.even fl then fl else (fl + 1)%Z
  end.

Definition of_cell (c : cell) : pyfloat :=
  match c with
  | CFloat f => f
  | CInt z => Finite (inject_Z z)
  end.

(** One value of [(column * scale_factor).round().astype(int)]; the cast
    of a non-finite value raises. *)
Definition scale_cell (scale_factor : Q) (c : cell) : option Z :=
  match of_cell c with
  | Finite q => Some (round_half_even (Qmult q scale_factor))
  | _ => None
  end.

End Float.

(** *** Locating the tables *)

Definition table_types : list text :=
  [lit "Flow Hydrograph="; lit "Gate Openings="; lit "Stage Hydrograph=";
   lit "Uniform Lateral Inflow="; lit "Lateral Inflow Hydrograph="].

(** [any(table_type in line for table_type in table_types)] *)
Definition is_table_line (line : text) : bool :=
  existsb (fun table_type => Py.contains table_type line) table_types.

(** [line.strip().split('=')[0] + '='] *)
Definition table_name_of (line : text) : text :=
  nth 0 (Py.split "=" (Py.strip line)) [] ++ lit "=".

(** [int(line.strip().split('=')[1])] *)
Definition num_values_of (line : text) : option Z :=
  Py.int (nth 1 (Py.split "=" (Py.strip line)) []).

(** A located table: [(table_name, start_line, end_line)]. *)
Abbreviation table := (text * Z * Z)%type.

(** The loop of [identify_tables] from line [i] on, with the tables
    closed so far and the table being read, [(name, start, num_values)]. *)
Fixpoint identify_loop (i : Z) (lines : list text) (tables : list table)
    (current_table : option (text * Z * Z)) : outcome (list table) :=
  match lines with
  | [] =>
      Ok (match current_table with
          | Some (name, start, num_values) =>
              tables ++ [(name, start, (start + (num_values + 9) / 10)%Z)]
          | None => tables
          end)
  | line :: rest =>
      if is_table_line line then
        let tables' := match current_table with
                       | Some (name, start, _) => tables ++ [(name, start, (i - 1)%Z)]
                       | None => tables
                       end in
        match num_values_of line with
        | Some num_values =>
            identify_loop (i + 1) rest tables' (Some (table_name_of line, (i + 1)%Z, num_values))
        | None => Raise ValueError
        end
      else identify_loop (i + 1) rest tables current_table
  end.

Definition identify_tables (lines : list text) : outcome (list table) :=
  identify_loop 0 lines [] None.

(** *** Decoding *)

(** The inner loop body of [parse_fixed_width_table] on one stripped
    field: what it appends. *)
Definition parse_value (value : text) : list pyfloat :=
  if 8 <? length value then
    match Float.float (firstn 8 value), Float.float (skipn 8 value) with
    | Some a, Some b => [a; b]
    | _, _ => []
    end
  else
    match value with
    | [] => []
    | _ :: _ => match Float.float value with Some v => [v] | None => [] end
    end.

Definition parse_line (line : text) : list pyfloat :=
  flat_map parse_value (map Py.strip (Py.chunks 8 line)).

(** The [Value] column of the frame returned by
    [parse_fixed_width_table(lines, start, end)]. *)
Definition parse_fixed_width_table (lines : list text) (start end_ : Z) : list cell :=
  map CFloat (flat_map parse_line (Py.slice_z lines start end_)).

(** [extract_tables]: a later table replaces an earlier one of the same
    name in the dictionary. *)
Definition extract_from (lines : list text) (tables : list table) : gmap text (list cell) :=
  fold_left (fun extracted '(table_name, start, end_) =>
               <[table_name := parse_fixed_width_table lines start end_]> extracted)
            tables ∅.

Definition extract_tables (file_path : text) : io (gmap text (list cell)) :=
  let! t := Os.read_text file_path in
  let lines := Os.readlines t in
  let! tables := lift (identify_tables lines) in
  io_ret (extract_from lines tables).

(** *** Scaling *)

(** All the values of an option list, or nothing. *)
Fixpoint sequence {A} (l : list (option A)) : option (list A) :=
  match l with
  | [] => Some []
  | Some x :: t => match sequence t with Some r => Some (x :: r) | None => None end
  | None :: _ => None
  end.

(** [scale_flow_hydrograph(tables, scale_factor)]: the updated dictionary
    and the original values, [None] when there is no flow hydrograph. *)
Definition scale_flow_hydrograph (tables : gmap text (list cell)) (scale_factor : Q)
  : outcome (gmap text (list cell) * option (list cell)) :=
  match tables !! lit "Flow Hydrograph=" with
  | None => Ok (tables, None)
  | Some flow_df =>
      let original_values := flow_df in
      match sequence (map (Float.scale_cell scale_factor) flow_df) with
      | Some scaled => Ok (<[lit "Flow Hydrograph=" := map CInt scaled]> tables, Some original_values)
      | None => Raise ValueError
      end
  end.

(** *** Encoding *)

(** [f'{value:8d}']: an integer right-justified in 8 characters; the
    format code [d] raises [ValueError] on a [float]. *)
Definition format_8d (value : cell) : option text :=
  match value with
  | CInt z => Some (Py.rjust 8 (Py.str z))
  | CFloat _ => None
  end.

(** One formatted row: at most ten fields and a newline. *)
Definition format_row (row : list cell) : option text :=
  match sequence (map format_8d row) with
  | Some fields => Some (concat fields ++ [newline])
  | None => None
  end.

Definition formatted_values (df : list cell) : option (list text) :=
  sequence (map format_row (Py.chunks 10 df)).

(** [lines[a:a+n] = new] for a list [new] of length [n] and [a >= 0]. *)
Definition assign_slice {A} (lines : list A) (a : nat) (new : list A) : list A :=
  firstn a lines ++ new ++ skipn (a + length new) lines.

(** The lines that [write_table_to_file] writes back. *)
Definition write_table_lines (lines : list text) (df : list cell) (start_line : nat)
  : outcome (list text) :=
  match formatted_values df with
  | Some formatted => Ok (assign_slice lines start_line formatted)
  | None => Raise ValueError
  end.

Definition write_table_to_file (file_path table_name : text) (df : list cell) (start_line : nat)
  : io unit :=
  let! t := Os.read_text file_path in
  let! lines := lift (write_table_lines (Os.readlines t) df start_line) in
  Os.write_text file_path (Os.writelines lines).

(** ** Specification predicates *)

(** [n] is what append allocation must give on [existing]: 1 on the empty
    collection, else one more than a greatest element. *)
Definition is_append_id (existing : list Z) (n : Z) : Prop :=
  (existing = [] /\ n = 1%Z) \/
  (In (n - 1)%Z existing /\ Forall (fun k => (k <= n - 1)%Z) existing).

(** [n] is the smallest positive integer not in [existing]. *)
Definition smallest_free (existing : list Z) (n : Z) : Prop :=
  (1 <= n)%Z /\ ~ In n existing /\ forall k, (1 <= k < n)%Z -> In k existing.

(** Strictly ascending lists of numbers. *)
Fixpoint ascending (l : list Z) : Prop :=
  match l with
  | [] => True
  | x :: t => Forall (fun y => (x < y)%Z) t /\ ascending t
  end.

(** A type letter of a reference line. *)
Definition is_letter (c : ascii) : bool :=
  let n := nat_of_ascii (Py.lower c) in (97 <=? n) && (n <=? 122).

(** The form of a reference line in the data model: the key, a type
    letter, a number, and then only white space (the newline). *)
Definition reference_line (key : text) (line : text) : Prop :=
  exists (c : ascii) (ds ws : text),
    is_letter c = true /\ ds <> [] /\ forallb Py.is_digit ds = true /\
    forallb Py.isspace ws = true /\ line = key ++ c :: ds ++ ws.


(** A bare number: digits only. *)
Definition bare_number (e : text) : Prop := e <> [] /\ forallb Py.is_digit e = true.

(** One instance of the path functions, used to run the operations on
    concrete stores: the stem is the text before the first dot and joining
    puts a slash between folder and file name. *)
Definition demo_stem (p : text) : text :=
  Py.take_while (fun c => negb (Ascii.eqb c ".")) p.
Definition demo_join (a b : text) : text := a ++ lit "/" ++ b.



(** A flow file with two tables, the first of 23 values on three lines
    directly followed by the declaration of the second. *)
Definition two_tables : list text :=
  map (fun s => lit s ++ [newline])
    ["Flow Hydrograph= 23 ";
     "       1       2       3       4       5       6       7       8       9      10";
     "      11      12      13      14      15      16      17      18      19      20";
     "      21      22      23";
     "Stage Hydrograph= 3";
     "     1.5     2.5    -3.5"]%string.

(** The numbers that a plan file holds for a core-count key: those read by
    the key's pattern at its successive matches. *)
Definition core_values (key : text) (content : text) : list Z :=
  map (Py.digits_value 0) (Re.findall key content).

(** Whether a text starts with a digit. *)
Definition starts_digit (s : text) : bool :=
  match s with
  | c :: _ => Py.is_digit c
  | [] => false
  end.

(** The character [c] does not occur in [s]. *)
Definition free_of (c : ascii) (s : text) : bool :=
  forallb (fun x => negb (Ascii.eqb x c)) s.

(** A plan file with the three core-count lines among others. *)
Definition demo_plan : text :=
  concat (map (fun s => lit s ++ [newline])
    ["Plan Title=Unsteady"; "Geom File=g01"; "Flow File=u01";
     "UNET D1 Cores= 0"; "UNET D2 Cores= 8"; "PS Cores= 3"; "Run HTab= 0 "]%string).

(** The layout that [write_table_to_file] produces for a list of
    integers: ten values a line, each right-justified in 8 characters. *)
Definition table_rows (zs : list Z) : list text :=
  map (fun row => concat (map (fun z => Py.rjust 8 (Py.str z)) row) ++ [newline])
      (Py.chunks 10 zs).

(** The integers that fit an 8-character field. *)
Definition fits_field (z : Z) : Prop := (-9999999 <= z <= 99999999)%Z.

(** The declaration line of a flow hydrograph of [n] values. *)
Definition flow_decl (n : Z) : text :=
  lit "Flow Hydrograph= " ++ Py.str n ++ [newline].

(** The decoded column of a table of integers. *)
Definition float_column (zs : list Z) : list cell :=
  map (fun z => CFloat (Finite (inject_Z z))) zs.

(** A line that ends with its newline and has no other. *)
Definition terminated (l : text) : Prop :=
  exists body, l = body ++ [newline] /\ free_of newline body = true.

(** The shape of what [readlines] returns: every line is terminated,
    except that the last one may lack its newline (and is then not
    empty). *)
Fixpoint lines_ok (ls : list text) : Prop :=
  match ls with
  | [] => True
  | l :: rest =>
      match rest with
      | [] => terminated l \/ (l <> [] /\ free_of newline l = true)
      | _ :: _ => terminated l /\ lines_ok rest
      end
  end.

(** The shape of one line of [readlines]: it holds no newline, or one,
    at its end. *)
Definition line_shape (x : text) : Prop := free_of newline x = true \/ terminated x.

(** The line map of [apply_geometry_to_plan] and [apply_unsteady_to_plan]:
    a line that starts with the key becomes the key with the number. *)
Definition rewire (key number : text) (line : text) : text :=
  if Py.startswith key line then key ++ number ++ [newline] else line.

(** A text that is empty or ends with a newline. *)
Definition newline_ended (t : text) : Prop := t = [] \/ exists body, t = body ++ [newline].

(** The last table of a list that carries the name [name]. *)
Fixpoint last_named (name : text) (tables : list table) : option table :=
  match tables with
  | [] => None
  | (n, start, end_) :: rest =>
      match last_named name rest with
      | Some tb => Some tb
      | None => if bool_decide (n = name) then Some (n, start, end_) else None
      end
  end.


(** A flow file with two flow hydrographs and a stage hydrograph between
    them. *)
Definition repeated_tables : list text :=
  map (fun s => lit s ++ [newline])
    ["Flow Hydrograph= 12 ";
     "       1       2       3       4       5       6       7       8       9      10";
     "      11      12";
     "Stage Hydrograph= 1 ";
     "       7";
     "Flow Hydrograph= 3 ";
     "      10      20      30"]%string.


(** Every line of a project file that [get_unsteady_entries] takes for an
    unsteady line is a reference line. *)
Definition unsteady_lines_wf (lines : list text) : Prop :=
  Forall (fun line => Py.startswith (lit "Unsteady File=") line = true ->
                      reference_line (lit "Unsteady File=") line) lines.

(** * Properties *)

(** Closes an equation between closed terms by evaluating both sides. *)
Ltac vm_refl :=
  lazymatch goal with
  | |- @eq ?T ?l ?r => exact (@eq_refl T r <: @eq T l r)
  end.

(** ** Decimal printing and parsing *)

Module DecimalFacts.
Import Py.

Lemma digit_cases (d : N) :
  (d < 10)%N ->
  d = 0%N \/ d = 1%N \/ d = 2%N \/ d = 3%N \/ d = 4%N \/
  d = 5%N \/ d = 6%N \/ d = 7%N \/ d = 8%N \/ d = 9%N.
Proof. lia. Qed.

Lemma digit_char_is_digit (d : N) : (d < 10)%N -> is_digit (digit_char d) = true.
Proof.
  intros H. destruct (digit_cases d H) as [-> | [-> | [-> | [-> | [-> | [-> | [-> | [-> | [-> | ->]]]]]]]]];
    reflexivity.
Qed.

Lemma digit_val_char (d : N) : (d < 10)%N -> digit_val (digit_char d) = Z.of_N d.
Proof.
  intros H. destruct (digit_cases d H) as [-> | [-> | [-> | [-> | [-> | [-> | [-> | [-> | [-> | ->]]]]]]]]];
    reflexivity.
Qed.

Lemma digits_fuel_acc (f : nat) : forall n acc,
  digits_fuel f n acc = digits_fuel f n [] ++ acc.
Proof.
  induction f as [|f IH]; intros n acc; simpl; [reflexivity|].
  destruct (n / 10 =? 0)%N; [reflexivity|].
  rewrite IH. rewrite (IH _ [_]). rewrite <- app_assoc. reflexivity.
Qed.

Lemma digits_fuel_enough (f : nat) : forall f' n acc,
  (n < 10 ^ N.of_nat (S f))%N -> (n < 10 ^ N.of_nat (S f'))%N ->
  digits_fuel (S f) n acc = digits_fuel (S f') n acc.
Proof.
  induction f as [|f IH]; intros f' n acc Hf Hf'.
  - cbn [digits_fuel]. assert (n / 10 = 0)%N as ->.
    { apply N.div_small. change (10 ^ N.of_nat 1)%N with 10%N in Hf. lia. }
    reflexivity.
  - cbn [digits_fuel]. destruct (n / 10 =? 0)%N eqn:E; [reflexivity|].
    apply N.eqb_neq in E.
    destruct f' as [|f'].
    { exfalso. apply E. apply N.div_small. change (10 ^ N.of_nat 1)%N with 10%N in Hf'. lia. }
    apply IH.
    + apply N.Div0.div_lt_upper_bound.
      rewrite Nat2N.inj_succ, N.pow_succ_r' in Hf. exact Hf.
    + apply N.Div0.div_lt_upper_bound.
      rewrite Nat2N.inj_succ, N.pow_succ_r' in Hf'. exact Hf'.
Qed.

Lemma log2_fuel (n : N) : (n < 10 ^ N.of_nat (S (N.to_nat (N.log2 n))))%N.
Proof.
  rewrite Nat2N.inj_succ, N2Nat.id.
  destruct (N.eq_dec n 0%N) as [-> | Hn]; [reflexivity|].
  assert (0 < n)%N as Hpos by lia.
  pose proof (N.log2_spec n Hpos) as [_ Hlt].
  eapply N.lt_le_trans; [exact Hlt|].
  apply N.pow_le_mono_l. lia.
Qed.

Lemma str_N_small (n : N) : (n < 10)%N -> str_N n = [digit_char n].
Proof.
  intros H. unfold str_N. cbn [digits_fuel].
  rewrite (N.div_small n 10 H), (N.mod_small n 10 H). reflexivity.
Qed.

Lemma str_N_step (n : N) :
  (10 <= n)%N -> str_N n = str_N (n / 10) ++ [digit_char (n mod 10)].
Proof.
  intros H. unfold str_N at 1. cbn [digits_fuel].
  assert (n / 10 <> 0)%N as Hq.
  { intros Hq. apply N.div_small_iff in Hq; lia. }
  apply N.eqb_neq in Hq. rewrite Hq.
  rewrite digits_fuel_acc. f_equal.
  pose proof (log2_fuel n) as Hn.
  pose proof (log2_fuel (n / 10)) as Hn10.
  destruct (N.to_nat (N.log2 n)) as [|k] eqn:Ek.
  { exfalso. change (10 ^ N.of_nat 1)%N with 10%N in Hn. lia. }
  unfold str_N. apply digits_fuel_enough; [|exact Hn10].
  apply N.Div0.div_lt_upper_bound.
  rewrite Nat2N.inj_succ, N.pow_succ_r' in Hn. exact Hn.
Qed.

(** Induction over the decimal digits of a number. *)
Lemma decimal_ind (P : N -> Prop) :
  (forall n, (n < 10)%N -> P n) ->
  (forall n, (10 <= n)%N -> P (n / 10)%N -> P n) ->
  forall n, P n.
Proof.
  intros Hsmall Hstep n.
  induction n as [n IH] using (well_founded_induction N.lt_wf_0).
  destruct (N.lt_ge_cases n 10) as [Hlt | Hge]; [auto|].
  apply Hstep; [exact Hge|]. apply IH. apply N.div_lt; lia.
Qed.

Lemma str_N_digits (n : N) : forallb is_digit (str_N n) = true.
Proof.
  induction n as [n H | n H IH] using decimal_ind.
  - rewrite str_N_small by exact H. cbn. rewrite digit_char_is_digit by exact H. reflexivity.
  - rewrite str_N_step by exact H. rewrite forallb_app, IH. cbn.
    rewrite digit_char_is_digit; [reflexivity|]. apply N.mod_lt. lia.
Qed.

Lemma str_N_nonempty (n : N) : str_N n <> [].
Proof.
  destruct (N.lt_ge_cases n 10) as [Hlt | Hge].
  - rewrite str_N_small by exact Hlt. discriminate.
  - rewrite str_N_step by exact Hge. intros E. apply app_eq_nil in E as [_ E]. discriminate.
Qed.

Lemma digits_value_snoc (s : text) : forall acc c,
  digits_value acc (s ++ [c]) = (10 * digits_value acc s + digit_val c)%Z.
Proof.
  induction s as [|x s IH]; intros acc c; cbn; [reflexivity|]. apply IH.
Qed.

Lemma digits_value_str_N (n : N) : digits_value 0 (str_N n) = Z.of_N n.
Proof.
  induction n as [n H | n H IH] using decimal_ind.
  - rewrite str_N_small by exact H. cbn. rewrite digit_val_char by exact H. lia.
  - rewrite str_N_step by exact H. rewrite digits_value_snoc, IH.
    rewrite digit_val_char by (apply N.mod_lt; lia).
    rewrite (N.div_mod n 10) at 3 by lia. lia.
Qed.

Lemma str_N_length_1 (n : N) : (n < 10)%N -> length (str_N n) = 1.
Proof. intros H. rewrite str_N_small by exact H. reflexivity. Qed.




End DecimalFacts.

(** ** Allocation of the next number *)

Section Allocation.
Local Open Scope Z_scope.

Lemma list_max_Z_ge (l : list Z) : forall x, x <= list_max_Z x l.
Proof.
  unfold list_max_Z. induction l as [|y l IH]; intros x; cbn; [lia|].
  specialize (IH (Z.max x y)). lia.
Qed.

Lemma list_max_Z_upper (l : list Z) : forall x, Forall (fun k => k <= list_max_Z x l) l.
Proof.
  induction l as [|y l IH]; intros x; constructor.
  - pose proof (list_max_Z_ge l (Z.max x y)). unfold list_max_Z in *. cbn. lia.
  - apply (IH (Z.max x y)).
Qed.

Lemma list_max_Z_in (l : list Z) : forall x, In (list_max_Z x l) (x :: l).
Proof.
  induction l as [|y l IH]; intros x; [left; reflexivity|].
  change (list_max_Z x (y :: l)) with (list_max_Z (Z.max x y) l).
  destruct (IH (Z.max x y)) as [H | H].
  - rewrite <- H. destruct (Z.max_spec x y) as [[_ E] | [_ E]]; rewrite E; cbn; auto.
  - right. right. exact H.
Qed.

Lemma append_next_spec (existing : list Z) : is_append_id existing (append_next existing).
Proof.
  destruct existing as [|x l]; [left; split; reflexivity|].
  right. cbn [append_next]. replace (list_max_Z x l + 1 - 1) with (list_max_Z x l) by lia.
  split; [apply list_max_Z_in|].
  constructor; [apply list_max_Z_ge | apply list_max_Z_upper].
Qed.

(** The sorted list of the inline scan. *)
Lemma insert_sorted_in (x : Z) (l : list Z) (k : Z) :
  In k (insert_sorted x l) <-> k = x \/ In k l.
Proof.
  induction l as [|y l IH]; cbn; [intuition congruence|].
  destruct (x <=? y); cbn; [intuition congruence|].
  rewrite IH. intuition congruence.
Qed.

Lemma sort_in (l : list Z) (k : Z) : In k (sort l) <-> In k l.
Proof.
  induction l as [|x l IH]; cbn; [tauto|].
  rewrite insert_sorted_in, IH. intuition congruence.
Qed.

Lemma insert_sorted_ascending (x : Z) (l : list Z) :
  ~ In x l -> ascending l -> ascending (insert_sorted x l).
Proof.
  induction l as [|y l IH]; intros Hx Hl; cbn; [split; [constructor | exact I]|].
  destruct Hl as [Hy Hl]. cbn in Hx.
  destruct (x <=? y) eqn:E.
  - apply Z.leb_le in E. assert (x < y) by lia. cbn. split; [|split; assumption].
    constructor; [assumption|]. eapply Forall_impl; [exact Hy|]. cbn. intros; lia.
  - apply Z.leb_gt in E. cbn. split.
    + apply Forall_forall. intros k Hk. apply list_elem_of_In in Hk.
      apply insert_sorted_in in Hk as [-> | Hk]; [lia|].
      rewrite Forall_forall in Hy. apply Hy. apply list_elem_of_In. exact Hk.
    + apply IH; tauto.
Qed.

Lemma sort_ascending (l : list Z) : List.NoDup l -> ascending (sort l).
Proof.
  induction 1 as [|x l Hx Hl IH]; cbn; [exact I|].
  apply insert_sorted_ascending; [|exact IH]. rewrite sort_in. exact Hx.
Qed.

Lemma gap_scan_spec (l : list Z) : forall next,
  ascending l -> Forall (fun k => next <= k) l ->
  next <= gap_scan next l /\ ~ In (gap_scan next l) l /\
  forall k, next <= k < gap_scan next l -> In k l.
Proof.
  induction l as [|x l IH]; intros next Hasc Hge; cbn.
  - split; [lia|]. split; [tauto|]. intros; lia.
  - destruct Hasc as [Hx Hasc]. inversion Hge as [|? ? Hnx Hge']; subst.
    destruct (x =? next) eqn:E.
    + apply Z.eqb_eq in E. subst x.
      destruct (IH (next + 1) Hasc) as (H1 & H2 & H3).
      { eapply Forall_impl; [exact Hx|]. cbn. intros; lia. }
      split; [lia|]. split.
      * intros [Heq | Hin]; [lia | tauto].
      * intros k Hk. destruct (Z.eq_dec k next) as [-> | Hne]; [auto|].
        right. apply H3. lia.
    + apply Z.eqb_neq in E. split; [lia|]. split; [|intros; lia].
      intros [Heq | Hin]; [lia|].
      rewrite Forall_forall in Hx. apply list_elem_of_In in Hin. specialize (Hx _ Hin).
      cbn in Hx. lia.
Qed.

Lemma gap_fill_next_spec (existing : list Z) :
  List.NoDup existing -> Forall (fun k => 1 <= k) existing ->
  smallest_free existing (gap_fill_next existing).
Proof.
  intros Hnd Hpos.
  assert (gap_fill_next existing = gap_scan 1 (sort existing)) as ->
    by (destruct existing; reflexivity).
  destruct (gap_scan_spec (sort existing) 1) as (H1 & H2 & H3).
  - apply sort_ascending. exact Hnd.
  - apply Forall_forall. intros k Hk. apply list_elem_of_In in Hk. apply (proj1 (sort_in _ _)) in Hk.
    rewrite Forall_forall in Hpos. apply Hpos. apply list_elem_of_In. exact Hk.
  - split; [exact H1|]. split.
    + rewrite <- sort_in. exact H2.
    + intros k Hk. rewrite <- sort_in. apply H3. exact Hk.
Qed.




End Allocation.

(** ** Reading back what was printed *)

Module ReadBack.
Import Py DecimalFacts.

Lemma digit_not_space (c : ascii) : is_digit c = true -> isspace c = false.
Proof.
  unfold is_digit, isspace. intros H.
  apply andb_true_iff in H as [H1 H2]. apply Nat.leb_le in H1.
  destruct (Nat.leb_spec 28 (nat_of_ascii c)), (Nat.leb_spec (nat_of_ascii c) 32),
    (Nat.leb_spec 9 (nat_of_ascii c)), (Nat.leb_spec (nat_of_ascii c) 13);
    cbn; try reflexivity; lia.
Qed.

Lemma strip_id (s : text) : forallb (fun c => negb (isspace c)) s = true -> strip s = s.
Proof.
  intros H. unfold strip, lstrip, rstrip.
  assert (drop_while isspace s = s) as ->.
  { destruct s as [|c s]; [reflexivity|]. cbn in *.
    apply andb_true_iff in H as [H _]. apply negb_true_iff in H. rewrite H. reflexivity. }
  assert (forallb (fun c => negb (isspace c)) (rev s) = true) as Hr.
  { apply forallb_forall. intros c Hc. apply in_rev in Hc.
    rewrite forallb_forall in H. apply H. exact Hc. }
  destruct (rev s) as [|c r] eqn:E.
  - cbn. apply (f_equal (@rev ascii)) in E. rewrite rev_involutive in E. cbn in E. congruence.
  - cbn in *. apply andb_true_iff in Hr as [Hc _]. apply negb_true_iff in Hc. rewrite Hc.
    rewrite <- E. apply rev_involutive.
Qed.

Lemma digits_no_space (s : text) :
  forallb is_digit s = true -> forallb (fun c => negb (isspace c)) s = true.
Proof.
  intros H. apply forallb_forall. intros c Hc. rewrite forallb_forall in H.
  rewrite (digit_not_space c (H c Hc)). reflexivity.
Qed.

Lemma digitpart_rest_digits (s : text) : forall acc,
  forallb is_digit s = true -> digitpart_rest acc false s = Some (digits_value acc s).
Proof.
  induction s as [|c s IH]; intros acc H; cbn in *; [reflexivity|].
  apply andb_true_iff in H as [Hc Hs]. rewrite Hc. apply IH. exact Hs.
Qed.

Lemma digitpart_digits (s : text) :
  s <> [] -> forallb is_digit s = true -> digitpart s = Some (digits_value 0 s).
Proof.
  intros Hne H. destruct s as [|c s]; [congruence|]. cbn in *.
  apply andb_true_iff in H as [Hc Hs]. rewrite Hc.
  rewrite digitpart_rest_digits by exact Hs. reflexivity.
Qed.

Lemma split_sign_digit (s : text) : forallb is_digit s = true -> split_sign s = (false, s).
Proof.
  destruct s as [|c s]; [reflexivity|]. cbn [forallb]. intros H.
  apply andb_true_iff in H as [Hc _].
  destruct c as [[] [] [] [] [] [] [] []]; try reflexivity; discriminate.
Qed.

(** [int] reads a non-empty string of digits as its decimal value. *)
Lemma int_digits (s : text) :
  s <> [] -> forallb is_digit s = true -> int s = Some (digits_value 0 s).
Proof.
  intros Hne H. unfold int. rewrite strip_id by (apply digits_no_space; exact H).
  rewrite split_sign_digit by exact H. rewrite digitpart_digits by assumption. reflexivity.
Qed.



Lemma digits_value_zeros (k : nat) (s : text) :
  digits_value 0 (repeat "0"%char k ++ s) = digits_value 0 s.
Proof. induction k as [|k IH]; cbn; [reflexivity | exact IH]. Qed.

Lemma format_02d_nonneg (z : Z) :
  (0 <= z)%Z -> format_02d z = repeat "0"%char (2 - length (str_N (Z.to_N z))) ++ str_N (Z.to_N z).
Proof. intros H. unfold format_02d. apply Z.ltb_ge in H. rewrite H. reflexivity. Qed.

Lemma format_02d_digits (z : Z) : (0 <= z)%Z -> forallb is_digit (format_02d z) = true.
Proof.
  intros H. rewrite format_02d_nonneg by exact H. rewrite forallb_app, str_N_digits.
  rewrite andb_true_r. apply forallb_forall. intros c Hc. apply repeat_spec in Hc. subst. reflexivity.
Qed.

Lemma format_02d_value (z : Z) : (0 <= z)%Z -> digits_value 0 (format_02d z) = z.
Proof.
  intros H. rewrite format_02d_nonneg by exact H.
  rewrite digits_value_zeros, digits_value_str_N. lia.
Qed.



Lemma format_02d_nonempty (z : Z) : format_02d z <> [].
Proof.
  unfold format_02d. destruct (z <? 0)%Z; [discriminate|].
  intros E. apply app_eq_nil in E as [_ E]. exact (str_N_nonempty _ E).
Qed.

End ReadBack.

(** ** Claims on allocation *)


Example gap_fill_1_2_4 :
  get_next_available_number [lit "g01"; lit "g02"; lit "g04"] = lit "03" /\
  gap_fill_next [1; 2; 4]%Z = 3%Z.
Proof. split; vm_compute; reflexivity. Qed.

Example gap_fill_empty :
  get_next_available_number [] = lit "01" /\ gap_fill_next [] = 1%Z.
Proof. split; vm_compute; reflexivity. Qed.

Example gap_fill_1_2_3 :
  get_next_available_number [lit "g01"; lit "g02"; lit "g03"] = lit "04" /\
  gap_fill_next [1; 2; 3]%Z = 4%Z.
Proof. split; vm_compute; reflexivity. Qed.




(** C5: append allocation, in [copy_unsteady_from_template] on the numbers
    of the unsteady lines and in [copy_plan_from_template] on the numbers
    found in the project content, gives 1 when there is none and one more
    than the greatest otherwise; on the numbers 1 and 3 it gives 4. *)
Theorem append_allocation (lines : list text) (project_content : text) (existing : list Z) :
  is_append_id (existing_numbers unsteady_key lines)
               (append_next (existing_numbers unsteady_key lines)) /\
  is_append_id (plan_numbers project_content) (append_next (plan_numbers project_content)) /\
  is_append_id existing (append_next existing) /\
  append_next [1; 3]%Z = 4%Z /\
  append_next [] = 1%Z.
Proof.
  repeat split; try apply append_next_spec; reflexivity.
Qed.

Example append_on_project_lines :
  let lines := [lit "Unsteady File=u01" ++ [newline]; lit "Geom File=g07" ++ [newline];
                lit "Unsteady File=u03" ++ [newline]] in
  existing_numbers unsteady_key lines = [1; 3]%Z /\
  append_next (existing_numbers unsteady_key lines) = 4%Z /\
  plan_numbers (lit "Plan File=p01" ++ [newline] ++ lit "Plan File=p03" ++ [newline]) = [1; 3]%Z.
Proof. vm_compute. repeat split. Qed.

(** ** Scaling without a flow hydrograph *)

(** C10: when the dictionary has no ['Flow Hydrograph='] key,
    [scale_flow_hydrograph] returns the dictionary as it is, with [None]
    for the original values, and does not raise. *)
Theorem scale_without_flow_hydrograph (tables : gmap text (list cell)) (scale_factor : Q) :
  tables !! lit "Flow Hydrograph=" = None ->
  scale_flow_hydrograph tables scale_factor = Ok (tables, None).
Proof. intros H. unfold scale_flow_hydrograph. rewrite H. reflexivity. Qed.

Lemma scale_without_flow_hydrograph_witness :
  let tables : gmap text (list cell) :=
    <[lit "Stage Hydrograph=" := [CFloat (Finite (3 # 2)); CFloat (Finite 2)]]> ∅ in
  tables !! lit "Flow Hydrograph=" = None /\
  scale_flow_hydrograph tables (3 # 2) = Ok (tables, None).
Proof.
  cbv zeta. split; [vm_refl|].
  apply scale_without_flow_hydrograph. vm_refl.
Defined.

(** ** Validation before writing *)

Ltac io_unfold :=
  unfold io_bind, io_ret, raise, lift, Os.read_text, Os.write_text, Os.isfile in *.

Section Validation.
Implicit Types (fs : fsys) (plan_file project_file : text).

Lemma get_geom_entries_reads fs project_file t :
  fs !! project_file = Some t ->
  get_geom_entries project_file fs = (Ok (entries_of (lit "Geom File=") (Os.readlines t)), fs).
Proof. intros H. unfold get_geom_entries. io_unfold. rewrite H. reflexivity. Qed.


(** A project without any geometry line: the frame has no column and the
    selection raises [KeyError], also before any write. *)
Lemma apply_geometry_no_registry fs plan_file project_file t geometry_number :
  fs !! project_file = Some t ->
  entries_of (lit "Geom File=") (Os.readlines t) = [] ->
  apply_geometry_to_plan plan_file geometry_number project_file fs = (Raise KeyError, fs).
Proof.
  intros Ht He. unfold apply_geometry_to_plan.
  unfold io_bind at 1. rewrite (get_geom_entries_reads _ _ _ Ht), He. reflexivity.
Qed.

(** Whatever makes [apply_geometry_to_plan] raise, nothing was written. *)
Lemma apply_geometry_failure_keeps_store fs fs' plan_file project_file geometry_number e :
  apply_geometry_to_plan plan_file geometry_number project_file fs = (Raise e, fs') ->
  fs' = fs.
Proof.
  unfold apply_geometry_to_plan, get_geom_entries. io_unfold.
  destruct (fs !! project_file) as [t|]; [|intros [= _ <-]; reflexivity].
  destruct (column _) as [col|e']; [|intros [= _ <-]; reflexivity].
  destruct (negb _); [intros [= _ <-]; reflexivity|].
  destruct (fs !! plan_file); [discriminate | intros [= _ <-]; reflexivity].
Qed.

(** A flag outside [{0, -1}]: [ValueError], and the store is as before. *)
Lemma update_geompre_flags_invalid fs file_path run_htab_value use_ib_tables_value :
  flag_ok run_htab_value = false \/ flag_ok use_ib_tables_value = false ->
  update_geompre_flags file_path run_htab_value use_ib_tables_value fs = (Raise ValueError, fs).
Proof.
  intros H. unfold update_geompre_flags.
  destruct (flag_ok run_htab_value); [|reflexivity].
  destruct H as [H | H]; [discriminate|]. rewrite H. reflexivity.
Qed.

Lemma flag_ok_iff (v : Z) : flag_ok v = true <-> v = 0%Z \/ v = (-1)%Z.
Proof. unfold flag_ok. rewrite orb_true_iff, !Z.eqb_eq. tauto. Qed.

End Validation.

(** ** The registry of geometry entries *)

Section Registry.
Import Py.

Lemma split_no_sep (c : ascii) (s : text) :
  forallb (fun x => negb (Ascii.eqb x c)) s = true -> split c s = [s].
Proof.
  induction s as [|x s IH]; cbn; [reflexivity|]. intros H.
  apply andb_true_iff in H as [Hx Hs]. apply negb_true_iff in Hx. rewrite Hx.
  rewrite (IH Hs). reflexivity.
Qed.

Lemma split_app_sep (c : ascii) (a b : text) :
  forallb (fun x => negb (Ascii.eqb x c)) a = true ->
  split c (a ++ c :: b) = a :: split c b.
Proof.
  induction a as [|x a IH]; cbn; intros H.
  - rewrite Ascii.eqb_refl. reflexivity.
  - apply andb_true_iff in H as [Hx Ha]. apply negb_true_iff in Hx. rewrite Hx.
    rewrite (IH Ha). reflexivity.
Qed.

Lemma split_nonempty (c : ascii) (s : text) : split c s <> [].
Proof.
  destruct s as [|x s]; cbn; [discriminate|].
  destruct (Ascii.eqb x c); [discriminate|]. destruct (split c s); discriminate.
Qed.

Lemma drop_while_all {A} (p : A -> bool) (a b : list A) :
  forallb p a = true -> drop_while p (a ++ b) = drop_while p b.
Proof.
  induction a as [|x a IH]; cbn; [reflexivity|]. intros H.
  apply andb_true_iff in H as [Hx Ha]. rewrite Hx. apply IH. exact Ha.
Qed.

Lemma drop_while_stop {A} (p : A -> bool) (x : A) (l : list A) :
  p x = false -> drop_while p (x :: l) = x :: l.
Proof. intros H. cbn. rewrite H. reflexivity. Qed.

Lemma forallb_rev {A} (p : A -> bool) (l : list A) : forallb p (rev l) = forallb p l.
Proof.
  induction l as [|x l IH]; cbn; [reflexivity|].
  rewrite forallb_app, IH. cbn. rewrite andb_true_r. apply andb_comm.
Qed.

(** Stripping keeps a body that neither starts nor ends with white space
    and removes white space after it. *)
Lemma strip_body (c : ascii) (body : text) (d : ascii) (ws : text) :
  isspace c = false -> isspace d = false -> forallb isspace ws = true ->
  strip (c :: body ++ d :: ws) = c :: body ++ [d].
Proof.
  intros Hc Hd Hws. unfold strip, lstrip, rstrip.
  rewrite (drop_while_stop _ _ _ Hc).
  replace (c :: body ++ d :: ws) with ((c :: body ++ [d]) ++ ws)
    by (cbn; rewrite <- app_assoc; reflexivity).
  rewrite rev_app_distr.
  rewrite drop_while_all by (rewrite forallb_rev; exact Hws).
  replace (rev (c :: body ++ [d])) with (d :: rev (c :: body)).
  - rewrite (drop_while_stop _ _ _ Hd).
    change (d :: rev (c :: body)) with ([d] ++ rev (c :: body)).
    rewrite <- (rev_involutive [d]) at 1. rewrite <- rev_app_distr, rev_involutive.
    cbn. reflexivity.
  - change (c :: body ++ [d]) with ((c :: body) ++ [d]). rewrite rev_app_distr. reflexivity.
Qed.

Lemma letter_not_space (c : ascii) : is_letter c = true -> isspace c = false.
Proof. destruct c as [[] [] [] [] [] [] [] []]; vm_compute; congruence. Qed.

Lemma letter_not_eq (c : ascii) : is_letter c = true -> Ascii.eqb c "=" = false.
Proof. destruct c as [[] [] [] [] [] [] [] []]; vm_compute; congruence. Qed.

Lemma letter_not_digit (c : ascii) : is_letter c = true -> is_digit c = false.
Proof. destruct c as [[] [] [] [] [] [] [] []]; vm_compute; congruence. Qed.

Lemma digit_not_eq (c : ascii) : is_digit c = true -> Ascii.eqb c "=" = false.
Proof. destruct c as [[] [] [] [] [] [] [] []]; vm_compute; congruence. Qed.

Lemma space_not_eq (c : ascii) : isspace c = true -> Ascii.eqb c "=" = false.
Proof. destruct c as [[] [] [] [] [] [] [] []]; vm_compute; congruence. Qed.

Lemma exists_last_digit (ds : text) :
  ds <> [] -> exists body d, ds = body ++ [d].
Proof.
  intros H. destruct (exists_last H) as (body & d & E). exists body, d. exact E.
Qed.



(** A text that starts with a letter is not in a list of bare numbers. *)
Lemma text_in_bare (c : ascii) (s : text) (entries : list text) :
  is_digit c = false -> Forall bare_number entries -> text_in (c :: s) entries = false.
Proof.
  intros Hc. unfold text_in. induction 1 as [|e es He _ IH]; cbn [existsb]; [reflexivity|].
  rewrite IH, orb_false_r. apply bool_decide_eq_false. intros <-.
  destruct He as [_ He]. cbn in He. rewrite Hc in He. discriminate.
Qed.

Lemma text_in_true (x : text) (entries : list text) :
  text_in x entries = true -> In x entries.
Proof.
  unfold text_in. rewrite existsb_exists. intros (y & Hy & E).
  apply bool_decide_eq_true in E. subst. exact Hy.
Qed.

End Registry.

(** ** Running the copy operations *)

Section IoFacts.

Lemma io_bind_ok {A B} (c : io A) (k : A -> io B) (fs fs' : fsys) (b : B) :
  io_bind c k fs = (Ok b, fs') ->
  exists a fs1, c fs = (Ok a, fs1) /\ k a fs1 = (Ok b, fs').
Proof.
  unfold io_bind. destruct (c fs) as [[a|e] fs1]; [|discriminate].
  intros H. exists a, fs1. split; [reflexivity | exact H].
Qed.

Lemma isfile_inv (p : text) (fs fs1 : fsys) (b : bool) :
  Os.isfile p fs = (Ok b, fs1) -> fs1 = fs.
Proof. unfold Os.isfile. intros [= _ <-]. reflexivity. Qed.

Lemma read_text_inv (p : text) (fs fs1 : fsys) (t : text) :
  Os.read_text p fs = (Ok t, fs1) -> fs1 = fs /\ fs !! p = Some t.
Proof.
  unfold Os.read_text. destruct (fs !! p) as [t'|]; [|discriminate].
  intros [= <- <-]. split; reflexivity.
Qed.

Lemma io_ret_inv {A} (a b : A) (fs fs1 : fsys) :
  io_ret a fs = (Ok b, fs1) -> b = a /\ fs1 = fs.
Proof. unfold io_ret. intros [= <- <-]. split; reflexivity. Qed.

End IoFacts.

Section CopyGeometry.
Variable path_stem : text -> text.
Variable path_join : text -> text -> text.


End CopyGeometry.

(** ** Claims on validation *)

(** C7 at the input where the code departs from it: a project file with
    no geometry line.  The registry frame then has no [geom_number]
    column, and [apply_geometry_to_plan] raises [KeyError] where its
    docstring and the claim have the unknown-id [ValueError]; the plan
    file is not written. *)
Lemma apply_geometry_on_empty_registry :
  let project_file := lit "Demo.prj" in
  let plan_file := lit "Demo.p01" in
  let fs : fsys :=
    <[project_file := lit "Proj Title=Demo" ++ [newline] ++ lit "Plan File=p01" ++ [newline]]>
      (<[plan_file := lit "Geom File=g01" ++ [newline]]> ∅) in
  apply_geometry_to_plan plan_file (lit "01") project_file fs = (Raise KeyError, fs).
Proof. cbv zeta. vm_refl. Qed.

(** The part of C7 that the code keeps: an unknown identifier in a
    registry with entries, and a flag outside [{0, -1}], raise
    [ValueError] with the store untouched. *)
Example validation_before_write :
  let project_file := lit "Demo.prj" in
  let plan_file := lit "Demo.p01" in
  let fs : fsys :=
    <[project_file := lit "Geom File=g01" ++ [newline]]>
      (<[plan_file := lit "Geom File=g01" ++ [newline] ++ lit "Run HTab= 0 " ++ [newline]]> ∅) in
  apply_geometry_to_plan plan_file (lit "07") project_file fs = (Raise ValueError, fs) /\
  update_geompre_flags plan_file 1 0 fs = (Raise ValueError, fs).
Proof. cbv zeta. split; vm_refl. Qed.

Section ReturnedIdentifier.
Variable path_stem : text -> text.
Variable path_join : text -> text -> text.


End ReturnedIdentifier.



(** ** Insertion of the geometry line *)

(** C3 at an input where the code departs from it: a project with the
    four header lines and the geometries 01 and 02.  The new number is 3,
    no geometry line has a number of 3 or more, and the code falls to the
    header branch: the new line goes two lines below the last header line,
    between [g01] and [g02], where the claim has it after the last
    geometry line.  The sibling [copy_unsteady_from_template] does append
    after the last line of its kind. *)
Lemma geometry_copy_breaks_order :
  let L := fun s => lit s ++ [newline] in
  let lines := [L "Proj Title=Muncie"; L "Current Plan=p01"; L "Default Exp/Contr=0.3,0.1";
                L "English Units"; L "Geom File=g01"; L "Geom File=g02";
                L "Unsteady File=u01"; L "Unsteady File=u02"; L "Plan File=p01"] in
  let fs0 : fsys :=
    <[lit "Muncie.prj" := concat lines]>
      (<[lit "proj/Muncie.g01" := lit "geometry"]>
         (<[lit "proj/Muncie.g01.hdf" := lit "tables"]> ∅)) in
  let lines' := [L "Proj Title=Muncie"; L "Current Plan=p01"; L "Default Exp/Contr=0.3,0.1";
                 L "English Units"; L "Geom File=g01"; L "Geom File=g03"; L "Geom File=g02";
                 L "Unsteady File=u01"; L "Unsteady File=u02"; L "Plan File=p01"] in
  let fs : fsys :=
    <[lit "Muncie.prj" := concat lines']>
      (<[lit "proj/Muncie.g03.hdf" := lit "tables"]>
         (<[lit "proj/Muncie.g03" := lit "geometry"]> fs0)) in
  copy_geometry_from_template demo_stem demo_join (lit "proj") (lit "Muncie.prj") (lit "g01") fs0
    = (Ok (lit "g03"), fs) /\
  existing_numbers geom_key lines' = [1; 3; 2]%Z /\
  ~ ascending (existing_numbers geom_key lines') /\
  ref_insert unsteady_key lines 3
    = [L "Proj Title=Muncie"; L "Current Plan=p01"; L "Default Exp/Contr=0.3,0.1";
       L "English Units"; L "Geom File=g01"; L "Geom File=g02";
       L "Unsteady File=u01"; L "Unsteady File=u02"; L "Unsteady File=u03"; L "Plan File=p01"].
Proof.
  intros L lines fs0 lines' fs.
  split; [vm_refl|].
  assert (existing_numbers geom_key lines' = [1; 3; 2]%Z) as E by (vm_compute; reflexivity).
  split; [exact E|].
  split; [|vm_compute; reflexivity].
  rewrite E. cbn. intros [_ [H _]]. inversion H; lia.
Qed.

(** With no geometry line at all the new line does not follow the last
    header line either: it goes one line further down. *)
Example geometry_header_fallback :
  let L := fun s => lit s ++ [newline] in
  geom_insert [L "Proj Title=Muncie"; L "English Units"; L "Unsteady File=u01"; L "Plan File=p01"] 1
  = [L "Proj Title=Muncie"; L "English Units"; L "Unsteady File=u01"; L "Geom File=g01";
     L "Plan File=p01"] /\
  geom_insert [L "Unsteady File=u01"; L "Plan File=p01"] 1
  = [L "Geom File=g01"; L "Unsteady File=u01"; L "Plan File=p01"] /\
  geom_insert [L "Proj Title=Muncie"; L "Geom File=g01"; L "Geom File=g03"] 2
  = [L "Proj Title=Muncie"; L "Geom File=g01"; L "Geom File=g02"; L "Geom File=g03"].
Proof. cbv zeta. repeat split; vm_compute; reflexivity. Qed.

(** ** Locating and decoding tables *)

Section Tables.
Local Open Scope Z_scope.








(** The slice read by the decoder: the lines from [start] up to, and not
    including, [end_]. *)
Lemma slice_z_nonneg {A} (l : list A) (a b : Z) :
  0 <= a -> 0 <= b ->
  Py.slice_z l a b = skipn (Z.to_nat a) (firstn (Z.to_nat b) l).
Proof.
  intros Ha Hb. unfold Py.slice_z, Py.slice, Py.norm_index.
  assert ((a <? 0) = false) as -> by (apply Z.ltb_ge; lia).
  assert ((b <? 0) = false) as -> by (apply Z.ltb_ge; lia).
  rewrite skipn_firstn_comm.
  destruct (Nat.le_gt_cases (length l) (Z.to_nat a)) as [Hla | Hla].
  - rewrite (skipn_all2 l) by lia. rewrite (skipn_all2 l) by lia.
    rewrite !firstn_nil. reflexivity.
  - rewrite (Nat.min_l (Z.to_nat a)) by lia.
    destruct (Nat.le_gt_cases (length l) (Z.to_nat b)) as [Hlb | Hlb].
    + rewrite (Nat.min_r (Z.to_nat b)) by lia.
      rewrite !firstn_all2; [reflexivity | |]; rewrite length_skipn; lia.
    + rewrite (Nat.min_l (Z.to_nat b)) by lia. reflexivity.
Qed.

Lemma parse_reads_below_end (lines : list text) (start end_ : Z) :
  0 <= start -> 0 <= end_ ->
  parse_fixed_width_table lines start end_
  = map CFloat (flat_map parse_line (skipn (Z.to_nat start) (firstn (Z.to_nat end_) lines))).
Proof.
  intros Hs He. unfold parse_fixed_width_table. rewrite slice_z_nonneg by assumption. reflexivity.
Qed.

End Tables.

(** ** Claims on table extents *)

Section TableClaims.
Local Open Scope Z_scope.





End TableClaims.


(** ** The scanning functions of the regular expressions *)

Module ReFacts.
Import Py Re.

Lemma strip_prefix_app (p x : text) : strip_prefix p (p ++ x) = Some x.
Proof.
  induction p as [|a p IH]; cbn; [reflexivity|]. rewrite Ascii.eqb_refl. exact IH.
Qed.

Lemma strip_prefix_inv (p : text) : forall s x, strip_prefix p s = Some x -> s = p ++ x.
Proof.
  induction p as [|a p IH]; intros s x H; cbn in H.
  - injection H as <-. reflexivity.
  - destruct s as [|b s]; [discriminate|].
    destruct (Ascii.eqb a b) eqn:E; [|discriminate].
    apply Ascii.eqb_eq in E. subst b. cbn. f_equal. apply IH. exact H.
Qed.

Lemma take_drop_while {A} (p : A -> bool) (l : list A) :
  take_while p l ++ drop_while p l = l.
Proof.
  induction l as [|x l IH]; cbn; [reflexivity|].
  destruct (p x); cbn; [f_equal; exact IH | reflexivity].
Qed.

Lemma take_while_all {A} (p : A -> bool) (l : list A) : forallb p (take_while p l) = true.
Proof.
  induction l as [|x l IH]; cbn; [reflexivity|].
  destruct (p x) eqn:E; cbn; [rewrite E; exact IH | reflexivity].
Qed.

Lemma drop_while_head (s : text) : starts_digit (drop_while is_digit s) = false.
Proof.
  induction s as [|c s IH]; cbn; [reflexivity|].
  destruct (is_digit c) eqn:E; [exact IH | cbn; exact E].
Qed.

Lemma digits1_inv (s ds rest : text) :
  digits1 s = Some (ds, rest) ->
  s = ds ++ rest /\ ds <> [] /\ forallb is_digit ds = true /\ starts_digit rest = false.
Proof.
  unfold digits1. intros H.
  pose proof (take_drop_while is_digit s) as Happ.
  pose proof (take_while_all is_digit s) as Hall.
  destruct (take_while is_digit s) as [|d ds'] eqn:E; [discriminate|].
  injection H as <- <-. split; [symmetry; exact Happ|]. split; [discriminate|].
  split; [exact Hall | apply drop_while_head].
Qed.

Lemma digits1_none (s : text) : digits1 s = None <-> starts_digit s = false.
Proof.
  unfold digits1. destruct s as [|c s]; cbn; [tauto|].
  destruct (is_digit c); split; intros; congruence.
Qed.

Lemma digits1_app (ds rest : text) :
  ds <> [] -> forallb is_digit ds = true -> starts_digit rest = false ->
  digits1 (ds ++ rest) = Some (ds, rest).
Proof.
  intros Hne Hds Hrest. unfold digits1.
  assert (take_while is_digit (ds ++ rest) = ds /\ drop_while is_digit (ds ++ rest) = rest)
    as [-> ->].
  { clear Hne. induction ds as [|d ds IH]; cbn in *.
    - destruct rest as [|c rest]; cbn in *; [split; reflexivity|]. rewrite Hrest. split; reflexivity.
    - apply andb_true_iff in Hds as [Hd Hds]. rewrite Hd.
      destruct (IH Hds) as [-> ->]. split; reflexivity. }
  destruct ds; [congruence | reflexivity].
Qed.

Lemma match_at_inv (key s ds rest : text) :
  match_at key s = Some (ds, rest) ->
  s = key ++ ds ++ rest /\ ds <> [] /\ forallb is_digit ds = true /\ starts_digit rest = false.
Proof.
  unfold match_at. destruct (strip_prefix key s) as [x|] eqn:E; [|discriminate].
  intros H. apply strip_prefix_inv in E. apply digits1_inv in H as (-> & H).
  split; [exact E | exact H].
Qed.

Lemma match_at_shorter (key s ds rest : text) :
  match_at key s = Some (ds, rest) -> length rest < length s.
Proof.
  intros H. apply match_at_inv in H as (-> & Hne & _).
  rewrite !length_app. destruct ds; [congruence | cbn; lia].
Qed.

(** The scans do not depend on the fuel once it exceeds the length. *)
Lemma findall_fuel_enough (key : text) (f1 : nat) : forall f2 s,
  length s < f1 -> length s < f2 -> findall_fuel f1 key s = findall_fuel f2 key s.
Proof.
  induction f1 as [|f1 IH]; intros f2 s H1 H2; [lia|].
  destruct f2 as [|f2]; [lia|]. cbn [findall_fuel].
  destruct (match_at key s) as [[ds rest]|] eqn:E.
  - apply match_at_shorter in E. f_equal. apply IH; lia.
  - destruct s as [|c t]; [reflexivity|]. cbn [length] in *. apply IH; lia.
Qed.

Lemma sub_fuel_enough (key repl : text) (f1 : nat) : forall f2 s,
  length s < f1 -> length s < f2 -> sub_fuel f1 key repl s = sub_fuel f2 key repl s.
Proof.
  induction f1 as [|f1 IH]; intros f2 s H1 H2; [lia|].
  destruct f2 as [|f2]; [lia|]. cbn [sub_fuel].
  destruct (match_at key s) as [[ds rest]|] eqn:E.
  - apply match_at_shorter in E. do 2 f_equal. apply IH; lia.
  - destruct s as [|c t]; [reflexivity|]. cbn [length] in *. f_equal. apply IH; lia.
Qed.

Lemma search_fuel_enough (key : text) (f1 : nat) : forall f2 s,
  length s < f1 -> length s < f2 -> search_fuel f1 key s = search_fuel f2 key s.
Proof.
  induction f1 as [|f1 IH]; intros f2 s H1 H2; [lia|].
  destruct f2 as [|f2]; [lia|]. cbn [search_fuel].
  destruct (match_at key s) as [[ds rest]|] eqn:E; [reflexivity|].
  destruct s as [|c t]; [reflexivity|]. cbn [length] in *. apply IH; lia.
Qed.

(** The equations of the scans. *)
Lemma findall_nil (key : text) : findall key [] = [].
Proof. unfold findall. cbn. destruct (match_at key []) as [[ds rest]|] eqn:E; [|reflexivity].
  apply match_at_shorter in E. cbn in E. lia. Qed.

Lemma findall_match (key s ds rest : text) :
  match_at key s = Some (ds, rest) -> findall key s = ds :: findall key rest.
Proof.
  intros E. unfold findall at 1. cbn [findall_fuel]. rewrite E. f_equal.
  pose proof (match_at_shorter _ _ _ _ E). apply findall_fuel_enough; lia.
Qed.

Lemma findall_skip1 (key : text) (c : ascii) (t : text) :
  match_at key (c :: t) = None -> findall key (c :: t) = findall key t.
Proof.
  intros E. unfold findall at 1. cbn [findall_fuel]. rewrite E.
  apply findall_fuel_enough; cbn; lia.
Qed.

Lemma sub_nil (key repl : text) : sub key repl [] = [].
Proof. unfold sub. cbn. destruct (match_at key []) as [[ds rest]|] eqn:E; [|reflexivity].
  apply match_at_shorter in E. cbn in E. lia. Qed.

Lemma sub_match (key repl s ds rest : text) :
  match_at key s = Some (ds, rest) -> sub key repl s = key ++ repl ++ sub key repl rest.
Proof.
  intros E. unfold sub at 1. cbn [sub_fuel]. rewrite E. do 2 f_equal.
  pose proof (match_at_shorter _ _ _ _ E). apply sub_fuel_enough; lia.
Qed.

Lemma sub_skip1 (key repl : text) (c : ascii) (t : text) :
  match_at key (c :: t) = None -> sub key repl (c :: t) = c :: sub key repl t.
Proof.
  intros E. unfold sub at 1. cbn [sub_fuel]. rewrite E. reflexivity.
Qed.

(** [search] finds the first of the matches of [findall]. *)
Lemma search_findall (key : text) (s : text) :
  search key s = match findall key s with
                 | [] => None
                 | ds :: _ => Some (key ++ ds)
                 end.
Proof.
  unfold search, findall. generalize (S (length s)) as f. intros f. revert s.
  induction f as [|f IH]; intros s; cbn; [reflexivity|].
  destruct (match_at key s) as [[ds rest]|]; [reflexivity|].
  destruct s as [|c t]; [reflexivity | apply IH].
Qed.

End ReFacts.

(** ** Substitution and reading of the core-count keys *)

Module CoreFacts.
Import Py Re ReFacts.

Lemma digits_free (c : ascii) (ds : text) :
  is_digit c = false -> forallb is_digit ds = true -> free_of c ds = true.
Proof.
  intros Hc Hds. unfold free_of. apply forallb_forall. intros x Hx.
  rewrite forallb_forall in Hds. specialize (Hds x Hx).
  apply negb_true_iff. apply Ascii.eqb_neq. intros ->. congruence.
Qed.

Lemma free_of_app (c : ascii) (a b : text) :
  free_of c (a ++ b) = free_of c a && free_of c b.
Proof. unfold free_of. apply forallb_app. Qed.

Section OneKey.
Variable k0 : ascii.
Variable K' : text.
Hypothesis k0_not_digit : is_digit k0 = false.
Hypothesis K'_free : free_of k0 K' = true.

Lemma match_at_other_head (c : ascii) (s : text) :
  Ascii.eqb c k0 = false -> match_at (k0 :: K') (c :: s) = None.
Proof.
  intros H. unfold match_at. cbn [strip_prefix].
  rewrite Ascii.eqb_sym, H. reflexivity.
Qed.

Lemma match_at_head (s ds rest : text) :
  match_at (k0 :: K') s = Some (ds, rest) -> starts_digit s = false.
Proof.
  intros H. apply match_at_inv in H as (-> & _). cbn. exact k0_not_digit.
Qed.

Lemma starts_digit_sub (r s : text) :
  starts_digit (sub (k0 :: K') r s) = starts_digit s.
Proof.
  destruct s as [|c t]; [rewrite sub_nil; reflexivity|].
  destruct (match_at (k0 :: K') (c :: t)) as [[ds rest]|] eqn:E.
  - rewrite (sub_match _ _ _ _ _ E). rewrite (match_at_head _ _ _ E). cbn. exact k0_not_digit.
  - rewrite (sub_skip1 _ _ _ _ E). reflexivity.
Qed.

Lemma sub_skip_free (r u x : text) :
  free_of k0 u = true -> sub (k0 :: K') r (u ++ x) = u ++ sub (k0 :: K') r x.
Proof.
  induction u as [|a u IH]; intros H; [reflexivity|].
  cbn in H. apply andb_true_iff in H as [Ha Hu]. apply negb_true_iff in Ha.
  cbn [app]. rewrite sub_skip1 by (apply match_at_other_head; exact Ha).
  rewrite IH by exact Hu. reflexivity.
Qed.

Lemma findall_skip_free (u x : text) :
  free_of k0 u = true -> findall (k0 :: K') (u ++ x) = findall (k0 :: K') x.
Proof.
  induction u as [|a u IH]; intros H; [reflexivity|].
  cbn in H. apply andb_true_iff in H as [Ha Hu]. apply negb_true_iff in Ha.
  cbn [app]. rewrite findall_skip1 by (apply match_at_other_head; exact Ha).
  apply IH. exact Hu.
Qed.

Lemma strip_prefix_sub_none (r u : text) :
  free_of k0 u = true -> forall t,
  strip_prefix u t = None -> strip_prefix u (sub (k0 :: K') r t) = None.
Proof.
  induction u as [|a u IH]; intros H t Ht; [discriminate|].
  cbn in H. apply andb_true_iff in H as [Ha Hu]. apply negb_true_iff in Ha.
  destruct t as [|c t]; [rewrite sub_nil; reflexivity|].
  destruct (match_at (k0 :: K') (c :: t)) as [[ds rest]|] eqn:E.
  - rewrite (sub_match _ _ _ _ _ E). cbn [app strip_prefix]. rewrite Ha. reflexivity.
  - rewrite (sub_skip1 _ _ _ _ E). cbn [strip_prefix] in *.
    destruct (Ascii.eqb a c); [|reflexivity]. apply IH; assumption.
Qed.

(** Where the pattern does not match, it does not match after the
    substitution either. *)
Lemma no_new_match (r : text) (c : ascii) (t : text) :
  match_at (k0 :: K') (c :: t) = None ->
  match_at (k0 :: K') (c :: sub (k0 :: K') r t) = None.
Proof.
  unfold match_at. cbn [strip_prefix].
  destruct (Ascii.eqb k0 c); [|reflexivity].
  destruct (strip_prefix K' t) as [x|] eqn:E.
  - intros Hd. apply strip_prefix_inv in E. subst t.
    rewrite sub_skip_free by exact K'_free. rewrite strip_prefix_app.
    apply digits1_none. rewrite starts_digit_sub. apply digits1_none. exact Hd.
  - intros _. rewrite strip_prefix_sub_none by assumption. reflexivity.
Qed.

Lemma findall_sub_same_bounded (r : text) (n : nat) : forall s,
  length s <= n -> r <> [] -> forallb is_digit r = true ->
  findall (k0 :: K') (sub (k0 :: K') r s) = map (fun _ => r) (findall (k0 :: K') s).
Proof.
  induction n as [|n IH]; intros s Hlen Hne Hr.
  - destruct s; [|cbn in Hlen; lia]. rewrite sub_nil, findall_nil. reflexivity.
  - destruct s as [|c t]; [rewrite sub_nil, findall_nil; reflexivity|].
    destruct (match_at (k0 :: K') (c :: t)) as [[ds rest]|] eqn:E.
    + rewrite (sub_match _ _ _ _ _ E), (findall_match _ _ _ _ E).
      pose proof (match_at_shorter _ _ _ _ E) as Hs. cbn [length] in *.
      pose proof (match_at_inv _ _ _ _ E) as (_ & _ & _ & Hrest).
      rewrite (findall_match _ _ r (sub (k0 :: K') r rest)).
      * cbn [map]. f_equal. apply IH; [lia | assumption | assumption].
      * unfold match_at. rewrite strip_prefix_app. apply digits1_app; [assumption..|].
        rewrite starts_digit_sub. exact Hrest.
    + rewrite (sub_skip1 _ _ _ _ E), (findall_skip1 _ _ _ E).
      rewrite findall_skip1 by (apply no_new_match; exact E).
      apply IH; [cbn in Hlen; lia | assumption | assumption].
Qed.

(** Reading a key after substituting it: every match now holds the
    replacement. *)
Lemma findall_sub_same (r s : text) :
  r <> [] -> forallb is_digit r = true ->
  findall (k0 :: K') (sub (k0 :: K') r s) = map (fun _ => r) (findall (k0 :: K') s).
Proof. apply (findall_sub_same_bounded r (length s)). lia. Qed.

End OneKey.

Section TwoKeys.
Variable k0 : ascii.
Variable K' : text.
Variable j0 : ascii.
Variable J' : text.
Hypothesis k0_not_digit : is_digit k0 = false.
Hypothesis j0_not_digit : is_digit j0 = false.
Hypothesis K'_free_k : free_of k0 K' = true.
Hypothesis K'_free_j : free_of j0 K' = true.
Hypothesis J'_free_j : free_of j0 J' = true.
Hypothesis J'_free_k : free_of k0 J' = true.
Hypothesis apart : forall x, strip_prefix (j0 :: J') (k0 :: K' ++ x) = None.

Lemma other_key_no_match_here (x : text) : match_at (j0 :: J') (k0 :: K' ++ x) = None.
Proof. unfold match_at. rewrite apart. reflexivity. Qed.

Lemma findall_sub_other_bounded (r : text) (n : nat) : forall s,
  length s <= n -> free_of j0 r = true ->
  findall (j0 :: J') (sub (k0 :: K') r s) = findall (j0 :: J') s.
Proof.
  induction n as [|n IH]; intros s Hlen Hr.
  - destruct s; [|cbn in Hlen; lia]. rewrite sub_nil. reflexivity.
  - destruct s as [|c t]; [rewrite sub_nil; reflexivity|].
    destruct (match_at (k0 :: K') (c :: t)) as [[ds rest]|] eqn:E.
    + rewrite (sub_match _ _ _ _ _ E).
      pose proof (match_at_shorter _ _ _ _ E) as Hs. cbn [length] in Hs, Hlen.
      pose proof (match_at_inv _ _ _ _ E) as (Es & _ & Hds & _).
      rewrite Es. cbn [app].
      rewrite !findall_skip1 by apply other_key_no_match_here.
      rewrite !app_assoc.
      rewrite (findall_skip_free j0 J' (K' ++ r)), (findall_skip_free j0 J' (K' ++ ds)).
      * apply IH; [lia | exact Hr].
      * rewrite free_of_app, K'_free_j. apply digits_free; assumption.
      * rewrite free_of_app, K'_free_j. exact Hr.
    + rewrite (sub_skip1 _ _ _ _ E). cbn [length] in Hlen.
      destruct (match_at (j0 :: J') (c :: t)) as [[ds rest]|] eqn:Ej.
      * (* the other key matches here: its digits are kept *)
        pose proof (match_at_shorter _ _ _ _ Ej) as Hs. cbn [length] in Hs.
        rewrite (findall_match _ _ _ _ Ej).
        pose proof (match_at_inv _ _ _ _ Ej) as (Es & Hne & Hds & Hrest).
        cbn [app] in Es. injection Es as -> ->.
        rewrite app_assoc. rewrite (sub_skip_free k0 K' r (J' ++ ds)).
        2:{ rewrite free_of_app, J'_free_k. apply digits_free; assumption. }
        rewrite <- app_assoc.
        rewrite (findall_match _ _ ds (sub (k0 :: K') r rest)).
        -- f_equal. apply IH; [lia | exact Hr].
        -- unfold match_at. cbn [strip_prefix]. rewrite Ascii.eqb_refl.
           rewrite strip_prefix_app. apply digits1_app; [assumption..|].
           rewrite starts_digit_sub by assumption. exact Hrest.
      * rewrite (findall_skip1 _ _ _ Ej).
        rewrite findall_skip1; [apply IH; [lia | exact Hr]|].
        revert Ej. unfold match_at. cbn [strip_prefix].
        destruct (Ascii.eqb j0 c); [|reflexivity].
        destruct (strip_prefix J' t) as [x|] eqn:Ex.
        -- intros Hd. apply strip_prefix_inv in Ex. subst t.
           rewrite (sub_skip_free k0 K' r J') by exact J'_free_k.
           rewrite strip_prefix_app. apply digits1_none.
           rewrite starts_digit_sub by assumption. apply digits1_none. exact Hd.
        -- intros _. rewrite (strip_prefix_sub_none k0 K') by assumption. reflexivity.
Qed.

(** Reading a key after substituting another one: nothing changes. *)
Lemma findall_sub_other (r s : text) :
  free_of j0 r = true ->
  findall (j0 :: J') (sub (k0 :: K') r s) = findall (j0 :: J') s.
Proof. apply (findall_sub_other_bounded r (length s)). lia. Qed.

End TwoKeys.

End CoreFacts.

(** ** The core-count rule *)

Section CoreCount.
Import Py Re ReFacts CoreFacts.

Lemma split_ws_word (ds : text) : forall cur,
  forallb (fun c => negb (isspace c)) ds = true -> rev cur ++ ds <> [] ->
  split_ws_aux cur ds = [rev cur ++ ds].
Proof.
  induction ds as [|d ds IH]; intros cur Hds Hne.
  - cbn. rewrite app_nil_r in *. destruct cur; [cbn in Hne; congruence | reflexivity].
  - cbn in Hds. apply andb_true_iff in Hds as [Hd Hds]. apply negb_true_iff in Hd.
    cbn [split_ws_aux]. rewrite Hd. rewrite IH; [|exact Hds|].
    + cbn [rev]. rewrite <- app_assoc. reflexivity.
    + cbn [rev]. rewrite <- app_assoc. cbn. intros E. apply app_eq_nil in E as [_ E]. discriminate.
Qed.

Lemma last_cons {A} (x : A) (l : list A) (d : A) : l <> [] -> List.last (x :: l) d = List.last l d.
Proof. destruct l; [congruence | reflexivity]. Qed.

(** The last word of a text that ends with a space and a word. *)
Lemma last_split_ws (ds : text) (s : text) : forall cur,
  forallb (fun c => negb (isspace c)) ds = true -> ds <> [] ->
  List.last (split_ws_aux cur (s ++ " "%char :: ds)) [] = ds.
Proof.
  intros cur Hds Hne. revert cur.
  assert (split_ws_aux [] ds = [ds]) as Hword.
  { rewrite split_ws_word; [reflexivity | exact Hds | exact Hne]. }
  induction s as [|c s IH]; intros cur.
  - cbn [app split_ws_aux]. change (isspace " ") with true. cbn iota.
    destruct cur; rewrite Hword; reflexivity.
  - cbn [app split_ws_aux]. destruct (isspace c).
    + destruct cur as [|x cur]; [apply IH|].
      rewrite last_cons; [apply IH|].
      intros E. specialize (IH []). rewrite E in IH. cbn in IH. congruence.
    + apply IH.
Qed.

Lemma d2_is_two_match (ds : text) :
  ds <> [] -> forallb is_digit ds = true ->
  d2_is_two (Some (d2_cores_key ++ ds)) = (digits_value 0 ds =? 2)%Z.
Proof.
  intros Hne Hds. unfold d2_is_two, split_ws.
  change d2_cores_key with (lit "UNET D2 Cores=" ++ [" "%char]).
  rewrite <- app_assoc. cbn [app].
  rewrite last_split_ws; [| apply ReadBack.digits_no_space; exact Hds | exact Hne].
  rewrite ReadBack.int_digits by assumption. reflexivity.
Qed.

Lemma str_nonneg (n : Z) :
  (0 <= n)%Z -> str n <> [] /\ forallb is_digit (str n) = true /\ digits_value 0 (str n) = n.
Proof.
  intros H. unfold str. assert ((n <? 0)%Z = false) as -> by (apply Z.ltb_ge; exact H).
  split; [apply DecimalFacts.str_N_nonempty|]. split; [apply DecimalFacts.str_N_digits|].
  rewrite DecimalFacts.digits_value_str_N. lia.
Qed.

Lemma core_values_const (key : text) (r : text) (l : list text) :
  map (digits_value 0) (map (fun _ => r) l) = map (fun _ => digits_value 0 r) l.
Proof. rewrite map_map. reflexivity. Qed.

(** The three keys, head and tail. *)
Let U : ascii := "U"%char.
Let P : ascii := "P"%char.
Let D1' : text := lit "NET D1 Cores= ".
Let D2' : text := lit "NET D2 Cores= ".
Let PS' : text := lit "S Cores= ".

Lemma sub_d2_reads_d2 (r s : text) :
  r <> [] -> forallb is_digit r = true ->
  findall d2_cores_key (sub d2_cores_key r s) = map (fun _ => r) (findall d2_cores_key s).
Proof. apply (findall_sub_same U D2'); reflexivity. Qed.

Lemma sub_d1_reads_d1 (r s : text) :
  r <> [] -> forallb is_digit r = true ->
  findall d1_cores_key (sub d1_cores_key r s) = map (fun _ => r) (findall d1_cores_key s).
Proof. apply (findall_sub_same U D1'); reflexivity. Qed.

Lemma sub_ps_reads_ps (r s : text) :
  r <> [] -> forallb is_digit r = true ->
  findall ps_cores_key (sub ps_cores_key r s) = map (fun _ => r) (findall ps_cores_key s).
Proof. apply (findall_sub_same P PS'); reflexivity. Qed.

Lemma sub_d2_keeps_d1 (r s : text) :
  forallb is_digit r = true ->
  findall d1_cores_key (sub d2_cores_key r s) = findall d1_cores_key s.
Proof.
  intros Hr. apply (findall_sub_other U D2' U D1'); try reflexivity.
  apply digits_free; [reflexivity | exact Hr].
Qed.

Lemma sub_d2_keeps_ps (r s : text) :
  forallb is_digit r = true ->
  findall ps_cores_key (sub d2_cores_key r s) = findall ps_cores_key s.
Proof.
  intros Hr. apply (findall_sub_other U D2' P PS'); try reflexivity.
  apply digits_free; [reflexivity | exact Hr].
Qed.

Lemma sub_d1_keeps_d2 (r s : text) :
  forallb is_digit r = true ->
  findall d2_cores_key (sub d1_cores_key r s) = findall d2_cores_key s.
Proof.
  intros Hr. apply (findall_sub_other U D1' U D2'); try reflexivity.
  apply digits_free; [reflexivity | exact Hr].
Qed.

Lemma sub_d1_keeps_ps (r s : text) :
  forallb is_digit r = true ->
  findall ps_cores_key (sub d1_cores_key r s) = findall ps_cores_key s.
Proof.
  intros Hr. apply (findall_sub_other U D1' P PS'); try reflexivity.
  apply digits_free; [reflexivity | exact Hr].
Qed.

Lemma sub_ps_keeps_d1 (r s : text) :
  forallb is_digit r = true ->
  findall d1_cores_key (sub ps_cores_key r s) = findall d1_cores_key s.
Proof.
  intros Hr. apply (findall_sub_other P PS' U D1'); try reflexivity.
  apply digits_free; [reflexivity | exact Hr].
Qed.

Lemma sub_ps_keeps_d2 (r s : text) :
  forallb is_digit r = true ->
  findall d2_cores_key (sub ps_cores_key r s) = findall d2_cores_key s.
Proof.
  intros Hr. apply (findall_sub_other P PS' U D2'); try reflexivity.
  apply digits_free; [reflexivity | exact Hr].
Qed.

(** After the three substitutions with replacements [r2] for D2 and [r]
    for D1 and PS. *)
Lemma core_values_after (content r2 r : text) :
  r2 <> [] -> forallb is_digit r2 = true -> r <> [] -> forallb is_digit r = true ->
  let out := sub ps_cores_key r (sub d1_cores_key r (sub d2_cores_key r2 content)) in
  core_values d2_cores_key out
    = map (fun _ => digits_value 0 r2) (core_values d2_cores_key content) /\
  core_values d1_cores_key out
    = map (fun _ => digits_value 0 r) (core_values d1_cores_key content) /\
  core_values ps_cores_key out
    = map (fun _ => digits_value 0 r) (core_values ps_cores_key content).
Proof.
  intros Hne2 Hr2 Hne Hr out. unfold out, core_values. rewrite !map_map. split; [|split].
  - rewrite sub_ps_keeps_d2, sub_d1_keeps_d2 by exact Hr.
    rewrite sub_d2_reads_d2 by assumption. rewrite map_map. reflexivity.
  - rewrite sub_ps_keeps_d1 by exact Hr. rewrite sub_d1_reads_d1 by assumption.
    rewrite sub_d2_keeps_d1 by exact Hr2. rewrite map_map. reflexivity.
  - rewrite sub_ps_reads_ps by assumption. rewrite sub_d1_keeps_ps by exact Hr.
    rewrite sub_d2_keeps_ps by exact Hr2. rewrite map_map. reflexivity.
Qed.

End CoreCount.

(** C6: on a plan file that has a D2 core-count line, and for a core count
    [n] (a non-negative integer), [set_num_cores] leaves every D2 line
    with [n] and every D1 and PS line with 1 when [n] is 2 and with [n]
    otherwise. *)
Theorem set_num_cores_rule (content : text) (n : Z) :
  (0 <= n)%Z ->
  core_values d2_cores_key content <> [] ->
  core_values d2_cores_key (set_num_cores_text content n)
    = map (fun _ => n) (core_values d2_cores_key content) /\
  core_values d1_cores_key (set_num_cores_text content n)
    = map (fun _ => if (n =? 2)%Z then 1%Z else n) (core_values d1_cores_key content) /\
  core_values ps_cores_key (set_num_cores_text content n)
    = map (fun _ => if (n =? 2)%Z then 1%Z else n) (core_values ps_cores_key content).
Proof.
  intros Hn Hd2.
  destruct (str_nonneg n Hn) as (Hne & Hds & Hval).
  unfold set_num_cores_text.
  assert (d2_is_two (Re.search d2_cores_key (Re.sub d2_cores_key (Py.str n) content))
          = (n =? 2)%Z) as ->.
  { rewrite ReFacts.search_findall, sub_d2_reads_d2 by assumption.
    unfold core_values in Hd2.
    destruct (Re.findall d2_cores_key content) as [|ds l]; [cbn in Hd2; congruence|].
    cbn [map]. rewrite d2_is_two_match by assumption. rewrite Hval. reflexivity. }
  destruct (n =? 2)%Z eqn:E.
  - pose proof (core_values_after content (Py.str n) (lit "1") Hne Hds ltac:(discriminate) eq_refl)
      as H. cbv zeta in H. rewrite Hval in H. exact H.
  - pose proof (core_values_after content (Py.str n) (Py.str n) Hne Hds Hne Hds) as H.
    cbv zeta in H. rewrite Hval in H. exact H.
Qed.

Lemma set_num_cores_rule_witness :
  (0 <= 2)%Z /\
  core_values d2_cores_key demo_plan <> [] /\
  core_values d2_cores_key (set_num_cores_text demo_plan 2)
    = map (fun _ => 2%Z) (core_values d2_cores_key demo_plan) /\
  core_values d1_cores_key (set_num_cores_text demo_plan 2)
    = map (fun _ => if (2 =? 2)%Z then 1%Z else 2%Z) (core_values d1_cores_key demo_plan) /\
  core_values ps_cores_key (set_num_cores_text demo_plan 2)
    = map (fun _ => if (2 =? 2)%Z then 1%Z else 2%Z) (core_values ps_cores_key demo_plan).
Proof.
  assert (0 <= 2)%Z as H0 by lia.
  assert (core_values d2_cores_key demo_plan <> []) as H1 by (vm_compute; discriminate).
  split; [exact H0|]. split; [exact H1|].
  exact (set_num_cores_rule demo_plan 2 H0 H1).
Defined.

Example set_num_cores_2_and_4 :
  core_values d2_cores_key demo_plan = [8]%Z /\
  core_values d2_cores_key (set_num_cores_text demo_plan 2) = [2]%Z /\
  core_values d1_cores_key (set_num_cores_text demo_plan 2) = [1]%Z /\
  core_values ps_cores_key (set_num_cores_text demo_plan 2) = [1]%Z /\
  core_values d2_cores_key (set_num_cores_text demo_plan 4) = [4]%Z /\
  core_values d1_cores_key (set_num_cores_text demo_plan 4) = [4]%Z /\
  core_values ps_cores_key (set_num_cores_text demo_plan 4) = [4]%Z.
Proof. repeat split; vm_refl. Qed.

(** Without a D2 line the rule of the claim does not apply: asked for 2
    cores, the code writes 2 to D1 and PS. *)
Example set_num_cores_without_d2 :
  set_num_cores_text (lit "UNET D1 Cores= 0" ++ [newline] ++ lit "PS Cores= 3" ++ [newline]) 2
  = lit "UNET D1 Cores= 2" ++ [newline] ++ lit "PS Cores= 2" ++ [newline].
Proof. vm_refl. Qed.

Lemma set_num_cores_writes (fs : fsys) (plan_file content : text) (n : Z) :
  fs !! plan_file = Some content ->
  set_num_cores plan_file n fs = (Ok tt, <[plan_file := set_num_cores_text content n]> fs).
Proof.
  intros H. unfold set_num_cores, io_bind, Os.read_text, Os.write_text. rewrite H. reflexivity.
Qed.

(** ** Pieces of fixed length *)

Module ChunkFacts.
Import Py.

Lemma chunks_fuel_enough {A} (n : nat) (f1 : nat) : forall f2 (l : list A),
  0 < n -> length l <= f1 -> length l <= f2 ->
  chunks_fuel f1 n l = chunks_fuel f2 n l.
Proof.
  induction f1 as [|f1 IH]; intros f2 l Hn H1 H2.
  - destruct l; [|cbn in H1; lia]. destruct f2; reflexivity.
  - destruct l as [|x l]; [destruct f2; reflexivity|].
    destruct f2 as [|f2]; [cbn in H2; lia|].
    cbn [chunks_fuel]. f_equal. cbn [length] in *.
    apply IH; [exact Hn | |]; rewrite length_skipn; cbn [length]; lia.
Qed.

Lemma chunks_nil {A} (n : nat) : chunks n (@nil A) = [].
Proof. reflexivity. Qed.

Lemma chunks_step {A} (n : nat) (l : list A) :
  0 < n -> l <> [] -> chunks n l = firstn n l :: chunks n (skipn n l).
Proof.
  intros Hn Hne. destruct l as [|x l]; [congruence|].
  unfold chunks at 1. cbn [length chunks_fuel]. f_equal.
  apply chunks_fuel_enough; [exact Hn | | lia].
  rewrite length_skipn. cbn [length]. lia.
Qed.

Lemma chunks_app {A} (n : nat) (a b : list A) :
  0 < n -> length a = n -> chunks n (a ++ b) = a :: chunks n b.
Proof.
  intros Hn Ha. rewrite chunks_step; [|exact Hn|].
  - rewrite <- Ha. rewrite firstn_app, Nat.sub_diag, firstn_all. cbn [firstn].
    rewrite app_nil_r. rewrite skipn_app, Nat.sub_diag, skipn_all. reflexivity.
  - destruct a; [cbn in Ha; lia | discriminate].
Qed.

Lemma chunks_short {A} (n : nat) (l : list A) :
  0 < n -> l <> [] -> length l <= n -> chunks n l = [l].
Proof.
  intros Hn Hne Hl. rewrite chunks_step by assumption.
  rewrite firstn_all2 by exact Hl. rewrite skipn_all2 by exact Hl. reflexivity.
Qed.

Lemma chunks_bounded_props {A} (n : nat) (k : nat) : forall (l : list A),
  0 < n -> length l <= k ->
  concat (chunks n l) = l /\
  Forall (fun c => c <> [] /\ length c <= n) (chunks n l).
Proof.
  induction k as [|k IH]; intros l Hn Hl.
  - destruct l; [|cbn in Hl; lia]. split; [reflexivity | constructor].
  - destruct l as [|x l]; [split; [reflexivity | constructor]|].
    rewrite chunks_step by (try exact Hn; discriminate).
    destruct (IH (skipn n (x :: l)) Hn) as [Hc Hf].
    { rewrite length_skipn. cbn [length] in *. lia. }
    split.
    + cbn [concat]. rewrite Hc. apply firstn_skipn.
    + constructor; [|exact Hf]. split.
      * destruct n; [lia | discriminate].
      * rewrite length_firstn. lia.
Qed.

Lemma concat_chunks {A} (n : nat) (l : list A) : 0 < n -> concat (chunks n l) = l.
Proof. intros Hn. apply (chunks_bounded_props n (length l) l Hn). lia. Qed.

Lemma chunks_sizes {A} (n : nat) (l : list A) :
  0 < n -> Forall (fun c => c <> [] /\ length c <= n) (chunks n l).
Proof. intros Hn. apply (chunks_bounded_props n (length l) l Hn). lia. Qed.

Lemma chunks_map_bounded {A B} (f : A -> B) (n k : nat) : forall (l : list A),
  0 < n -> length l <= k -> chunks n (map f l) = map (map f) (chunks n l).
Proof.
  induction k as [|k IH]; intros l Hn Hl.
  - destruct l; [reflexivity | cbn in Hl; lia].
  - destruct l as [|x l]; [reflexivity|].
    rewrite (chunks_step n (x :: l)) by (try exact Hn; discriminate).
    rewrite (chunks_step n (map f (x :: l))) by (try exact Hn; discriminate).
    rewrite firstn_map, skipn_map. rewrite map_cons. f_equal.
    apply IH; [exact Hn|]. rewrite length_skipn. cbn [length] in *. lia.
Qed.

Lemma chunks_map {A B} (f : A -> B) (n : nat) (l : list A) :
  0 < n -> chunks n (map f l) = map (map f) (chunks n l).
Proof. intros Hn. apply (chunks_map_bounded f n (length l)); [exact Hn | lia]. Qed.

(** A line made of fields of [n] characters and a newline splits into the
    fields and the newline. *)
Lemma chunks_fields (n : nat) (fields : list text) :
  0 < n -> Forall (fun f => length f = n) fields ->
  chunks n (concat fields ++ [newline]) = fields ++ [[newline]].
Proof.
  intros Hn. induction 1 as [|f fields Hf _ IH].
  - cbn [concat app]. apply chunks_short; [exact Hn | discriminate | cbn; lia].
  - cbn [concat]. rewrite <- app_assoc. rewrite chunks_app by assumption.
    rewrite IH. reflexivity.
Qed.

End ChunkFacts.

(** ** Decoding what the encoder writes *)

Module CodecFacts.
Import Py DecimalFacts ReadBack ChunkFacts.

Lemma str_N_length_le (k : nat) : forall n,
  (n < 10 ^ N.of_nat (S k))%N -> length (str_N n) <= S k.
Proof.
  induction k as [|k IH]; intros n Hn.
  - rewrite str_N_length_1; [lia|]. exact Hn.
  - destruct (N.lt_ge_cases n 10) as [Hlt | Hge].
    + rewrite str_N_length_1 by exact Hlt. lia.
    + rewrite str_N_step by exact Hge. rewrite length_app. cbn [length].
      assert (length (str_N (n / 10)) <= S k); [|lia].
      apply IH. apply N.Div0.div_lt_upper_bound.
      rewrite (Nat2N.inj_succ (S k)), N.pow_succ_r' in Hn. exact Hn.
Qed.

Lemma str_nonempty (z : Z) : str z <> [].
Proof. unfold str. destruct (z <? 0)%Z; [discriminate | apply str_N_nonempty]. Qed.

Lemma str_no_space (z : Z) : forallb (fun c => negb (isspace c)) (str z) = true.
Proof.
  unfold str. destruct (z <? 0)%Z.
  - cbn [forallb]. rewrite digits_no_space by apply str_N_digits. reflexivity.
  - apply digits_no_space. apply str_N_digits.
Qed.

Lemma str_fits (z : Z) : fits_field z -> length (str z) <= 8.
Proof.
  unfold fits_field, str. intros H. destruct (z <? 0)%Z eqn:E.
  - apply Z.ltb_lt in E. cbn [length].
    pose proof (str_N_length_le 6 (Z.to_N (- z))) as Hl.
    assert (Z.to_N (- z) < 10 ^ N.of_nat 7)%N as Hb.
    { change (10 ^ N.of_nat 7)%N with 10000000%N. lia. }
    specialize (Hl Hb). lia.
  - apply Z.ltb_ge in E.
    apply (str_N_length_le 7). change (10 ^ N.of_nat 8)%N with 100000000%N. lia.
Qed.

Lemma rjust_length (s : text) : length s <= 8 -> length (rjust 8 s) = 8.
Proof. intros H. unfold rjust. rewrite length_app, repeat_length. lia. Qed.

Lemma strip_rjust (w : nat) (s : text) :
  forallb (fun c => negb (isspace c)) s = true -> strip (rjust w s) = s.
Proof.
  intros H. unfold rjust.
  assert (strip (repeat " "%char (w - length s) ++ s) = strip s) as ->.
  { unfold strip, lstrip. rewrite drop_while_all; [reflexivity|].
    apply forallb_forall. intros c Hc. apply repeat_spec in Hc. subst c. reflexivity. }
  apply strip_id. exact H.
Qed.

Lemma break_at_none (p : ascii -> bool) (s : text) :
  forallb (fun c => negb (p c)) s = true -> Float.break_at p s = (s, None).
Proof.
  induction s as [|c s IH]; cbn; [reflexivity|]. intros H.
  apply andb_true_iff in H as [Hc Hs]. apply negb_true_iff in Hc. rewrite Hc.
  rewrite (IH Hs). reflexivity.
Qed.

Lemma digit_props (c : ascii) :
  is_digit c = true ->
  lower c = c /\ Ascii.eqb c "." = false /\ Ascii.eqb (lower c) "e" = false /\
  c <> "i"%char /\ c <> "n"%char.
Proof. destruct c as [[] [] [] [] [] [] [] []]; vm_compute; intuition congruence. Qed.

Lemma lower_digits (ds : text) : forallb is_digit ds = true -> Float.lower_text ds = ds.
Proof.
  unfold Float.lower_text. induction ds as [|d ds IH]; cbn; [reflexivity|]. intros H.
  apply andb_true_iff in H as [Hd Hds]. rewrite (IH Hds).
  destruct (digit_props d Hd) as [-> _]. reflexivity.
Qed.

(** [float] reads a non-empty string of digits as its value. *)
Lemma floatnumber_digits (ds : text) :
  ds <> [] -> forallb is_digit ds = true ->
  Float.floatnumber ds = Some (inject_Z (digits_value 0 ds)).
Proof.
  intros Hne Hds. unfold Float.floatnumber.
  rewrite break_at_none.
  2:{ apply forallb_forall. intros c Hc. rewrite forallb_forall in Hds.
      destruct (digit_props c (Hds c Hc)) as (_ & _ & -> & _). reflexivity. }
  unfold Float.mantissa. rewrite break_at_none.
  2:{ apply forallb_forall. intros c Hc. rewrite forallb_forall in Hds.
      destruct (digit_props c (Hds c Hc)) as (_ & -> & _). reflexivity. }
  rewrite digitpart_digits by assumption.
  unfold Float.decimal. cbn. rewrite Z.mul_1_r. reflexivity.
Qed.

Lemma not_special (ds : text) :
  ds <> [] -> forallb is_digit ds = true ->
  (bool_decide (Float.lower_text ds = lit "inf")
   || bool_decide (Float.lower_text ds = lit "infinity")) = false /\
  bool_decide (Float.lower_text ds = lit "nan") = false.
Proof.
  intros Hne Hds. rewrite lower_digits by exact Hds.
  destruct ds as [|d ds]; [congruence|]. cbn in Hds. apply andb_true_iff in Hds as [Hd _].
  destruct (digit_props d Hd) as (_ & _ & _ & Hi & Hn).
  split; [apply orb_false_iff; split|]; apply bool_decide_eq_false; intros [= E]; congruence.
Qed.

Lemma float_str (z : Z) : Float.float (str z) = Some (Finite (inject_Z z)).
Proof.
  unfold Float.float. rewrite strip_id by apply str_no_space.
  unfold str. destruct (z <? 0)%Z eqn:E.
  - apply Z.ltb_lt in E. cbn [split_sign].
    destruct (not_special (str_N (Z.to_N (- z))) (str_N_nonempty _) (str_N_digits _)) as [-> ->].
    rewrite floatnumber_digits by (apply str_N_nonempty || apply str_N_digits).
    rewrite digits_value_str_N. do 2 f_equal. unfold Qopp, inject_Z. cbn. f_equal. lia.
  - apply Z.ltb_ge in E. rewrite split_sign_digit by apply str_N_digits.
    destruct (not_special (str_N (Z.to_N z)) (str_N_nonempty _) (str_N_digits _)) as [-> ->].
    rewrite floatnumber_digits by (apply str_N_nonempty || apply str_N_digits).
    rewrite digits_value_str_N. do 3 f_equal. lia.
Qed.

Lemma parse_value_str (z : Z) :
  fits_field z -> parse_value (str z) = [Finite (inject_Z z)].
Proof.
  intros H. unfold parse_value.
  assert ((8 <? length (str z)) = false) as -> by (apply Nat.ltb_ge; apply str_fits; exact H).
  pose proof (str_nonempty z) as Hne. destruct (str z) eqn:Es; [congruence|].
  rewrite <- Es, float_str. reflexivity.
Qed.

(** One row of the encoder decodes to its values. *)
Lemma parse_line_row (row : list Z) :
  Forall fits_field row ->
  parse_line (concat (map (fun z => rjust 8 (str z)) row) ++ [newline])
  = map (fun z => Finite (inject_Z z)) row.
Proof.
  intros H. unfold parse_line. rewrite chunks_fields; [|lia|].
  2:{ apply Forall_map. eapply Forall_impl; [exact H|]. cbn. intros z Hz.
      apply rjust_length. apply str_fits. exact Hz. }
  rewrite map_app. rewrite flat_map_app. cbn [map flat_map].
  change (strip [newline]) with (@nil ascii). cbn [parse_value Nat.ltb Nat.leb length app].
  rewrite app_nil_r. rewrite map_map.
  induction H as [|z row Hz _ IH]; [reflexivity|]. cbn [map flat_map].
  rewrite strip_rjust by apply str_no_space. rewrite parse_value_str by exact Hz.
  rewrite IH. reflexivity.
Qed.

Lemma flat_map_concat_map {A B} (f : A -> B) (ls : list (list A)) :
  flat_map (map f) ls = map f (concat ls).
Proof.
  induction ls as [|l ls IH]; [reflexivity|]. cbn. rewrite map_app, IH. reflexivity.
Qed.

Lemma Forall_chunks {A} (P : A -> Prop) (n : nat) (l : list A) :
  0 < n -> Forall P l -> Forall (Forall P) (chunks n l).
Proof.
  intros Hn H. pose proof (concat_chunks n l Hn) as Hc.
  rewrite <- Hc in H. clear Hc. induction (chunks n l) as [|c cs IH]; [constructor|].
  cbn [concat] in H. apply Forall_app in H as [H1 H2]. constructor; [exact H1 | apply IH; exact H2].
Qed.

(** The rows of the encoder decode to the values. *)
Lemma parse_table_rows (zs : list Z) :
  Forall fits_field zs ->
  flat_map parse_line (table_rows zs) = map (fun z => Finite (inject_Z z)) zs.
Proof.
  intros H. unfold table_rows.
  pose proof (Forall_chunks fits_field 10 zs ltac:(lia) H) as Hch.
  rewrite <- (concat_chunks 10 zs) at 2 by lia.
  rewrite <- flat_map_concat_map.
  induction Hch as [|c cs Hc _ IH]; [reflexivity|].
  cbn [map flat_map]. rewrite parse_line_row by exact Hc. rewrite IH. reflexivity.
Qed.

Lemma sequence_map_some {A B} (f : A -> B) (l : list A) :
  sequence (map (fun x => Some (f x)) l) = Some (map f l).
Proof. induction l as [|x l IH]; cbn; [reflexivity|]. rewrite IH. reflexivity. Qed.

(** The encoder on integers. *)
Lemma formatted_values_ints (zs : list Z) : formatted_values (map CInt zs) = Some (table_rows zs).
Proof.
  unfold formatted_values, table_rows. rewrite chunks_map by lia. rewrite map_map.
  rewrite <- sequence_map_some. f_equal. apply map_ext. intros row.
  unfold format_row. rewrite map_map. cbn [format_8d].
  rewrite (sequence_map_some (fun z => rjust 8 (str z))). reflexivity.
Qed.

(** The encoder on a frame that still holds floats. *)
Lemma formatted_values_floats (f : pyfloat) (fl : list pyfloat) :
  formatted_values (map CFloat (f :: fl)) = None.
Proof.
  unfold formatted_values.
  rewrite chunks_step by (try lia; discriminate).
  cbn [map sequence]. unfold format_row at 1. cbn [map firstn format_8d sequence]. reflexivity.
Qed.

Lemma scale_by_one (zs : list Z) :
  sequence (map (Float.scale_cell 1) (map (fun z => CFloat (Finite (inject_Z z))) zs)) = Some zs.
Proof.
  rewrite map_map. induction zs as [|z zs IH]; [reflexivity|].
  cbn [map sequence]. rewrite IH.
  assert (Float.scale_cell 1 (CFloat (Finite (inject_Z z))) = Some z) as ->; [|reflexivity].
  unfold Float.scale_cell, Float.of_cell, Float.round_half_even. cbn.
  rewrite Z.mul_1_r, Z.div_1_r, Z.mod_1_r. reflexivity.
Qed.

Lemma chunks_count_bounded {A} (k : nat) : forall (l : list A),
  length l <= k ->
  Z.of_nat (length (chunks 10 l)) = ((Z.of_nat (length l) + 9) / 10)%Z.
Proof.
  induction k as [|k IH]; intros l Hl.
  - destruct l; [reflexivity | cbn in Hl; lia].
  - destruct l as [|x l]; [reflexivity|].
    rewrite chunks_step by (try lia; discriminate).
    change (length (firstn 10 (x :: l) :: chunks 10 (skipn 10 (x :: l))))
      with (S (length (chunks 10 (skipn 10 (x :: l))))).
    rewrite Nat2Z.inj_succ, IH by (rewrite length_skipn; cbn [length] in *; lia).
    rewrite length_skipn.
    assert (1 <= length (x :: l)) as H1 by (cbn; lia).
    set (a := Z.of_nat (length (x :: l))).
    set (b := Z.of_nat (length (x :: l) - 10)).
    assert (b = Z.max 0 (a - 10)) as Hb by (unfold a, b; lia).
    assert (1 <= a)%Z as Ha by (unfold a; lia).
    pose proof (Z.div_mod (a + 9) 10 ltac:(lia)).
    pose proof (Z.mod_pos_bound (a + 9) 10 ltac:(lia)).
    pose proof (Z.div_mod (b + 9) 10 ltac:(lia)).
    pose proof (Z.mod_pos_bound (b + 9) 10 ltac:(lia)).
    lia.
Qed.

(** The encoder writes as many lines as [identify_tables] gives to a last
    table that declares the number of values. *)
Lemma table_rows_count (zs : list Z) :
  Z.of_nat (length (table_rows zs)) = ((Z.of_nat (length zs) + 9) / 10)%Z.
Proof.
  unfold table_rows. rewrite length_map. apply (chunks_count_bounded (length zs)). lia.
Qed.

End CodecFacts.

(** ** Reading and writing back a table *)

Section RoundTrip.
Import Py CodecFacts.

Lemma readlines_aux_concat (s : text) : forall cur,
  concat (Os.readlines_aux cur s) = rev cur ++ s.
Proof.
  induction s as [|c s IH]; intros cur; cbn [Os.readlines_aux].
  - destruct cur; cbn; [reflexivity|]. rewrite !app_nil_r. reflexivity.
  - destruct (Ascii.eqb c newline).
    + cbn [concat]. rewrite IH. cbn [rev app]. rewrite <- app_assoc. reflexivity.
    + rewrite IH. cbn [rev]. rewrite <- app_assoc. reflexivity.
Qed.

(** Writing back the lines that were read gives the text that was read. *)
Lemma writelines_readlines (t : text) : Os.writelines (Os.readlines t) = t.
Proof. unfold Os.writelines, Os.readlines. apply readlines_aux_concat. Qed.

Lemma assign_slice_same {A} (pre rows post : list A) :
  assign_slice (pre ++ rows ++ post) (length pre) rows = pre ++ rows ++ post.
Proof.
  unfold assign_slice. rewrite firstn_app, Nat.sub_diag, firstn_all. cbn [firstn].
  rewrite app_nil_r. f_equal. f_equal.
  rewrite skipn_app. rewrite skipn_all2 by lia.
  replace (length pre + length rows - length pre) with (length rows) by lia.
  rewrite skipn_app, skipn_all, Nat.sub_diag. reflexivity.
Qed.

Lemma slice_middle {A} (pre rows post : list A) :
  skipn (length pre) (firstn (length pre + length rows) (pre ++ rows ++ post)) = rows.
Proof.
  rewrite firstn_app_2. rewrite skipn_app, skipn_all, Nat.sub_diag. cbn [skipn app].
  rewrite firstn_app, Nat.sub_diag, firstn_all. cbn [firstn]. apply app_nil_r.
Qed.

Lemma parse_rows_in_place (pre post : list text) (zs : list Z) :
  Forall fits_field zs ->
  parse_fixed_width_table (pre ++ table_rows zs ++ post) (Z.of_nat (length pre))
    (Z.of_nat (length pre) + (Z.of_nat (length zs) + 9) / 10)
  = float_column zs.
Proof.
  intros H. rewrite <- table_rows_count.
  pose proof (Zle_0_nat (length pre)). pose proof (Zle_0_nat (length (table_rows zs))).
  rewrite parse_reads_below_end by lia.
  rewrite <- Nat2Z.inj_add, !Nat2Z.id. rewrite slice_middle.
  rewrite parse_table_rows by exact H. unfold float_column. rewrite map_map. reflexivity.
Qed.

End RoundTrip.

(** X1: a table of integers that fit their fields, laid out ten to a line
    in 8-character fields, survives the whole cycle: decoding the extent of
    [(n + 9) // 10] lines gives the values as floats, scaling the flow
    hydrograph by 1 gives back the integers, and writing them at the same
    start line gives the lines that were read. *)
Theorem integer_table_round_trip
    (pre post : list text) (zs : list Z) (tables : gmap text (list cell)) :
  Forall fits_field zs ->
  tables !! lit "Flow Hydrograph="
    = Some (parse_fixed_width_table (pre ++ table_rows zs ++ post) (Z.of_nat (length pre))
              (Z.of_nat (length pre) + (Z.of_nat (length zs) + 9) / 10)) ->
  parse_fixed_width_table (pre ++ table_rows zs ++ post) (Z.of_nat (length pre))
    (Z.of_nat (length pre) + (Z.of_nat (length zs) + 9) / 10)
    = float_column zs /\
  scale_flow_hydrograph tables 1
    = Ok (<[lit "Flow Hydrograph=" := map CInt zs]> tables, Some (float_column zs)) /\
  write_table_lines (pre ++ table_rows zs ++ post) (map CInt zs) (length pre)
    = Ok (pre ++ table_rows zs ++ post).
Proof.
  intros Hfit Htab. rewrite parse_rows_in_place in * by exact Hfit.
  split; [reflexivity|]. split.
  - unfold scale_flow_hydrograph. rewrite Htab. unfold float_column.
    rewrite CodecFacts.scale_by_one. reflexivity.
  - unfold write_table_lines. rewrite CodecFacts.formatted_values_ints.
    rewrite assign_slice_same. reflexivity.
Qed.

Lemma integer_table_round_trip_witness :
  let zs := seqZ 1 23 in
  let pre := firstn 1 two_tables in
  let post := skipn 4 two_tables in
  let tables : gmap text (list cell) :=
    {[lit "Flow Hydrograph=" := parse_fixed_width_table two_tables 1 4]} in
  Forall fits_field zs /\
  pre ++ table_rows zs ++ post = two_tables /\
  tables !! lit "Flow Hydrograph=" = Some (parse_fixed_width_table two_tables 1 4) /\
  parse_fixed_width_table two_tables 1 4 = float_column zs /\
  scale_flow_hydrograph tables 1
    = Ok (<[lit "Flow Hydrograph=" := map CInt zs]> tables, Some (float_column zs)) /\
  write_table_lines two_tables (map CInt zs) 1 = Ok two_tables.
Proof.
  intros zs pre post tables.
  assert (Forall fits_field zs) as Hfit.
  { apply Forall_forall. intros z Hz. apply elem_of_seqZ in Hz. unfold fits_field. lia. }
  assert (pre ++ table_rows zs ++ post = two_tables) as E by vm_refl.
  assert (tables !! lit "Flow Hydrograph=" = Some (parse_fixed_width_table two_tables 1 4)) as Ht
    by apply lookup_singleton_eq.
  split; [exact Hfit|]. split; [exact E|]. split; [exact Ht|].
  pose proof (integer_table_round_trip pre post zs tables Hfit) as H.
  rewrite E in H. exact (H Ht).
Defined.

(** ** A float frame is never written *)

(** X2: [write_table_to_file] formats with the integer code [8d], so a
    frame that still holds the decoded floats (at least one value) makes it
    raise [ValueError]; the file is not touched. *)
Theorem decoded_frame_not_written
    (fs : fsys) (file_path table_name t : text) (lines : list text) (start end_ : Z)
    (start_line : nat) :
  fs !! file_path = Some t ->
  parse_fixed_width_table lines start end_ <> [] ->
  write_table_to_file file_path table_name (parse_fixed_width_table lines start end_) start_line fs
    = (Raise ValueError, fs).
Proof.
  intros Ht Hne. unfold write_table_to_file, io_bind, Os.read_text, lift. rewrite Ht.
  unfold write_table_lines, parse_fixed_width_table in *.
  destruct (flat_map parse_line (Py.slice_z lines start end_)) as [|f fl]; [cbn in Hne; congruence|].
  rewrite CodecFacts.formatted_values_floats. reflexivity.
Qed.

Lemma decoded_frame_not_written_witness :
  let fs : fsys := {[lit "Muncie.u01" := concat two_tables]} in
  fs !! lit "Muncie.u01" = Some (concat two_tables) /\
  parse_fixed_width_table two_tables 1 4 <> [] /\
  write_table_to_file (lit "Muncie.u01") (lit "Flow Hydrograph=")
    (parse_fixed_width_table two_tables 1 4) 1 fs = (Raise ValueError, fs).
Proof.
  intros fs.
  assert (fs !! lit "Muncie.u01" = Some (concat two_tables)) as Ht by apply lookup_singleton_eq.
  assert (parse_fixed_width_table two_tables 1 4 <> []) as Hne by (vm_compute; discriminate).
  split; [exact Ht|]. split; [exact Hne|].
  exact (decoded_frame_not_written fs _ _ _ two_tables 1 4 1 Ht Hne).
Defined.

(** ** The scaling pipeline on a file *)

Section Pipeline.
Import Py CodecFacts.

Lemma startswith_in (p : text) : forall s c, startswith p s = true -> In c p -> In c s.
Proof.
  induction p as [|a p IH]; intros s c H Hin; [destruct Hin|].
  destruct s as [|b s]; [discriminate|]. cbn in H.
  apply andb_true_iff in H as [Hab Hs]. apply Ascii.eqb_eq in Hab. subst b.
  destruct Hin as [-> | Hin]; [left; reflexivity | right; apply (IH s); assumption].
Qed.

Lemma contains_in (p s : text) (c : ascii) : contains p s = true -> In c p -> In c s.
Proof.
  induction s as [|b s IH]; cbn [contains]; intros H Hin.
  - rewrite orb_false_r in H. apply (startswith_in p); assumption.
  - apply orb_true_iff in H as [H | H]; [apply (startswith_in p); assumption|].
    right. apply IH; assumption.
Qed.









End Pipeline.



(** ** More on the core counts *)

Section CoreCountMore.
Import Py Re ReFacts CoreFacts.

Lemma sub_no_match_bounded (key r : text) (n : nat) : forall s,
  length s <= n -> findall key s = [] -> sub key r s = s.
Proof.
  induction n as [|n IH]; intros s Hlen Hf.
  - destruct s; [apply sub_nil | cbn in Hlen; lia].
  - destruct s as [|c t]; [apply sub_nil|].
    destruct (match_at key (c :: t)) as [[ds rest]|] eqn:E.
    + rewrite (findall_match _ _ _ _ E) in Hf. discriminate.
    + rewrite (findall_skip1 _ _ _ E) in Hf. rewrite (sub_skip1 _ _ _ _ E).
      f_equal. apply IH; [cbn in Hlen; lia | exact Hf].
Qed.

(** A text in which the pattern has no match is left as it is. *)
Lemma sub_no_match (key r s : text) : findall key s = [] -> sub key r s = s.
Proof. apply (sub_no_match_bounded key r (length s)). lia. Qed.

Lemma core_values_nil (key content : text) :
  core_values key content = [] <-> findall key content = [].
Proof.
  unfold core_values. split; intros H.
  - destruct (findall key content); [reflexivity | discriminate].
  - rewrite H. reflexivity.
Qed.

End CoreCountMore.

(** X4: [set_num_cores] on a plan file that has a D2 core-count line, for
    a core count [n >= 0]: the call returns, only the plan file is
    rewritten, and in the new content every D2 line holds [n] and every D1
    and PS line holds 1 when [n] is 2 and [n] otherwise. *)
Theorem set_num_cores_on_file (fs : fsys) (plan_file content : text) (n : Z) :
  fs !! plan_file = Some content ->
  (0 <= n)%Z ->
  core_values d2_cores_key content <> [] ->
  exists content',
    set_num_cores plan_file n fs = (Ok tt, <[plan_file := content']> fs) /\
    core_values d2_cores_key content' = map (fun _ => n) (core_values d2_cores_key content) /\
    core_values d1_cores_key content'
      = map (fun _ => if (n =? 2)%Z then 1%Z else n) (core_values d1_cores_key content) /\
    core_values ps_cores_key content'
      = map (fun _ => if (n =? 2)%Z then 1%Z else n) (core_values ps_cores_key content).
Proof.
  intros Hf Hn Hd2. exists (set_num_cores_text content n).
  split; [apply set_num_cores_writes; exact Hf|].
  apply set_num_cores_rule; assumption.
Qed.

Lemma set_num_cores_on_file_witness :
  let fs : fsys := {[lit "Muncie.p01" := demo_plan]} in
  fs !! lit "Muncie.p01" = Some demo_plan /\
  (0 <= 2)%Z /\
  core_values d2_cores_key demo_plan <> [] /\
  exists content',
    set_num_cores (lit "Muncie.p01") 2 fs = (Ok tt, <[lit "Muncie.p01" := content']> fs) /\
    core_values d2_cores_key content' = map (fun _ => 2%Z) (core_values d2_cores_key demo_plan).
Proof.
  intros fs.
  assert (fs !! lit "Muncie.p01" = Some demo_plan) as Hf by apply lookup_singleton_eq.
  assert (0 <= 2)%Z as Hn by lia.
  assert (core_values d2_cores_key demo_plan <> []) as Hd2 by (vm_compute; discriminate).
  split; [exact Hf|]. split; [exact Hn|]. split; [exact Hd2|].
  destruct (set_num_cores_on_file fs (lit "Muncie.p01") demo_plan 2 Hf Hn Hd2)
    as (content' & Hw & H2 & _).
  exists content'. split; assumption.
Defined.

(** X5: the special case for 2 cores hangs on the D2 line.  On a plan
    without a D2 core-count line the search finds nothing, and every D1
    and PS line is set to [n], also when [n] is 2. *)
Theorem set_num_cores_without_d2_line (content : text) (n : Z) :
  (0 <= n)%Z ->
  core_values d2_cores_key content = [] ->
  core_values d2_cores_key (set_num_cores_text content n) = [] /\
  core_values d1_cores_key (set_num_cores_text content n)
    = map (fun _ => n) (core_values d1_cores_key content) /\
  core_values ps_cores_key (set_num_cores_text content n)
    = map (fun _ => n) (core_values ps_cores_key content).
Proof.
  intros Hn Hd2. apply core_values_nil in Hd2.
  destruct (str_nonneg n Hn) as (Hne & Hds & Hval).
  unfold set_num_cores_text.
  rewrite (sub_no_match d2_cores_key (Py.str n) content Hd2).
  rewrite ReFacts.search_findall, Hd2. cbn [d2_is_two].
  unfold core_values. split; [|split].
  - rewrite sub_ps_keeps_d2, sub_d1_keeps_d2 by exact Hds. rewrite Hd2. reflexivity.
  - rewrite sub_ps_keeps_d1 by exact Hds. rewrite sub_d1_reads_d1 by assumption.
    rewrite !map_map, Hval. reflexivity.
  - rewrite sub_ps_reads_ps by assumption. rewrite sub_d1_keeps_ps by exact Hds.
    rewrite !map_map, Hval. reflexivity.
Qed.

Lemma set_num_cores_without_d2_line_witness :
  let content := lit "UNET D1 Cores= 0" ++ [newline] ++ lit "PS Cores= 3" ++ [newline] in
  (0 <= 2)%Z /\
  core_values d2_cores_key content = [] /\
  core_values d1_cores_key content = [0%Z] /\
  core_values d1_cores_key (set_num_cores_text content 2)
    = map (fun _ => 2%Z) (core_values d1_cores_key content).
Proof.
  intros content.
  assert (0 <= 2)%Z as Hn by lia.
  assert (core_values d2_cores_key content = []) as Hd2 by vm_refl.
  split; [exact Hn|]. split; [exact Hd2|]. split; [vm_refl|].
  exact (proj1 (proj2 (set_num_cores_without_d2_line content 2 Hn Hd2))).
Defined.



(** ** Lines of a text *)

Module LineFacts.
Import Py.

Lemma lines_ok_cons (l : text) (rest : list text) :
  terminated l -> lines_ok rest -> lines_ok (l :: rest).
Proof. intros Hl Hr. destruct rest; cbn; [left; exact Hl | split; assumption]. Qed.

Lemma lines_ok_tail (l : text) (rest : list text) : lines_ok (l :: rest) -> lines_ok rest.
Proof. destruct rest; cbn; [tauto | intros [_ H]; exact H]. Qed.

Lemma free_of_rev (c : ascii) (s : text) : free_of c (rev s) = free_of c s.
Proof. unfold free_of. apply forallb_rev. Qed.

Lemma readlines_aux_ok (s : text) : forall cur,
  free_of newline cur = true -> lines_ok (Os.readlines_aux cur s).
Proof.
  induction s as [|c s IH]; intros cur Hcur; cbn [Os.readlines_aux].
  - destruct cur as [|x cur]; [exact I|]. cbn [lines_ok]. right. split.
    + intros E. apply (f_equal (@length ascii)) in E. rewrite length_rev in E. discriminate.
    + rewrite free_of_rev. exact Hcur.
  - destruct (Ascii.eqb c newline) eqn:E.
    + apply Ascii.eqb_eq in E. subst c. apply lines_ok_cons; [|apply IH; reflexivity].
      exists (rev cur). split; [reflexivity | rewrite free_of_rev; exact Hcur].
    + apply IH. cbn. rewrite E. exact Hcur.
Qed.

(** What [readlines] returns has the shape of lines. *)
Lemma readlines_ok (t : text) : lines_ok (Os.readlines t).
Proof. apply readlines_aux_ok. reflexivity. Qed.

Lemma readlines_aux_free (body : text) : forall cur s,
  free_of newline body = true ->
  Os.readlines_aux cur (body ++ s) = Os.readlines_aux (rev body ++ cur) s.
Proof.
  induction body as [|c body IH]; intros cur s H; [reflexivity|].
  cbn in H. apply andb_true_iff in H as [Hc Hb]. apply negb_true_iff in Hc.
  cbn [app Os.readlines_aux]. rewrite Hc. rewrite IH by exact Hb.
  cbn [rev]. rewrite <- app_assoc. reflexivity.
Qed.

Lemma readlines_terminated (l : text) (s : text) :
  terminated l -> Os.readlines (l ++ s) = l :: Os.readlines s.
Proof.
  intros (body & -> & Hb). unfold Os.readlines. rewrite <- app_assoc.
  rewrite readlines_aux_free by exact Hb. cbn [app Os.readlines_aux].
  rewrite Ascii.eqb_refl. rewrite app_nil_r. cbn [rev]. rewrite rev_involutive. reflexivity.
Qed.

(** Lines of that shape are read back as they were written. *)
Lemma readlines_writelines (ls : list text) :
  lines_ok ls -> Os.readlines (Os.writelines ls) = ls.
Proof.
  unfold Os.writelines. induction ls as [|l rest IH]; intros H; [reflexivity|].
  cbn [concat]. destruct rest as [|l' rest'].
  - cbn [concat]. destruct H as [H | [Hne Hfree]].
    + rewrite readlines_terminated by exact H. reflexivity.
    + rewrite app_nil_r. unfold Os.readlines.
      rewrite <- (app_nil_r l) at 1. rewrite readlines_aux_free by exact Hfree.
      cbn [Os.readlines_aux]. rewrite app_nil_r.
      destruct (rev l) eqn:E.
      * apply (f_equal (@rev ascii)) in E. rewrite rev_involutive in E. cbn in E. congruence.
      * rewrite <- E, rev_involutive. reflexivity.
  - destruct H as [Hl Hrest]. rewrite readlines_terminated by exact Hl.
    rewrite IH by exact Hrest. reflexivity.
Qed.

(** Replacing lines by terminated lines keeps the shape. *)
Lemma lines_ok_map (f : text -> text) (ls : list text) :
  (forall l, f l = l \/ terminated (f l)) -> lines_ok ls -> lines_ok (map f ls).
Proof.
  intros Hf. induction ls as [|l rest IH]; intros H; [exact I|].
  cbn [map]. destruct rest as [|l' rest'].
  - cbn [map lines_ok] in *. destruct (Hf l) as [-> | Ht]; [exact H | left; exact Ht].
  - destruct H as [Hl Hrest]. apply lines_ok_cons; [|apply IH; exact Hrest].
    destruct (Hf l) as [-> | Ht]; assumption.
Qed.

End LineFacts.

(** ** Precomputation flags *)

Section GeompreFlags.
Import Py LineFacts.

Lemma geompre_line_shape (a b : Z) (l : text) :
  flag_ok a = true -> flag_ok b = true ->
  (geompre_line a b l = l \/ terminated (geompre_line a b l)) /\
  geompre_line a b (geompre_line a b l) = geompre_line a b l.
Proof.
  intros Ha Hb. apply flag_ok_iff in Ha. apply flag_ok_iff in Hb.
  assert (geompre_line a b l
          = if startswith (lit "Run HTab=") (strip l)
            then lit "Run HTab= " ++ str a ++ lit " " ++ [newline]
            else if startswith (lit "UNET Use Existing IB Tables=") (strip l)
            then lit "UNET Use Existing IB Tables= " ++ str b ++ lit " " ++ [newline]
            else l) as Hl by reflexivity.
  destruct (startswith (lit "Run HTab=") (strip l)) eqn:E1.
  - rewrite Hl. split.
    + right. destruct Ha as [-> | ->].
      * exists (lit "Run HTab= 0 "). split; reflexivity.
      * exists (lit "Run HTab= -1 "). split; reflexivity.
    + destruct Ha as [-> | ->]; destruct Hb as [-> | ->]; vm_refl.
  - destruct (startswith (lit "UNET Use Existing IB Tables=") (strip l)) eqn:E2.
    + rewrite Hl. split.
      * right. destruct Hb as [-> | ->].
        -- exists (lit "UNET Use Existing IB Tables= 0 "). split; reflexivity.
        -- exists (lit "UNET Use Existing IB Tables= -1 "). split; reflexivity.
      * destruct Ha as [-> | ->]; destruct Hb as [-> | ->]; vm_refl.
    + rewrite Hl. split; [left; reflexivity|]. unfold geompre_line. rewrite E1, E2. reflexivity.
Qed.

End GeompreFlags.

(** X7: [update_geompre_flags] is idempotent and local: after a call that
    returned, the same call again returns and leaves the store as it is,
    and the first call changed no file other than [file_path]. *)
Theorem update_geompre_flags_idempotent
    (fs fs1 : fsys) (file_path : text) (run_htab_value use_ib_tables_value : Z) :
  update_geompre_flags file_path run_htab_value use_ib_tables_value fs = (Ok tt, fs1) ->
  update_geompre_flags file_path run_htab_value use_ib_tables_value fs1 = (Ok tt, fs1) /\
  (forall q, q <> file_path -> fs1 !! q = fs !! q).
Proof.
  unfold update_geompre_flags.
  destruct (flag_ok run_htab_value) eqn:Ha; [|discriminate].
  destruct (flag_ok use_ib_tables_value) eqn:Hb; [|discriminate].
  cbn [negb]. unfold io_bind, Os.read_text, Os.write_text.
  destruct (fs !! file_path) as [t|] eqn:Ht; [|discriminate].
  intros [= <-]. split.
  - rewrite lookup_insert_eq.
    rewrite LineFacts.readlines_writelines.
    + rewrite map_map.
      rewrite (map_ext _ (geompre_line run_htab_value use_ib_tables_value)).
      * rewrite insert_insert_eq. reflexivity.
      * intros l. apply geompre_line_shape; assumption.
    + apply LineFacts.lines_ok_map; [|apply LineFacts.readlines_ok].
      intros l. apply geompre_line_shape; assumption.
  - intros q Hq. apply lookup_insert_ne. congruence.
Qed.

Lemma update_geompre_flags_idempotent_witness :
  let fs : fsys := {[lit "Muncie.p01" := demo_plan]} in
  let fs1 : fsys :=
    {[lit "Muncie.p01" :=
        concat (map (fun s => lit s ++ [newline])
          ["Plan Title=Unsteady"; "Geom File=g01"; "Flow File=u01";
           "UNET D1 Cores= 0"; "UNET D2 Cores= 8"; "PS Cores= 3"; "Run HTab= -1 "]%string)]} in
  update_geompre_flags (lit "Muncie.p01") (-1) 0 fs = (Ok tt, fs1) /\
  update_geompre_flags (lit "Muncie.p01") (-1) 0 fs1 = (Ok tt, fs1).
Proof.
  intros fs fs1.
  assert (update_geompre_flags (lit "Muncie.p01") (-1) 0 fs = (Ok tt, fs1)) as H by vm_refl.
  split; [exact H|].
  exact (proj1 (update_geompre_flags_idempotent fs fs1 (lit "Muncie.p01") (-1) 0 H)).
Defined.

(** ** Rewiring a plan *)

Section Rewire.
Import Py LineFacts.

Lemma free_of_drop_while (c : ascii) (p : ascii -> bool) (l : text) :
  free_of c l = true -> free_of c (drop_while p l) = true.
Proof.
  induction l as [|x l IH]; cbn; [reflexivity|]. intros H.
  destruct (p x); [|exact H]. apply andb_true_iff in H as [_ H]. apply IH. exact H.
Qed.

Lemma lstrip_terminated (body : text) :
  free_of newline body = true ->
  drop_while isspace (body ++ [newline]) = [] \/
  exists body', drop_while isspace (body ++ [newline]) = body' ++ [newline] /\
                free_of newline body' = true.
Proof.
  induction body as [|x body IH]; intros H.
  - left. reflexivity.
  - cbn [app drop_while]. destruct (isspace x).
    + apply IH. cbn in H. apply andb_true_iff in H as [_ H]. exact H.
    + right. exists (x :: body). split; [reflexivity | exact H].
Qed.

Lemma rstrip_free (x : text) : free_of newline x = true -> free_of newline (rstrip x) = true.
Proof.
  intros H. unfold rstrip. rewrite free_of_rev. apply free_of_drop_while.
  rewrite free_of_rev. exact H.
Qed.

(** Stripping a line removes its newline. *)
Lemma strip_free (x : text) : line_shape x -> free_of newline (strip x) = true.
Proof.
  intros [H | (body & -> & H)]; unfold strip, lstrip.
  - apply rstrip_free, free_of_drop_while, H.
  - destruct (lstrip_terminated body H) as [-> | (body' & -> & H')]; [reflexivity|].
    unfold rstrip. rewrite rev_app_distr. cbn [rev app drop_while].
    change (isspace newline) with true. cbv iota.
    rewrite free_of_rev. apply free_of_drop_while. rewrite free_of_rev. exact H'.
Qed.

Lemma line_shape_tail (x : ascii) (t : text) : line_shape (x :: t) -> line_shape t.
Proof.
  intros [H | (body & E & H)].
  - left. cbn in H. apply andb_true_iff in H as [_ H]. exact H.
  - destruct body as [|b body]; cbn in E.
    + injection E as _ ->. left. reflexivity.
    + injection E as _ ->. right. exists body. split; [reflexivity|].
      cbn in H. apply andb_true_iff in H as [_ H]. exact H.
Qed.

Lemma line_shape_newline (t : text) : line_shape (newline :: t) -> t = [].
Proof.
  intros [H | (body & E & H)]; [discriminate H|].
  destruct body as [|b body]; cbn in E.
  - injection E as ->. reflexivity.
  - injection E as <- _. discriminate H.
Qed.

Lemma line_shape_cons (x : ascii) (p : text) :
  Ascii.eqb x newline = false -> line_shape p -> line_shape (x :: p).
Proof.
  intros Hx [H | (body & -> & H)].
  - left. cbn. rewrite Hx. exact H.
  - right. exists (x :: body). split; [reflexivity|]. cbn. rewrite Hx. exact H.
Qed.

(** The pieces of a line between separators have the shape of a line. *)
Lemma split_pieces (c : ascii) (s : text) : line_shape s -> Forall line_shape (split c s).
Proof.
  induction s as [|x s IH]; intros H; cbn [split].
  - constructor; [left; reflexivity | constructor].
  - pose proof (IH (line_shape_tail _ _ H)) as IH'.
    destruct (Ascii.eqb x c).
    + constructor; [left; reflexivity | exact IH'].
    + destruct (split c s) as [|p ps] eqn:E.
      * constructor; [|constructor].
        destruct (Ascii.eqb x newline) eqn:Ex.
        -- apply Ascii.eqb_eq in Ex. subst x. rewrite (line_shape_newline _ H) in H. exact H.
        -- apply line_shape_cons; [exact Ex | left; reflexivity].
      * inversion IH' as [|? ? Hp Hps]; subst. constructor; [|exact Hps].
        destruct (Ascii.eqb x newline) eqn:Ex.
        -- apply Ascii.eqb_eq in Ex. subst x. pose proof (line_shape_newline _ H) as ->.
           cbn in E. injection E as <- _. right. exists []. split; reflexivity.
        -- apply line_shape_cons; assumption.
Qed.

(** An entry of the registry holds no newline. *)
Lemma entry_number_free (line : text) :
  line_shape line -> free_of newline (entry_number line) = true.
Proof.
  intros H. unfold entry_number.
  assert (line_shape (nth 1 (split "=" line) [])) as Hp.
  { pose proof (split_pieces "=" line H) as HF. revert HF. generalize (split "=" line).
    intros l HF. destruct l as [|a [|b l]]; cbn [nth]; try (left; reflexivity).
    inversion HF as [|? ? _ HF']; subst. inversion HF'; subst. assumption. }
  pose proof (strip_free _ Hp) as Hs.
  destruct (strip (nth 1 (split "=" line) [])) as [|y ys]; [reflexivity|].
  cbn in Hs. apply andb_true_iff in Hs as [_ Hs]. exact Hs.
Qed.

Lemma lines_ok_shapes (ls : list text) : lines_ok ls -> Forall line_shape ls.
Proof.
  induction ls as [|l rest IH]; intros H; [constructor|].
  destruct rest as [|l' rest'].
  - constructor; [|constructor]. destruct H as [H | [_ H]]; [right | left]; exact H.
  - destruct H as [Hl Hr]. constructor; [right; exact Hl | apply IH; exact Hr].
Qed.

Lemma entries_free (key : text) (ls : list text) :
  lines_ok ls -> forall e, In e (entries_of key ls) -> free_of newline e = true.
Proof.
  intros H e He. apply lines_ok_shapes in H. unfold entries_of in He.
  apply in_flat_map in He as (line & Hin & He).
  destruct (startswith key line); [|destruct He].
  destruct He as [<- | []]. apply entry_number_free.
  rewrite Forall_forall in H. apply H. apply list_elem_of_In. exact Hin.
Qed.

Lemma startswith_app (p x : text) : startswith p (p ++ x) = true.
Proof.
  induction p as [|a p IH]; [reflexivity|]. cbn. rewrite Ascii.eqb_refl. exact IH.
Qed.

Lemma rewire_twice (key number line : text) :
  rewire key number (rewire key number line) = rewire key number line.
Proof.
  unfold rewire. destruct (startswith key line) eqn:E.
  - rewrite startswith_app. reflexivity.
  - rewrite E. reflexivity.
Qed.

Lemma rewire_shape (key number line : text) :
  free_of newline key = true -> free_of newline number = true ->
  rewire key number line = line \/ terminated (rewire key number line).
Proof.
  intros Hk Hn. unfold rewire. destruct (startswith key line); [right | left; reflexivity].
  exists (key ++ number). split; [rewrite app_assoc; reflexivity|].
  unfold free_of in *. rewrite forallb_app, Hk, Hn. reflexivity.
Qed.

(** Rewriting a plan a second time with the same number changes nothing. *)
Lemma rewire_again (key number t : text) :
  free_of newline key = true -> free_of newline number = true ->
  Os.writelines (map (rewire key number)
     (Os.readlines (Os.writelines (map (rewire key number) (Os.readlines t)))))
  = Os.writelines (map (rewire key number) (Os.readlines t)).
Proof.
  intros Hk Hn. rewrite readlines_writelines.
  - rewrite map_map. f_equal. apply map_ext. intros l. apply rewire_twice.
  - apply lines_ok_map; [|apply readlines_ok]. intros l. apply rewire_shape; assumption.
Qed.

Lemma text_in_free (key number : text) (t : text) :
  text_in number (entries_of key (Os.readlines t)) = true -> free_of newline number = true.
Proof.
  intros H. apply text_in_true in H. apply (entries_free key (Os.readlines t)); [|exact H].
  apply readlines_ok.
Qed.


Lemma apply_geometry_to_plan_run (fs : fsys) (plan_file geometry_number project_file t p : text) :
  fs !! project_file = Some t ->
  text_in geometry_number (entries_of (lit "Geom File=") (Os.readlines t)) = true ->
  fs !! plan_file = Some p ->
  apply_geometry_to_plan plan_file geometry_number project_file fs
  = (Ok tt, <[plan_file := Os.writelines (map (rewire (lit "Geom File=g") geometry_number)
                                              (Os.readlines p))]> fs).
Proof.
  intros Ht Hin Hp. unfold apply_geometry_to_plan, get_geom_entries.
  unfold io_bind, Os.read_text, Os.write_text, io_ret, lift, raise. rewrite Ht.
  destruct (entries_of (lit "Geom File=") (Os.readlines t)) as [|e es]; [discriminate Hin|].
  cbn [column]. rewrite Hin. cbn [negb]. rewrite Hp. reflexivity.
Qed.

Lemma apply_geometry_to_plan_inv (fs fs1 : fsys) (plan_file geometry_number project_file : text) :
  apply_geometry_to_plan plan_file geometry_number project_file fs = (Ok tt, fs1) ->
  exists t p, fs !! project_file = Some t /\
    text_in geometry_number (entries_of (lit "Geom File=") (Os.readlines t)) = true /\
    fs !! plan_file = Some p.
Proof.
  unfold apply_geometry_to_plan, get_geom_entries.
  unfold io_bind, Os.read_text, Os.write_text, io_ret, lift, raise.
  destruct (fs !! project_file) as [t|] eqn:Ht; [|discriminate].
  destruct (entries_of (lit "Geom File=") (Os.readlines t)) as [|e es] eqn:He; [discriminate|].
  cbn [column].
  destruct (text_in geometry_number (e :: es)) eqn:Hin; [|discriminate]. cbn [negb].
  destruct (fs !! plan_file) as [p|] eqn:Hp; [|discriminate].
  intros _. exists t, p. rewrite He. auto.
Qed.

Lemma apply_unsteady_to_plan_run (fs : fsys) (plan_file unsteady_number project_file t p : text) :
  fs !! project_file = Some t ->
  text_in unsteady_number (entries_of (lit "Unsteady File=") (Os.readlines t)) = true ->
  fs !! plan_file = Some p ->
  apply_unsteady_to_plan plan_file unsteady_number project_file fs
  = (Ok tt, <[plan_file := Os.writelines (map (rewire (lit "Flow File=u") unsteady_number)
                                              (Os.readlines p))]> fs).
Proof.
  intros Ht Hin Hp. unfold apply_unsteady_to_plan, get_unsteady_entries.
  unfold io_bind, Os.read_text, Os.write_text, io_ret, lift, raise. rewrite Ht.
  destruct (entries_of (lit "Unsteady File=") (Os.readlines t)) as [|e es]; [discriminate Hin|].
  cbn [column]. rewrite Hin. cbn [negb]. rewrite Hp. reflexivity.
Qed.

Lemma apply_unsteady_to_plan_inv (fs fs1 : fsys) (plan_file unsteady_number project_file : text) :
  apply_unsteady_to_plan plan_file unsteady_number project_file fs = (Ok tt, fs1) ->
  exists t p, fs !! project_file = Some t /\
    text_in unsteady_number (entries_of (lit "Unsteady File=") (Os.readlines t)) = true /\
    fs !! plan_file = Some p.
Proof.
  unfold apply_unsteady_to_plan, get_unsteady_entries.
  unfold io_bind, Os.read_text, Os.write_text, io_ret, lift, raise.
  destruct (fs !! project_file) as [t|] eqn:Ht; [|discriminate].
  destruct (entries_of (lit "Unsteady File=") (Os.readlines t)) as [|e es] eqn:He; [discriminate|].
  cbn [column].
  destruct (text_in unsteady_number (e :: es)) eqn:Hin; [|discriminate]. cbn [negb].
  destruct (fs !! plan_file) as [p|] eqn:Hp; [|discriminate].
  intros _. exists t, p. rewrite He. auto.
Qed.

End Rewire.

(** X8: [apply_geometry_to_plan] on a plan file other than the project
    file is idempotent and local: after a call that returned, the same
    call again returns and leaves the store as it is, and the first call
    changed no file other than the plan file. *)
Theorem apply_geometry_idempotent
    (fs fs1 : fsys) (plan_file geometry_number project_file : text) :
  plan_file <> project_file ->
  apply_geometry_to_plan plan_file geometry_number project_file fs = (Ok tt, fs1) ->
  apply_geometry_to_plan plan_file geometry_number project_file fs1 = (Ok tt, fs1) /\
  (forall q, q <> plan_file -> fs1 !! q = fs !! q).
Proof.
  intros Hne H.
  destruct (apply_geometry_to_plan_inv _ _ _ _ _ H) as (t & p & Ht & Hin & Hp).
  pose proof (apply_geometry_to_plan_run _ _ _ _ _ _ Ht Hin Hp) as Hrun.
  assert (fs1 = <[plan_file := Os.writelines (map (rewire (lit "Geom File=g") geometry_number)
                                                 (Os.readlines p))]> fs) as ->
    by congruence.
  split.
  - rewrite (apply_geometry_to_plan_run _ plan_file geometry_number project_file t
               (Os.writelines (map (rewire (lit "Geom File=g") geometry_number) (Os.readlines p)))).
    + rewrite rewire_again.
      * rewrite insert_insert_eq. reflexivity.
      * reflexivity.
      * exact (text_in_free _ _ _ Hin).
    + rewrite lookup_insert_ne by exact Hne. exact Ht.
    + exact Hin.
    + apply lookup_insert_eq.
  - intros q Hq. apply lookup_insert_ne. congruence.
Qed.

Lemma apply_geometry_idempotent_witness :
  let fs : fsys :=
    <[lit "Demo.prj" := lit "Geom File=g01" ++ [newline] ++ lit "Geom File=g02" ++ [newline]]>
      {[lit "Demo.p01" := lit "Plan Title=a" ++ [newline] ++ lit "Geom File=g01" ++ [newline]]} in
  let fs1 : fsys :=
    <[lit "Demo.prj" := lit "Geom File=g01" ++ [newline] ++ lit "Geom File=g02" ++ [newline]]>
      {[lit "Demo.p01" := lit "Plan Title=a" ++ [newline] ++ lit "Geom File=g02" ++ [newline]]} in
  apply_geometry_to_plan (lit "Demo.p01") (lit "02") (lit "Demo.prj") fs = (Ok tt, fs1) /\
  apply_geometry_to_plan (lit "Demo.p01") (lit "02") (lit "Demo.prj") fs1 = (Ok tt, fs1).
Proof.
  intros fs fs1.
  assert (lit "Demo.p01" <> lit "Demo.prj") as Hne by discriminate.
  assert (apply_geometry_to_plan (lit "Demo.p01") (lit "02") (lit "Demo.prj") fs = (Ok tt, fs1))
    as H by vm_refl.
  split; [exact H|].
  exact (proj1 (apply_geometry_idempotent fs fs1 (lit "Demo.p01") (lit "02") (lit "Demo.prj")
                  Hne H)).
Defined.

(** X9: [apply_unsteady_to_plan] on a plan file other than the project
    file is idempotent and local: after a call that returned, the same
    call again returns and leaves the store as it is, and the first call
    changed no file other than the plan file. *)
Theorem apply_unsteady_idempotent
    (fs fs1 : fsys) (plan_file unsteady_number project_file : text) :
  plan_file <> project_file ->
  apply_unsteady_to_plan plan_file unsteady_number project_file fs = (Ok tt, fs1) ->
  apply_unsteady_to_plan plan_file unsteady_number project_file fs1 = (Ok tt, fs1) /\
  (forall q, q <> plan_file -> fs1 !! q = fs !! q).
Proof.
  intros Hne H.
  destruct (apply_unsteady_to_plan_inv _ _ _ _ _ H) as (t & p & Ht & Hin & Hp).
  pose proof (apply_unsteady_to_plan_run _ _ _ _ _ _ Ht Hin Hp) as Hrun.
  assert (fs1 = <[plan_file := Os.writelines (map (rewire (lit "Flow File=u") unsteady_number)
                                                 (Os.readlines p))]> fs) as ->
    by congruence.
  split.
  - rewrite (apply_unsteady_to_plan_run _ plan_file unsteady_number project_file t
               (Os.writelines (map (rewire (lit "Flow File=u") unsteady_number) (Os.readlines p)))).
    + rewrite rewire_again.
      * rewrite insert_insert_eq. reflexivity.
      * reflexivity.
      * exact (text_in_free _ _ _ Hin).
    + rewrite lookup_insert_ne by exact Hne. exact Ht.
    + exact Hin.
    + apply lookup_insert_eq.
  - intros q Hq. apply lookup_insert_ne. congruence.
Qed.

Lemma apply_unsteady_idempotent_witness :
  let fs : fsys :=
    <[lit "Demo.prj" := lit "Unsteady File=u01" ++ [newline] ++ lit "Unsteady File=u02" ++ [newline]]>
      {[lit "Demo.p01" := lit "Plan Title=a" ++ [newline] ++ lit "Flow File=u01" ++ [newline]]} in
  let fs1 : fsys :=
    <[lit "Demo.prj" := lit "Unsteady File=u01" ++ [newline] ++ lit "Unsteady File=u02" ++ [newline]]>
      {[lit "Demo.p01" := lit "Plan Title=a" ++ [newline] ++ lit "Flow File=u02" ++ [newline]]} in
  apply_unsteady_to_plan (lit "Demo.p01") (lit "02") (lit "Demo.prj") fs = (Ok tt, fs1) /\
  apply_unsteady_to_plan (lit "Demo.p01") (lit "02") (lit "Demo.prj") fs1 = (Ok tt, fs1).
Proof.
  intros fs fs1.
  assert (lit "Demo.p01" <> lit "Demo.prj") as Hne by discriminate.
  assert (apply_unsteady_to_plan (lit "Demo.p01") (lit "02") (lit "Demo.prj") fs = (Ok tt, fs1))
    as H by vm_refl.
  split; [exact H|].
  exact (proj1 (apply_unsteady_idempotent fs fs1 (lit "Demo.p01") (lit "02") (lit "Demo.prj")
                  Hne H)).
Defined.

(** ** A copy followed by a rewiring *)

Section CopyThenApply.
Import Py LineFacts.

Lemma digit_val_nonneg (c : ascii) : is_digit c = true -> (0 <= digit_val c)%Z.
Proof. destruct c as [[] [] [] [] [] [] [] []]; vm_compute; congruence. Qed.

Lemma digits_value_nonneg (s : text) : forall acc,
  forallb is_digit s = true -> (0 <= acc)%Z -> (0 <= digits_value acc s)%Z.
Proof.
  induction s as [|c s IH]; intros acc H Hacc; cbn [digits_value]; [exact Hacc|].
  cbn in H. apply andb_true_iff in H as [Hc Hs]. apply IH; [exact Hs|].
  pose proof (digit_val_nonneg c Hc). lia.
Qed.

Lemma match_number_nonneg (key line : text) (n : Z) :
  match_number key line = Some n -> (0 <= n)%Z.
Proof.
  unfold match_number, Re.match_key_digits.
  destruct (Re.prefix_ci key (strip line)) as [rest|]; [|discriminate].
  destruct (Re.digits1 rest) as [[ds r]|] eqn:E; [|discriminate].
  intros [= <-]. apply ReFacts.digits1_inv in E as (_ & _ & Hds & _).
  apply digits_value_nonneg; [exact Hds | lia].
Qed.

Lemma existing_numbers_nonneg (key : text) (lines : list text) :
  Forall (fun k => (0 <= k)%Z) (existing_numbers key lines).
Proof.
  unfold existing_numbers. induction lines as [|l ls IH]; cbn [flat_map]; [constructor|].
  destruct (match_number key l) as [n|] eqn:E; [|exact IH].
  cbn [app]. constructor; [|exact IH]. exact (match_number_nonneg _ _ _ E).
Qed.

Lemma append_next_pos (existing : list Z) :
  Forall (fun k => (0 <= k)%Z) existing -> (1 <= append_next existing)%Z.
Proof.
  destruct existing as [|x l]; intros H; cbn [append_next]; [lia|].
  inversion H; subst. pose proof (list_max_Z_ge l x). lia.
Qed.

Lemma gap_scan_ge (l : list Z) : forall next, (next <= gap_scan next l)%Z.
Proof.
  induction l as [|x l IH]; intros next; cbn [gap_scan]; [lia|].
  destruct (x =? next)%Z; [|lia]. specialize (IH (next + 1)%Z). lia.
Qed.

Lemma gap_fill_next_pos (existing : list Z) : (1 <= gap_fill_next existing)%Z.
Proof. destruct existing; cbn [gap_fill_next]; [lia | apply gap_scan_ge]. Qed.

(** Every line of a text that ends with a newline has its newline. *)
Lemma readlines_aux_terminated (s : text) : forall cur,
  free_of newline cur = true ->
  (cur = [] /\ s = []) \/ (exists body, s = body ++ [newline]) ->
  Forall terminated (Os.readlines_aux cur s).
Proof.
  induction s as [|c s IH]; intros cur Hcur H; cbn [Os.readlines_aux].
  - destruct H as [[-> _] | (body & E)]; [constructor|].
    destruct body; discriminate E.
  - assert (s = [] \/ exists body, s = body ++ [newline]) as Hs.
    { destruct H as [[_ E] | (body & E)]; [discriminate E|].
      destruct body as [|b body]; cbn in E.
      - injection E as _ ->. left. reflexivity.
      - injection E as _ ->. right. exists body. reflexivity. }
    destruct (Ascii.eqb c newline) eqn:Ec.
    + apply Ascii.eqb_eq in Ec. subst c. constructor.
      * exists (rev cur). split; [reflexivity | rewrite free_of_rev; exact Hcur].
      * apply IH; [reflexivity|]. destruct Hs as [-> | Hs]; [left; split; reflexivity | right; exact Hs].
    + apply IH; [cbn; rewrite Ec; exact Hcur|].
      destruct Hs as [-> | Hs]; [|right; exact Hs].
      destruct H as [[_ E] | (body & E)]; [discriminate E|].
      destruct body as [|b body]; cbn in E.
      * injection E as ->. rewrite Ascii.eqb_refl in Ec. discriminate Ec.
      * injection E as _ E. destruct body; discriminate E.
Qed.

Lemma readlines_all_terminated (t : text) :
  newline_ended t -> Forall terminated (Os.readlines t).
Proof.
  intros H. apply readlines_aux_terminated; [reflexivity|].
  destruct H as [-> | H]; [left; split; reflexivity | right; exact H].
Qed.

Lemma terminated_lines_ok (ls : list text) : Forall terminated ls -> lines_ok ls.
Proof.
  induction 1 as [|l rest Hl _ IH]; [exact I|]. apply lines_ok_cons; assumption.
Qed.

Lemma Forall_insert_at {A} (P : A -> Prop) (i : nat) (x : A) (l : list A) :
  P x -> Forall P l -> Forall P (insert_at i x l).
Proof.
  intros Hx Hl. unfold insert_at. apply Forall_app. split.
  - apply Forall_take. exact Hl.
  - constructor; [exact Hx|]. apply Forall_drop. exact Hl.
Qed.

Lemma in_insert_at {A} (i : nat) (x : A) (l : list A) : In x (insert_at i x l).
Proof. unfold insert_at. apply in_or_app. right. left. reflexivity. Qed.

Lemma geom_insert_at (lines : list text) (n : Z) :
  exists i, geom_insert lines n = insert_at i (geom_key ++ format_02d n ++ [newline]) lines.
Proof.
  unfold geom_insert.
  destruct (find_index (geom_stop geom_key n) 0 lines) as [i|]; [exists i; reflexivity|].
  destruct (last_index header_match 0 lines) as [j|]; [exists (j + 2) | exists 0]; reflexivity.
Qed.

Lemma ref_insert_at (key : text) (lines : list text) (n : Z) :
  exists i, ref_insert key lines n = insert_at i (key ++ format_02d n ++ [newline]) lines.
Proof.
  unfold ref_insert.
  destruct (find_index (greater_stop key n) 0 lines) as [i|]; [exists i; reflexivity|].
  destruct (last_index (is_ref_line key) 0 lines) as [j|]; [exists (j + 1); reflexivity|].
  exists (length lines). unfold insert_at. rewrite firstn_all, skipn_all. reflexivity.
Qed.

(** The entry that the [get_*_entries] functions read on a reference line
    of any kind. *)
Lemma entry_number_line (k : text) (c : ascii) (ds ws : text) :
  free_of "=" k = true -> is_letter c = true -> ds <> [] ->
  forallb is_digit ds = true -> forallb isspace ws = true ->
  entry_number (k ++ "="%char :: c :: ds ++ ws) = ds.
Proof.
  intros Hk Hc Hne Hds Hws. unfold entry_number.
  rewrite split_app_sep by exact Hk.
  rewrite split_no_sep.
  2:{ cbn [forallb]. rewrite (letter_not_eq c Hc). cbn [negb andb].
      rewrite forallb_app. apply andb_true_iff. split.
      - apply forallb_forall. intros x Hx. rewrite forallb_forall in Hds.
        rewrite (digit_not_eq x (Hds x Hx)). reflexivity.
      - apply forallb_forall. intros x Hx. rewrite forallb_forall in Hws.
        rewrite (space_not_eq x (Hws x Hx)). reflexivity. }
  cbn [nth].
  destruct (exists_last_digit ds Hne) as (body & d & ->).
  rewrite <- app_assoc. cbn [app].
  rewrite forallb_app in Hds. apply andb_true_iff in Hds as [_ Hd]. cbn in Hd.
  rewrite andb_true_r in Hd.
  rewrite strip_body; [reflexivity | | | exact Hws].
  - apply letter_not_space. exact Hc.
  - apply ReadBack.digit_not_space. exact Hd.
Qed.

Lemma entries_of_in (key x : text) (ls : list text) :
  In x ls -> startswith key x = true -> In (entry_number x) (entries_of key ls).
Proof.
  intros Hin Hk. unfold entries_of. apply in_flat_map. exists x. split; [exact Hin|].
  rewrite Hk. left. reflexivity.
Qed.

Lemma in_text_in (x : text) (l : list text) : In x l -> text_in x l = true.
Proof.
  intros H. unfold text_in. apply existsb_exists. exists x. split; [exact H|].
  apply bool_decide_eq_true. reflexivity.
Qed.

(** After a reference line with a non-negative number has been inserted
    into the lines of a newline-ended project file and the lines written,
    the registry read back holds the number. *)
Lemma inserted_number_registered (k : text) (c : ascii) (t : text) (i : nat) (n : Z) :
  free_of "=" k = true -> free_of newline k = true -> is_letter c = true ->
  newline_ended t -> (0 <= n)%Z ->
  text_in (format_02d n)
    (entries_of (k ++ ["="%char])
       (Os.readlines (Os.writelines
          (insert_at i ((k ++ ["="%char; c]) ++ format_02d n ++ [newline]) (Os.readlines t)))))
  = true.
Proof.
  intros Hk Hkn Hc Ht Hn.
  assert (forallb is_digit (format_02d n) = true) as Hds by (apply ReadBack.format_02d_digits; exact Hn).
  assert (terminated ((k ++ ["="%char; c]) ++ format_02d n ++ [newline])) as Hnew.
  { exists ((k ++ ["="%char; c]) ++ format_02d n). split; [rewrite <- !app_assoc; reflexivity|].
    unfold free_of in *. rewrite !forallb_app, Hkn. cbn [forallb andb].
    assert (Ascii.eqb c newline = false) as ->
      by (destruct c as [[] [] [] [] [] [] [] []]; vm_compute in Hc |- *; congruence).
    cbn [negb andb]. apply forallb_forall. intros x Hx.
    rewrite forallb_forall in Hds. specialize (Hds x Hx).
    destruct x as [[] [] [] [] [] [] [] []]; vm_compute in Hds |- *; congruence. }
  rewrite readlines_writelines.
  2:{ apply terminated_lines_ok, Forall_insert_at; [exact Hnew|].
      apply readlines_all_terminated. exact Ht. }
  apply in_text_in.
  set (new_line := (k ++ ["="%char; c]) ++ format_02d n ++ [newline]).
  assert (entry_number new_line = format_02d n) as He.
  { unfold new_line.
    replace ((k ++ ["="%char; c]) ++ format_02d n ++ [newline])
      with (k ++ "="%char :: c :: format_02d n ++ [newline])
      by (rewrite <- !app_assoc; reflexivity).
    apply entry_number_line;
      [exact Hk | exact Hc | apply ReadBack.format_02d_nonempty | exact Hds | reflexivity]. }
  rewrite <- He. apply entries_of_in; [apply in_insert_at|].
  unfold new_line.
  replace ((k ++ ["="%char; c]) ++ format_02d n ++ [newline])
    with ((k ++ ["="%char]) ++ c :: format_02d n ++ [newline])
    by (rewrite <- !app_assoc; reflexivity).
  apply startswith_app.
Qed.

Variable path_stem : text -> text.
Variable path_join : text -> text -> text.

Lemma write_text_inv (p t : text) (fs fs1 : fsys) (u : unit) :
  Os.write_text p t fs = (Ok u, fs1) -> fs1 = <[p := t]> fs.
Proof. unfold Os.write_text. congruence. Qed.

(** What a successful [copy_unsteady_from_template] read, returned and
    wrote to the project file. *)
Lemma copy_unsteady_inv (project_folder project_file template_unsteady : text)
    (fs fs' : fsys) (id : text) :
  copy_unsteady_from_template path_stem path_join project_folder project_file
    template_unsteady fs = (Ok id, fs') ->
  exists t n, fs !! project_file = Some t /\
    n = append_next (existing_numbers unsteady_key (Os.readlines t)) /\
    id = lit "u" ++ format_02d n /\
    fs' !! project_file
    = Some (Os.writelines (ref_insert unsteady_key (Os.readlines t) n)).
Proof.
  unfold copy_unsteady_from_template. intros H.
  apply io_bind_ok in H as (found & fs1 & H1 & H). apply isfile_inv in H1 as ->.
  destruct found; [|discriminate H]. cbv beta iota delta [negb] in H.
  apply io_bind_ok in H as (t & fs1 & H1 & H). apply read_text_inv in H1 as [-> Ht].
  apply io_bind_ok in H as (u1 & fs1 & _ & H).
  apply io_bind_ok in H as (found_hdf & fs2 & _ & H).
  apply io_bind_ok in H as (u2 & fs3 & _ & H).
  apply io_bind_ok in H as (u3 & fs4 & H4 & H).
  apply write_text_inv in H4 as ->.
  apply io_ret_inv in H as [-> ->].
  exists t, (append_next (existing_numbers unsteady_key (Os.readlines t))).
  split; [exact Ht|]. split; [reflexivity|]. split; [reflexivity|].
  apply lookup_insert_eq.
Qed.

(** The same for [copy_geometry_from_template]. *)
Lemma copy_geometry_inv (project_folder project_file template_geom : text)
    (fs fs' : fsys) (id : text) :
  copy_geometry_from_template path_stem path_join project_folder project_file
    template_geom fs = (Ok id, fs') ->
  exists t n, fs !! project_file = Some t /\
    n = gap_fill_next (existing_numbers geom_key (Os.readlines t)) /\
    id = lit "g" ++ format_02d n /\
    fs' !! project_file = Some (Os.writelines (geom_insert (Os.readlines t) n)).
Proof.
  unfold copy_geometry_from_template. intros H.
  apply io_bind_ok in H as (found & fs1 & H1 & H). apply isfile_inv in H1 as ->.
  destruct found; [|discriminate H]. cbv beta iota delta [negb] in H.
  apply io_bind_ok in H as (found_hdf & fs1 & H1 & H). apply isfile_inv in H1 as ->.
  destruct found_hdf; [|discriminate H]. cbv beta iota delta [negb] in H.
  apply io_bind_ok in H as (t & fs1 & H1 & H). apply read_text_inv in H1 as [-> Ht].
  apply io_bind_ok in H as (u1 & fs1 & _ & H).
  apply io_bind_ok in H as (u2 & fs2 & _ & H).
  apply io_bind_ok in H as (u3 & fs3 & H3 & H).
  apply write_text_inv in H3 as ->.
  apply io_ret_inv in H as [-> ->].
  exists t, (gap_fill_next (existing_numbers geom_key (Os.readlines t))).
  split; [exact Ht|]. split; [reflexivity|]. split; [reflexivity|].
  apply lookup_insert_eq.
Qed.

End CopyThenApply.

(** X10: after [copy_unsteady_from_template] has returned on a project
    file that was empty or ended with a newline, the number it allocated
    is registered: [apply_unsteady_to_plan] called with the returned
    identifier without its letter [u], on a plan file that exists, passes
    the validation and returns. *)
Theorem copied_unsteady_number_accepted
    (path_stem : text -> text) (path_join : text -> text -> text)
    (project_folder project_file template_unsteady plan_file id t p : text) (fs0 fs : fsys) :
  copy_unsteady_from_template path_stem path_join project_folder project_file
    template_unsteady fs0 = (Ok id, fs) ->
  fs0 !! project_file = Some t ->
  newline_ended t ->
  fs !! plan_file = Some p ->
  hd_error id = Some "u"%char /\
  exists fs', apply_unsteady_to_plan plan_file (tl id) project_file fs = (Ok tt, fs').
Proof.
  intros Hcopy Ht Hend Hp.
  destruct (copy_unsteady_inv _ _ _ _ _ _ _ _ Hcopy) as (t' & n & Ht' & Hn & -> & Hfs).
  assert (t' = t) as -> by congruence.
  split; [reflexivity|].
  destruct (ref_insert_at unsteady_key (Os.readlines t) n) as (i & Hi).
  rewrite Hi in Hfs.
  eexists. apply (apply_unsteady_to_plan_run fs plan_file _ project_file _ p Hfs); [|exact Hp].
  cbn [tl lit list_ascii_of_string app].
  apply (inserted_number_registered (lit "Unsteady File") "u"%char t i n);
    [reflexivity | reflexivity | reflexivity | exact Hend |].
  subst n. pose proof (append_next_pos _ (existing_numbers_nonneg unsteady_key (Os.readlines t))).
  lia.
Qed.

Lemma copied_unsteady_number_accepted_witness :
  let project_file := lit "Muncie.prj" in
  let plan_file := lit "proj/Muncie.p01" in
  let t := lit "Proj Title=Muncie" ++ [newline] ++ lit "Unsteady File=u01" ++ [newline] in
  let p := lit "Flow File=u01" ++ [newline] in
  let fs0 : fsys :=
    <[project_file := t]>
      (<[lit "proj/Muncie.u01" := lit "flow"]> (<[plan_file := p]> ∅)) in
  let fs : fsys :=
    <[project_file := lit "Proj Title=Muncie" ++ [newline] ++ lit "Unsteady File=u01" ++ [newline]
                      ++ lit "Unsteady File=u02" ++ [newline]]>
      (<[lit "proj/Muncie.u02" := lit "flow"]> fs0) in
  copy_unsteady_from_template demo_stem demo_join (lit "proj") project_file (lit "u01") fs0
    = (Ok (lit "u02"), fs) /\
  exists fs', apply_unsteady_to_plan plan_file (lit "02") project_file fs = (Ok tt, fs').
Proof.
  intros project_file plan_file t p fs0 fs.
  assert (copy_unsteady_from_template demo_stem demo_join (lit "proj") project_file (lit "u01") fs0
          = (Ok (lit "u02"), fs)) as Hcopy by vm_refl.
  assert (fs0 !! project_file = Some t) as Ht by vm_refl.
  assert (newline_ended t) as Hend
    by (right; exists (lit "Proj Title=Muncie" ++ [newline] ++ lit "Unsteady File=u01");
        reflexivity).
  assert (fs !! plan_file = Some p) as Hp by vm_refl.
  split; [exact Hcopy|].
  exact (proj2 (copied_unsteady_number_accepted demo_stem demo_join (lit "proj") project_file
                  (lit "u01") plan_file (lit "u02") t p fs0 fs Hcopy Ht Hend Hp)).
Defined.

(** X11: after [copy_geometry_from_template] has returned on a project
    file that was empty or ended with a newline, the number it allocated
    is registered: [apply_geometry_to_plan] called with the returned
    identifier without its letter [g], on a plan file that exists, passes
    the validation and returns. *)
Theorem copied_geometry_number_accepted
    (path_stem : text -> text) (path_join : text -> text -> text)
    (project_folder project_file template_geom plan_file id t p : text) (fs0 fs : fsys) :
  copy_geometry_from_template path_stem path_join project_folder project_file
    template_geom fs0 = (Ok id, fs) ->
  fs0 !! project_file = Some t ->
  newline_ended t ->
  fs !! plan_file = Some p ->
  hd_error id = Some "g"%char /\
  exists fs', apply_geometry_to_plan plan_file (tl id) project_file fs = (Ok tt, fs').
Proof.
  intros Hcopy Ht Hend Hp.
  destruct (copy_geometry_inv _ _ _ _ _ _ _ _ Hcopy) as (t' & n & Ht' & Hn & -> & Hfs).
  assert (t' = t) as -> by congruence.
  split; [reflexivity|].
  destruct (geom_insert_at (Os.readlines t) n) as (i & Hi).
  rewrite Hi in Hfs.
  eexists. apply (apply_geometry_to_plan_run fs plan_file _ project_file _ p Hfs); [|exact Hp].
  cbn [tl lit list_ascii_of_string app].
  apply (inserted_number_registered (lit "Geom File") "g"%char t i n);
    [reflexivity | reflexivity | reflexivity | exact Hend |].
  subst n. pose proof (gap_fill_next_pos (existing_numbers geom_key (Os.readlines t))).
  lia.
Qed.

Lemma copied_geometry_number_accepted_witness :
  let project_file := lit "Muncie.prj" in
  let plan_file := lit "proj/Muncie.p01" in
  let t := lit "Proj Title=Muncie" ++ [newline] ++ lit "Geom File=g01" ++ [newline] in
  let p := lit "Geom File=g01" ++ [newline] in
  let fs0 : fsys :=
    <[project_file := t]>
      (<[lit "proj/Muncie.g01" := lit "geometry"]>
         (<[lit "proj/Muncie.g01.hdf" := lit "tables"]> (<[plan_file := p]> ∅))) in
  let fs : fsys :=
    <[project_file := lit "Proj Title=Muncie" ++ [newline] ++ lit "Geom File=g01" ++ [newline]
                      ++ lit "Geom File=g02" ++ [newline]]>
      (<[lit "proj/Muncie.g02.hdf" := lit "tables"]>
         (<[lit "proj/Muncie.g02" := lit "geometry"]> fs0)) in
  copy_geometry_from_template demo_stem demo_join (lit "proj") project_file (lit "g01") fs0
    = (Ok (lit "g02"), fs) /\
  exists fs', apply_geometry_to_plan plan_file (lit "02") project_file fs = (Ok tt, fs').
Proof.
  intros project_file plan_file t p fs0 fs.
  assert (copy_geometry_from_template demo_stem demo_join (lit "proj") project_file (lit "g01") fs0
          = (Ok (lit "g02"), fs)) as Hcopy by vm_refl.
  assert (fs0 !! project_file = Some t) as Ht by vm_refl.
  assert (newline_ended t) as Hend
    by (right; exists (lit "Proj Title=Muncie" ++ [newline] ++ lit "Geom File=g01");
        reflexivity).
  assert (fs !! plan_file = Some p) as Hp by vm_refl.
  split; [exact Hcopy|].
  exact (proj2 (copied_geometry_number_accepted demo_stem demo_join (lit "proj") project_file
                  (lit "g01") plan_file (lit "g02") t p fs0 fs Hcopy Ht Hend Hp)).
Defined.

(** ** The registry after an append *)

Section AppendRegistry.
Import Py LineFacts.

Lemma prefix_ci_app (p x : text) : Re.prefix_ci p (p ++ x) = Some x.
Proof.
  induction p as [|a p IH]; [reflexivity|]. cbn. rewrite Ascii.eqb_refl. exact IH.
Qed.

(** The line that the copy operations add, read by their pattern. *)
Lemma match_number_new_line (c : ascii) (k : text) (n : Z) :
  isspace c = false -> (0 <= n)%Z ->
  match_number (c :: k) ((c :: k) ++ format_02d n ++ [newline]) = Some n.
Proof.
  intros Hc Hn. unfold match_number, Re.match_key_digits.
  pose proof (ReadBack.format_02d_digits n Hn) as Hds.
  pose proof (ReadBack.format_02d_nonempty n) as Hne.
  assert (strip ((c :: k) ++ format_02d n ++ [newline]) = (c :: k) ++ format_02d n) as ->.
  { destruct (exists_last_digit _ Hne) as (body & d & E). rewrite E in *.
    rewrite forallb_app in Hds. apply andb_true_iff in Hds as [_ Hd]. cbn in Hd.
    rewrite andb_true_r in Hd.
    replace ((c :: k) ++ (body ++ [d]) ++ [newline]) with (c :: (k ++ body) ++ d :: [newline])
      by (cbn; rewrite <- !app_assoc; reflexivity).
    rewrite strip_body; [| exact Hc | apply ReadBack.digit_not_space; exact Hd | reflexivity].
    cbn. rewrite <- !app_assoc. reflexivity. }
  rewrite prefix_ci_app.
  rewrite <- (app_nil_r (format_02d n)) at 1.
  rewrite ReFacts.digits1_app; [| exact Hne | exact Hds | reflexivity].
  rewrite ReadBack.format_02d_value by exact Hn. reflexivity.
Qed.

Lemma find_index_none {A} (f : A -> bool) (l : list A) : forall i,
  Forall (fun x => f x = false) l -> find_index f i l = None.
Proof.
  induction l as [|x l IH]; intros i H; [reflexivity|].
  inversion H as [|? ? Hx Hl]; subst. cbn [find_index]. rewrite Hx. apply IH. exact Hl.
Qed.

Lemma last_index_none {A} (f : A -> bool) (l : list A) : forall i,
  last_index f i l = None -> Forall (fun x => f x = false) l.
Proof.
  induction l as [|x l IH]; intros i H; [constructor|].
  cbn [last_index] in H. destruct (last_index f (S i) l) eqn:E; [discriminate|].
  destruct (f x) eqn:Ex; [discriminate|]. constructor; [exact Ex | exact (IH _ E)].
Qed.

(** The last index splits the list at a line that satisfies the test,
    with none after it. *)
Lemma last_index_split {A} (f : A -> bool) (l : list A) : forall i j,
  last_index f i l = Some j ->
  exists pre x post, l = pre ++ x :: post /\ j = i + length pre /\ f x = true /\
    Forall (fun y => f y = false) post.
Proof.
  induction l as [|x l IH]; intros i j H; [discriminate|].
  cbn [last_index] in H. destruct (last_index f (S i) l) as [j'|] eqn:E.
  - injection H as ->. destruct (IH _ _ E) as (pre & y & post & -> & -> & Hy & Hpost).
    exists (x :: pre), y, post. repeat split; [cbn [length]; lia | exact Hy | exact Hpost].
  - destruct (f x) eqn:Ex; [|discriminate]. injection H as <-.
    exists [], x, l. repeat split; [cbn; lia | exact Ex | exact (last_index_none _ _ _ E)].
Qed.

Lemma existing_numbers_app (key : text) (a b : list text) :
  existing_numbers key (a ++ b) = existing_numbers key a ++ existing_numbers key b.
Proof. unfold existing_numbers. apply flat_map_app. Qed.

Lemma existing_numbers_none (key : text) (l : list text) :
  Forall (fun y => is_ref_line key y = false) l -> existing_numbers key l = [].
Proof.
  unfold existing_numbers, is_ref_line. induction 1 as [|y l Hy _ IH]; [reflexivity|].
  cbn [flat_map]. destruct (match_number key y); [discriminate|]. exact IH.
Qed.

Lemma existing_numbers_in (key : text) (line : text) (lines : list text) (m : Z) :
  In line lines -> match_number key line = Some m -> In m (existing_numbers key lines).
Proof.
  intros Hin Hm. unfold existing_numbers. apply in_flat_map. exists line.
  split; [exact Hin|]. rewrite Hm. left. reflexivity.
Qed.

(** A number above all those of the registry goes after the last
    reference line, or to the end of a file that has none. *)
Lemma ref_insert_appends (c : ascii) (k : text) (lines : list text) (n : Z) :
  isspace c = false -> (0 <= n)%Z ->
  Forall (fun m => (m < n)%Z) (existing_numbers (c :: k) lines) ->
  existing_numbers (c :: k) (ref_insert (c :: k) lines n)
  = existing_numbers (c :: k) lines ++ [n].
Proof.
  intros Hc Hn Hlt. unfold ref_insert.
  rewrite find_index_none.
  2:{ apply Forall_forall. intros line Hin. apply list_elem_of_In in Hin.
      unfold greater_stop. destruct (match_number (c :: k) line) as [m|] eqn:Em; [|reflexivity].
      pose proof (existing_numbers_in _ _ _ _ Hin Em) as Hm.
      rewrite Forall_forall in Hlt. apply list_elem_of_In in Hm. specialize (Hlt _ Hm).
      apply Z.ltb_ge. lia. }
  pose proof (match_number_new_line c k n Hc Hn) as Hnew.
  destruct (last_index (is_ref_line (c :: k)) 0 lines) as [j|] eqn:E.
  - destruct (last_index_split _ _ _ _ E) as (pre & x & post & -> & -> & _ & Hpost).
    unfold insert_at.
    replace (0 + length pre + 1) with (length (pre ++ [x])) by (rewrite length_app; cbn; lia).
    replace (pre ++ x :: post) with ((pre ++ [x]) ++ post) by (rewrite <- app_assoc; reflexivity).
    rewrite firstn_app, Nat.sub_diag, firstn_all. cbn [firstn]. rewrite app_nil_r.
    rewrite drop_app_length.
    rewrite !existing_numbers_app.
    rewrite (existing_numbers_none _ post Hpost), app_nil_r.
    change (?a :: post) with ([a] ++ post). rewrite existing_numbers_app.
    rewrite (existing_numbers_none _ post Hpost), app_nil_r.
    f_equal. unfold existing_numbers. cbn [flat_map]. rewrite Hnew. reflexivity.
  - rewrite existing_numbers_app. f_equal.
    unfold existing_numbers. cbn [flat_map]. rewrite Hnew. reflexivity.
Qed.

Lemma append_next_above (existing : list Z) :
  Forall (fun m => (m < append_next existing)%Z) existing.
Proof.
  destruct existing as [|x l]; [constructor|]. cbn [append_next].
  constructor; [pose proof (list_max_Z_ge l x); lia|].
  eapply Forall_impl; [apply (list_max_Z_upper l x)|]. cbn. intros; lia.
Qed.

(** The line that the copy operations add is a line. *)
Lemma new_line_terminated (key : text) (n : Z) :
  free_of newline key = true -> (0 <= n)%Z ->
  terminated (key ++ format_02d n ++ [newline]).
Proof.
  intros Hk Hn. exists (key ++ format_02d n). split; [rewrite <- app_assoc; reflexivity|].
  unfold free_of in *. rewrite forallb_app, Hk. cbn [andb].
  pose proof (ReadBack.format_02d_digits n Hn) as Hds.
  apply forallb_forall. intros x Hx. rewrite forallb_forall in Hds. specialize (Hds x Hx).
  destruct x as [[] [] [] [] [] [] [] []]; vm_compute in Hds |- *; congruence.
Qed.

(** What was inserted into the lines of a newline-ended file and written
    is read back as it was. *)
Lemma ref_insert_read_back (key : text) (t : text) (n : Z) :
  free_of newline key = true -> (0 <= n)%Z -> newline_ended t ->
  Os.readlines (Os.writelines (ref_insert key (Os.readlines t) n))
  = ref_insert key (Os.readlines t) n.
Proof.
  intros Hk Hn Ht. apply readlines_writelines. apply terminated_lines_ok.
  destruct (ref_insert_at key (Os.readlines t) n) as (i & ->).
  apply Forall_insert_at; [apply new_line_terminated; assumption|].
  apply readlines_all_terminated. exact Ht.
Qed.

End AppendRegistry.

(** X12: [copy_unsteady_from_template] appends to the registry.  After a
    call that returned, on a project file that was empty or ended with a
    newline, the numbers of the unsteady lines of the project file are
    those it had, in their order, followed by the new number, which is
    the one in the returned identifier. *)
Theorem copy_unsteady_appends_number
    (path_stem : text -> text) (path_join : text -> text -> text)
    (project_folder project_file template_unsteady id t : text) (fs0 fs : fsys) :
  copy_unsteady_from_template path_stem path_join project_folder project_file
    template_unsteady fs0 = (Ok id, fs) ->
  fs0 !! project_file = Some t ->
  newline_ended t ->
  exists t' n,
    fs !! project_file = Some t' /\
    id = lit "u" ++ Py.format_02d n /\
    n = append_next (existing_numbers unsteady_key (Os.readlines t)) /\
    existing_numbers unsteady_key (Os.readlines t')
    = existing_numbers unsteady_key (Os.readlines t) ++ [n].
Proof.
  intros Hcopy Ht Hend.
  destruct (copy_unsteady_inv _ _ _ _ _ _ _ _ Hcopy) as (t' & n & Ht' & Hn & -> & Hfs).
  assert (t' = t) as -> by congruence.
  assert (0 <= n)%Z as Hpos.
  { subst n. pose proof (append_next_pos _ (existing_numbers_nonneg unsteady_key (Os.readlines t))).
    lia. }
  exists (Os.writelines (ref_insert unsteady_key (Os.readlines t) n)), n.
  split; [exact Hfs|]. split; [reflexivity|]. split; [exact Hn|].
  rewrite ref_insert_read_back; [| reflexivity | exact Hpos | exact Hend].
  apply (ref_insert_appends "U"%char (lit "nsteady File=u")); [reflexivity | exact Hpos |].
  subst n. apply append_next_above.
Qed.

Lemma copy_unsteady_appends_number_witness :
  let project_file := lit "Muncie.prj" in
  let t := lit "Unsteady File=u03" ++ [newline] ++ lit "Unsteady File=u01" ++ [newline]
           ++ lit "Plan File=p01" ++ [newline] in
  let t' := lit "Unsteady File=u03" ++ [newline] ++ lit "Unsteady File=u01" ++ [newline]
            ++ lit "Unsteady File=u04" ++ [newline] ++ lit "Plan File=p01" ++ [newline] in
  let fs0 : fsys := <[project_file := t]> {[lit "proj/Muncie.u01" := lit "flow"]} in
  let fs : fsys := <[project_file := t']> (<[lit "proj/Muncie.u04" := lit "flow"]> fs0) in
  copy_unsteady_from_template demo_stem demo_join (lit "proj") project_file (lit "u01") fs0
    = (Ok (lit "u04"), fs) /\
  existing_numbers unsteady_key (Os.readlines t') = [3; 1; 4]%Z.
Proof.
  intros project_file t t' fs0 fs.
  assert (copy_unsteady_from_template demo_stem demo_join (lit "proj") project_file (lit "u01") fs0
          = (Ok (lit "u04"), fs)) as Hcopy by vm_refl.
  assert (fs0 !! project_file = Some t) as Ht by vm_refl.
  assert (newline_ended t) as Hend
    by (right; exists (lit "Unsteady File=u03" ++ [newline] ++ lit "Unsteady File=u01"
                         ++ [newline] ++ lit "Plan File=p01"); reflexivity).
  split; [exact Hcopy|].
  destruct (copy_unsteady_appends_number demo_stem demo_join (lit "proj") project_file
              (lit "u01") (lit "u04") t fs0 fs Hcopy Ht Hend) as (t'' & n & Hfs & _ & Hn & Hnums).
  assert (fs !! project_file = Some t') as Hfs' by vm_refl.
  assert (t'' = t') as -> by congruence.
  rewrite Hnums, Hn. vm_refl.
Defined.

(** ** Copies that fail *)

Section FailedCopies.










Variable path_stem : text -> text.
Variable path_join : text -> text -> text.




End FailedCopies.




(** ** The dictionary of tables *)

Section Dictionary.

Lemma extract_fold (lines : list text) (name : text) (tables : list table) :
  forall acc : gmap text (list cell),
  fold_left (fun extracted '(table_name, start, end_) =>
               <[table_name := parse_fixed_width_table lines start end_]> extracted)
            tables acc !! name
  = match last_named name tables with
    | Some (_, start, end_) => Some (parse_fixed_width_table lines start end_)
    | None => acc !! name
    end.
Proof.
  induction tables as [|[[n s] e] rest IH]; intros acc; [reflexivity|].
  cbn [fold_left last_named]. rewrite IH.
  destruct (last_named name rest) as [[[n' s'] e']|]; [reflexivity|].
  destruct (bool_decide (n = name)) eqn:E.
  - apply bool_decide_eq_true in E. subst n. apply lookup_insert_eq.
  - apply bool_decide_eq_false in E. apply lookup_insert_ne. exact E.
Qed.

Lemma extract_from_last (lines : list text) (tables : list table) (name : text) :
  extract_from lines tables !! name
  = match last_named name tables with
    | Some (_, start, end_) => Some (parse_fixed_width_table lines start end_)
    | None => None
    end.
Proof.
  unfold extract_from. rewrite extract_fold.
  destruct (last_named name tables) as [[[n s] e]|]; [reflexivity | apply lookup_empty].
Qed.




End Dictionary.

(** X16: [extract_tables] keeps, for every name, the table declared last.
    After a call that returned, the store is unchanged and the dictionary
    holds under a name the decoding of the last table of that name that
    [identify_tables] found in the file, and nothing under a name that no
    table has; an earlier table of the same name is not in the result. *)
Theorem extract_tables_keeps_last
    (file_path : text) (fs fs' : fsys) (extracted : gmap text (list cell)) :
  extract_tables file_path fs = (Ok extracted, fs') ->
  fs' = fs /\
  exists t tables,
    fs !! file_path = Some t /\
    identify_tables (Os.readlines t) = Ok tables /\
    forall name,
      extracted !! name
      = match last_named name tables with
        | Some (_, start, end_) => Some (parse_fixed_width_table (Os.readlines t) start end_)
        | None => None
        end.
Proof.
  unfold extract_tables. intros H.
  apply io_bind_ok in H as (t & fs1 & H1 & H). apply read_text_inv in H1 as [-> Ht].
  apply io_bind_ok in H as (tables & fs1 & H1 & H).
  unfold lift in H1. injection H1 as Hid <-.
  apply io_ret_inv in H as [-> ->].
  split; [reflexivity|]. exists t, tables. split; [exact Ht|]. split; [exact Hid|].
  intros name. apply extract_from_last.
Qed.

Lemma extract_tables_keeps_last_witness :
  let fs : fsys := {[lit "Muncie.u01" := Os.writelines repeated_tables]} in
  let extracted : gmap text (list cell) :=
    <[lit "Flow Hydrograph=" := float_column [10; 20; 30]%Z]>
      {[lit "Stage Hydrograph=" := float_column []]} in
  extract_tables (lit "Muncie.u01") fs = (Ok extracted, fs) /\
  extracted !! lit "Flow Hydrograph=" = Some (float_column [10; 20; 30]%Z).
Proof.
  intros fs extracted.
  assert (extract_tables (lit "Muncie.u01") fs = (Ok extracted, fs)) as H by vm_refl.
  split; [exact H|].
  destruct (extract_tables_keeps_last (lit "Muncie.u01") fs fs extracted H)
    as (_ & t & tables & Ht & Hid & Hlast).
  assert (fs !! lit "Muncie.u01" = Some (Os.writelines repeated_tables)) as Ht' by vm_refl.
  assert (t = Os.writelines repeated_tables) as -> by congruence.
  assert (identify_tables (Os.readlines (Os.writelines repeated_tables))
          = Ok [(lit "Flow Hydrograph=", 1, 2); (lit "Stage Hydrograph=", 4, 4);
                (lit "Flow Hydrograph=", 6, 7)]%Z) as Hid' by vm_refl.
  assert (tables = [(lit "Flow Hydrograph=", 1, 2); (lit "Stage Hydrograph=", 4, 4);
                    (lit "Flow Hydrograph=", 6, 7)]%Z) as -> by congruence.
  rewrite (Hlast (lit "Flow Hydrograph=")). vm_refl.
Defined.



(** ** Scaling, then writing *)

Section ScaleThenWrite.

Lemma sequence_length {A} (l : list (option A)) : forall r,
  sequence l = Some r -> length r = length l.
Proof.
  induction l as [|[x|] l IH]; intros r; cbn [sequence].
  - intros [= <-]. reflexivity.
  - destruct (sequence l) as [r'|]; [|discriminate]. intros [= <-].
    cbn [length]. f_equal. apply IH. reflexivity.
  - discriminate.
Qed.

(** What [scale_flow_hydrograph] returns when there is a flow
    hydrograph. *)
Lemma scale_flow_hydrograph_inv (tables tables' : gmap text (list cell)) (scale_factor : Q)
    (original_values : list cell) :
  scale_flow_hydrograph tables scale_factor = Ok (tables', Some original_values) ->
  tables !! lit "Flow Hydrograph=" = Some original_values /\
  exists scaled,
    sequence (map (Float.scale_cell scale_factor) original_values) = Some scaled /\
    tables' = <[lit "Flow Hydrograph=" := map CInt scaled]> tables.
Proof.
  unfold scale_flow_hydrograph.
  destruct (tables !! lit "Flow Hydrograph=") as [flow_df|]; [|discriminate].
  destruct (sequence (map (Float.scale_cell scale_factor) flow_df)) as [scaled|] eqn:E;
    [|discriminate].
  intros H. assert (original_values = flow_df) as -> by congruence.
  split; [reflexivity|]. exists scaled. split; [exact E | congruence].
Qed.

Lemma write_table_to_file_ints (file_path table_name t : text) (zs : list Z)
    (start_line : nat) (fs : fsys) :
  fs !! file_path = Some t ->
  write_table_to_file file_path table_name (map CInt zs) start_line fs
  = (Ok tt, <[file_path := Os.writelines
                (firstn start_line (Os.readlines t) ++ table_rows zs
                 ++ skipn (start_line + length (table_rows zs)) (Os.readlines t))]> fs).
Proof.
  intros Ht. unfold write_table_to_file, write_table_lines.
  rewrite CodecFacts.formatted_values_ints.
  unfold io_bind, Os.read_text, lift, Os.write_text. rewrite Ht. reflexivity.
Qed.

End ScaleThenWrite.

(** X18: what [scale_flow_hydrograph] returns can be written.  When it
    returns with original values, these are the flow hydrograph it was
    given, every other table is as it was, and the new flow hydrograph
    holds as many values, all integers; [write_table_to_file] called with
    it on an existing file returns, and writes the file with the lines
    from [start_line] on replaced by one line for every ten values, the
    lines before them and after them kept. *)
Theorem scaled_table_is_written
    (tables tables' : gmap text (list cell)) (scale_factor : Q) (original_values : list cell)
    (file_path table_name t : text) (start_line : nat) (fs : fsys) :
  scale_flow_hydrograph tables scale_factor = Ok (tables', Some original_values) ->
  fs !! file_path = Some t ->
  tables !! lit "Flow Hydrograph=" = Some original_values /\
  (forall name, name <> lit "Flow Hydrograph=" -> tables' !! name = tables !! name) /\
  exists scaled rows,
    tables' !! lit "Flow Hydrograph=" = Some (map CInt scaled) /\
    length scaled = length original_values /\
    Z.of_nat (length rows) = ((Z.of_nat (length original_values) + 9) / 10)%Z /\
    write_table_to_file file_path table_name (map CInt scaled) start_line fs
    = (Ok tt, <[file_path := Os.writelines
                  (firstn start_line (Os.readlines t) ++ rows
                   ++ skipn (start_line + length rows) (Os.readlines t))]> fs).
Proof.
  intros Hscale Ht.
  destruct (scale_flow_hydrograph_inv _ _ _ _ Hscale) as (Horig & scaled & Hseq & ->).
  split; [exact Horig|]. split.
  - intros name Hne. apply lookup_insert_ne. congruence.
  - exists scaled, (table_rows scaled).
    assert (length scaled = length original_values) as Hlen.
    { rewrite (sequence_length _ _ Hseq). apply length_map. }
    split; [apply lookup_insert_eq|]. split; [exact Hlen|]. split.
    + rewrite CodecFacts.table_rows_count, Hlen. reflexivity.
    + apply write_table_to_file_ints. exact Ht.
Qed.

Lemma scaled_table_is_written_witness :
  let tables : gmap text (list cell) :=
    <[lit "Flow Hydrograph=" := float_column [10; 20; 30]%Z]>
      {[lit "Stage Hydrograph=" := float_column [7]%Z]} in
  let tables' : gmap text (list cell) :=
    <[lit "Flow Hydrograph=" := map CInt [15; 30; 45]%Z]>
      {[lit "Stage Hydrograph=" := float_column [7]%Z]} in
  let t := Os.writelines [flow_decl 3; lit "      10      20      30" ++ [newline]] in
  let fs : fsys := {[lit "Muncie.u01" := t]} in
  scale_flow_hydrograph tables (3 # 2) = Ok (tables', Some (float_column [10; 20; 30]%Z)) /\
  write_table_to_file (lit "Muncie.u01") (lit "Flow Hydrograph=") (map CInt [15; 30; 45]%Z) 1 fs
  = (Ok tt, {[lit "Muncie.u01" :=
                Os.writelines [flow_decl 3; lit "      15      30      45" ++ [newline]]]}) /\
  tables !! lit "Flow Hydrograph=" = Some (float_column [10; 20; 30]%Z) /\
  (forall name, name <> lit "Flow Hydrograph=" -> tables' !! name = tables !! name).
Proof.
  intros tables tables' t fs.
  assert (scale_flow_hydrograph tables (3 # 2)
          = Ok (tables', Some (float_column [10; 20; 30]%Z))) as Hscale by vm_refl.
  assert (fs !! lit "Muncie.u01" = Some t) as Ht by vm_refl.
  split; [exact Hscale|]. split; [vm_refl|].
  destruct (scaled_table_is_written tables tables' (3 # 2) (float_column [10; 20; 30]%Z)
              (lit "Muncie.u01") (lit "Flow Hydrograph=") t 1 fs Hscale Ht)
    as (H1 & H2 & _).
  exact (conj H1 H2).
Defined.

(** ** Fields of a line *)

Section Fields.
Import Py ChunkFacts.

Lemma drop_while_length {A} (p : A -> bool) (l : list A) : length (drop_while p l) <= length l.
Proof.
  induction l as [|x l IH]; cbn; [lia|]. destruct (p x); cbn; lia.
Qed.

Lemma strip_length (s : text) : length (strip s) <= length s.
Proof.
  unfold strip, rstrip, lstrip. rewrite length_rev.
  etransitivity; [apply drop_while_length|]. rewrite length_rev. apply drop_while_length.
Qed.

(** A field of at most 8 characters gives at most one value: the branch
    of [parse_fixed_width_table] for longer fields is not reached. *)
Lemma parse_value_field (field : text) :
  length field <= 8 -> length (parse_value (strip field)) <= 1.
Proof.
  intros H. unfold parse_value. pose proof (strip_length field) as Hs.
  destruct (8 <? length (strip field)) eqn:E; [apply Nat.ltb_lt in E; lia|].
  destruct (strip field); [cbn; lia|]. destruct (Float.float _); cbn; lia.
Qed.

Lemma chunks_count_le {A} (n k : nat) : forall (l : list A),
  0 < n -> length l <= k -> n * length (chunks n l) <= length l + (n - 1).
Proof.
  induction k as [|k IH]; intros l Hn Hl.
  - destruct l; [cbn; lia | cbn in Hl; lia].
  - destruct l as [|x l]; [rewrite chunks_nil; cbn; lia|].
    rewrite chunks_step by (try exact Hn; discriminate). cbn [length].
    assert (length (skipn n (x :: l)) <= k) as Hk
      by (rewrite length_skipn; cbn [length] in *; lia).
    specialize (IH _ Hn Hk). rewrite length_skipn in IH. cbn [length] in IH.
    destruct (Nat.le_gt_cases n (S (length l))) as [Hle | Hgt].
    + nia.
    + assert (skipn n (x :: l) = []) as E by (apply skipn_all2; cbn [length]; lia).
      rewrite E, chunks_nil. cbn [length]. nia.
Qed.

Lemma parse_fields_le (fields : list text) :
  Forall (fun c => c <> [] /\ length c <= 8) fields ->
  length (flat_map parse_value (map strip fields)) <= length fields.
Proof.
  induction 1 as [|c cs [_ Hc] _ IH]; [cbn; lia|].
  cbn [map flat_map length]. rewrite length_app.
  pose proof (parse_value_field c Hc). lia.
Qed.

Lemma forallb_concat {A} (p : A -> bool) (ls : list (list A)) :
  forallb p (concat ls) = true -> Forall (fun l => forallb p l = true) ls.
Proof.
  induction ls as [|l ls IH]; cbn [concat]; intros H; [constructor|].
  rewrite forallb_app in H. apply andb_true_iff in H as [Hl Hls].
  constructor; [exact Hl | exact (IH Hls)].
Qed.

Lemma strip_blank (s : text) : forallb isspace s = true -> strip s = [].
Proof.
  intros H. unfold strip, lstrip. rewrite <- (app_nil_r s).
  rewrite drop_while_all by exact H. reflexivity.
Qed.

Lemma parse_blank_fields (fields : list text) :
  Forall (fun l => forallb isspace l = true) fields ->
  flat_map parse_value (map strip fields) = [].
Proof.
  induction 1 as [|c cs Hc _ IH]; [reflexivity|].
  cbn [map flat_map]. rewrite (strip_blank c Hc), IH. reflexivity.
Qed.

End Fields.

(** X19: a line gives at most one value for each of its 8-character
    fields, so the branch of [parse_fixed_width_table] that would read two
    values from one field never runs; and a line of white space gives no
    value. *)
Theorem parse_line_one_value_per_field (line : text) :
  8 * length (parse_line line) <= length line + 7 /\
  (forallb Py.isspace line = true -> parse_line line = []).
Proof.
  unfold parse_line. split.
  - pose proof (parse_fields_le (Py.chunks 8 line)
                  (ChunkFacts.chunks_sizes 8 line ltac:(lia))) as H1.
    pose proof (chunks_count_le 8 (length line) line ltac:(lia) ltac:(lia)) as H2.
    lia.
  - intros H. apply parse_blank_fields. apply forallb_concat.
    rewrite ChunkFacts.concat_chunks by lia. exact H.
Qed.

Lemma parse_line_one_value_per_field_witness :
  parse_line (lit "                " ++ [newline]) = [] /\
  8 * length (parse_line (lit "     1.5     2.5    -3.5" ++ [newline])) <= 25 + 7.
Proof.
  split.
  - apply (proj2 (parse_line_one_value_per_field (lit "                " ++ [newline]))).
    reflexivity.
  - exact (proj1 (parse_line_one_value_per_field (lit "     1.5     2.5    -3.5" ++ [newline]))).
Defined.

(** ** The plan that a copy creates *)

Section NewPlan.


Lemma rename_length (new_plan_shortid : option text) (plan_lines : list text) :
  length (rename_short_identifier new_plan_shortid plan_lines) = length plan_lines.
Proof.
  induction plan_lines as [|line rest IH]; [reflexivity|].
  cbn [rename_short_identifier].
  destruct (Re.prefix_ci (lit "Short Identifier=") (Py.strip line)); [reflexivity|].
  cbn [length]. rewrite IH. reflexivity.
Qed.


Variable path_join : text -> text -> text.


End NewPlan.



(** ** The identifier of an unsteady copy *)

Section UnsteadyIdentifier.
Import Py.

Lemma entries_bare_unsteady (lines : list text) :
  unsteady_lines_wf lines -> Forall bare_number (entries_of (lit "Unsteady File=") lines).
Proof.
  unfold unsteady_lines_wf, entries_of. induction 1 as [|line lines Hl _ IH]; cbn [flat_map].
  - constructor.
  - destruct (startswith (lit "Unsteady File=") line) eqn:E; [|exact IH].
    cbn [app]. constructor; [|exact IH].
    destruct (Hl eq_refl) as (c & ds & ws & Hc & Hne & Hds & Hws & ->).
    change (lit "Unsteady File=" ++ c :: ds ++ ws)
      with (lit "Unsteady File" ++ "="%char :: c :: ds ++ ws).
    rewrite entry_number_line; [split; assumption | reflexivity | assumption ..].
Qed.

(** An identifier that is not among the entries of a non-empty registry:
    [ValueError], and the store is as before. *)
Lemma apply_unsteady_unknown_id (fs : fsys) (plan_file project_file t unsteady_number : text) :
  fs !! project_file = Some t ->
  entries_of (lit "Unsteady File=") (Os.readlines t) <> [] ->
  text_in unsteady_number (entries_of (lit "Unsteady File=") (Os.readlines t)) = false ->
  apply_unsteady_to_plan plan_file unsteady_number project_file fs = (Raise ValueError, fs).
Proof.
  intros Ht Hne Hin. unfold apply_unsteady_to_plan, get_unsteady_entries.
  unfold io_bind, Os.read_text, io_ret, lift, raise. rewrite Ht.
  destruct (entries_of (lit "Unsteady File=") (Os.readlines t)) as [|e es] eqn:E; [congruence|].
  cbn [column]. rewrite Hin. reflexivity.
Qed.

Lemma new_unsteady_line_wf (n : Z) :
  (0 <= n)%Z ->
  startswith (lit "Unsteady File=") (unsteady_key ++ format_02d n ++ [newline]) = true /\
  reference_line (lit "Unsteady File=") (unsteady_key ++ format_02d n ++ [newline]).
Proof.
  intros Hn. split; [reflexivity|].
  exists "u"%char, (format_02d n), [newline].
  split; [reflexivity|]. split; [apply ReadBack.format_02d_nonempty|].
  split; [apply ReadBack.format_02d_digits; exact Hn|]. split; reflexivity.
Qed.

End UnsteadyIdentifier.

(** X21: the identifier that [copy_unsteady_from_template] returns is not
    one that [apply_unsteady_to_plan] accepts.  In a project file that was
    empty or ended with a newline and whose unsteady lines are reference
    lines, [get_unsteady_entries] yields bare numbers after the copy, the
    new one among them; called with the returned identifier, which starts
    with the letter [u], [apply_unsteady_to_plan] raises [ValueError] and
    writes nothing. *)
Theorem returned_unsteady_id_rejected
    (path_stem : text -> text) (path_join : text -> text -> text)
    (project_folder project_file template_unsteady plan_file id t : text) (fs0 fs : fsys) :
  copy_unsteady_from_template path_stem path_join project_folder project_file
    template_unsteady fs0 = (Ok id, fs) ->
  fs0 !! project_file = Some t ->
  newline_ended t ->
  unsteady_lines_wf (Os.readlines t) ->
  exists t',
    fs !! project_file = Some t' /\
    Forall bare_number (entries_of (lit "Unsteady File=") (Os.readlines t')) /\
    In (tl id) (entries_of (lit "Unsteady File=") (Os.readlines t')) /\
    hd_error id = Some "u"%char /\
    apply_unsteady_to_plan plan_file id project_file fs = (Raise ValueError, fs).
Proof.
  intros Hcopy Ht Hend Hwf.
  destruct (copy_unsteady_inv _ _ _ _ _ _ _ _ Hcopy) as (t' & n & Ht' & Hn & -> & Hfs).
  assert (t' = t) as -> by congruence.
  assert (0 <= n)%Z as Hpos.
  { subst n. pose proof (append_next_pos _ (existing_numbers_nonneg unsteady_key (Os.readlines t))).
    lia. }
  exists (Os.writelines (ref_insert unsteady_key (Os.readlines t) n)).
  rewrite ref_insert_read_back; [| reflexivity | exact Hpos | exact Hend].
  destruct (ref_insert_at unsteady_key (Os.readlines t) n) as (i & Hi). rewrite Hi.
  destruct (new_unsteady_line_wf n Hpos) as (Hstart & Hnew).
  assert (Forall bare_number
            (entries_of (lit "Unsteady File=")
               (Py.insert_at i (unsteady_key ++ Py.format_02d n ++ [newline]) (Os.readlines t))))
    as Hbare.
  { apply entries_bare_unsteady. apply Forall_insert_at; [intros _; exact Hnew | exact Hwf]. }
  assert (In (Py.format_02d n)
            (entries_of (lit "Unsteady File=")
               (Py.insert_at i (unsteady_key ++ Py.format_02d n ++ [newline]) (Os.readlines t))))
    as Hin.
  { rewrite <- (entry_number_line (lit "Unsteady File") "u"%char (Py.format_02d n) [newline]) at 1;
      [| reflexivity | reflexivity | apply ReadBack.format_02d_nonempty
       | apply ReadBack.format_02d_digits; exact Hpos | reflexivity].
    apply entries_of_in; [apply in_insert_at | exact Hstart]. }
  split; [rewrite <- Hi; exact Hfs|]. split; [exact Hbare|].
  split; [exact Hin|]. split; [reflexivity|].
  apply (apply_unsteady_unknown_id fs plan_file project_file
           (Os.writelines (ref_insert unsteady_key (Os.readlines t) n))); [exact Hfs | |].
  - rewrite ref_insert_read_back; [| reflexivity | exact Hpos | exact Hend].
    rewrite Hi. intros E. rewrite E in Hin. destruct Hin.
  - rewrite ref_insert_read_back; [| reflexivity | exact Hpos | exact Hend].
    rewrite Hi. cbn [lit list_ascii_of_string app].
    apply text_in_bare; [reflexivity | exact Hbare].
Qed.

Lemma returned_unsteady_id_rejected_witness :
  let project_file := lit "Muncie.prj" in
  let plan_file := lit "proj/Muncie.p01" in
  let t := lit "Proj Title=Muncie" ++ [newline] ++ lit "Unsteady File=u01" ++ [newline] in
  let fs0 : fsys :=
    <[project_file := t]>
      (<[lit "proj/Muncie.u01" := lit "flow"]>
         (<[plan_file := lit "Flow File=u01" ++ [newline]]> ∅)) in
  let fs : fsys :=
    <[project_file := lit "Proj Title=Muncie" ++ [newline] ++ lit "Unsteady File=u01" ++ [newline]
                      ++ lit "Unsteady File=u02" ++ [newline]]>
      (<[lit "proj/Muncie.u02" := lit "flow"]> fs0) in
  copy_unsteady_from_template demo_stem demo_join (lit "proj") project_file (lit "u01") fs0
    = (Ok (lit "u02"), fs) /\
  apply_unsteady_to_plan plan_file (lit "u02") project_file fs = (Raise ValueError, fs).
Proof.
  intros project_file plan_file t fs0 fs.
  assert (copy_unsteady_from_template demo_stem demo_join (lit "proj") project_file (lit "u01") fs0
          = (Ok (lit "u02"), fs)) as Hcopy by vm_refl.
  assert (fs0 !! project_file = Some t) as Ht by vm_refl.
  assert (newline_ended t) as Hend
    by (right; exists (lit "Proj Title=Muncie" ++ [newline] ++ lit "Unsteady File=u01");
        reflexivity).
  assert (unsteady_lines_wf (Os.readlines t)) as Hwf.
  { unfold unsteady_lines_wf. vm_compute Os.readlines. repeat constructor.
    - intros H; vm_compute in H; discriminate H.
    - intros _. exists "u"%char, (lit "01"), [newline].
      repeat split; vm_compute; congruence. }
  split; [exact Hcopy|].
  destruct (returned_unsteady_id_rejected demo_stem demo_join (lit "proj") project_file
              (lit "u01") plan_file (lit "u02") t fs0 fs Hcopy Ht Hend Hwf)
    as (t' & _ & _ & _ & _ & H).
  exact H.
Defined.

(** ** The pieces of a split line *)

Section Pieces.
Import Py.

Lemma split_two (c : ascii) (s : text) : In c s -> 2 <= length (split c s).
Proof.
  induction s as [|x s IH]; intros H; [destruct H|]. cbn [split].
  destruct (Ascii.eqb x c) eqn:E.
  - pose proof (split_nonempty c s). destruct (split c s); [congruence | cbn; lia].
  - destruct H as [-> | H]; [rewrite Ascii.eqb_refl in E; discriminate E|].
    specialize (IH H). destruct (split c s); cbn in *; lia.
Qed.

Lemma in_drop_while {A} (p : A -> bool) (c : A) (l : list A) :
  In c l -> p c = false -> In c (drop_while p l).
Proof.
  induction l as [|x l IH]; intros H Hc; [destruct H|]. cbn [drop_while].
  destruct (p x) eqn:E; [|exact H].
  destruct H as [-> | H]; [congruence | exact (IH H Hc)].
Qed.

Lemma in_strip (c : ascii) (s : text) : In c s -> isspace c = false -> In c (strip s).
Proof.
  intros H Hc. unfold strip, rstrip, lstrip.
  apply in_rev. rewrite rev_involutive. apply in_drop_while; [|exact Hc].
  apply in_rev. rewrite rev_involutive. apply in_drop_while; assumption.
Qed.

Lemma table_line_has_equals (line : text) : is_table_line line = true -> In "="%char line.
Proof.
  unfold is_table_line. intros H. apply existsb_exists in H as (key & Hkey & Hc).
  apply (contains_in key line); [exact Hc|].
  unfold table_types in Hkey. cbn [In] in Hkey.
  repeat (destruct Hkey as [<- | Hkey]; [apply in_rev; left; reflexivity|]).
  destruct Hkey.
Qed.

End Pieces.

(** X22: the functions that take the second piece of a line split at
    [=] never index past the pieces.  A line that starts with one of the
    keys of the [get_*_entries] functions has a second piece, and so has,
    after stripping, a line that holds a table key of [identify_tables]:
    no [IndexError] arises. *)
Theorem second_piece_exists (line : text) :
  (Py.startswith (lit "Plan File=") line = true \/
   Py.startswith (lit "Flow File=") line = true \/
   Py.startswith (lit "Unsteady File=") line = true \/
   Py.startswith (lit "Geom File=") line = true ->
   exists piece, nth_error (Py.split "=" line) 1 = Some piece /\
                 entry_number line = tl (Py.strip piece)) /\
  (is_table_line line = true ->
   exists piece, nth_error (Py.split "=" (Py.strip line)) 1 = Some piece /\
                 num_values_of line = Py.int piece).
Proof.
  assert (forall s, In "="%char s ->
            exists piece, nth_error (Py.split "=" s) 1 = Some piece /\
                          nth 1 (Py.split "=" s) [] = piece) as Hpiece.
  { intros s Hs. pose proof (split_two "=" s Hs) as Hlen.
    destruct (Py.split "=" s) as [|a [|b l]]; cbn in Hlen; try lia.
    exists b. split; reflexivity. }
  split.
  - intros H.
    assert (In "="%char line) as Hin.
    { destruct H as [H | [H | [H | H]]];
        (eapply startswith_in; [exact H|]); apply in_rev; left; reflexivity. }
    destruct (Hpiece line Hin) as (piece & Hnth & Hdef).
    exists piece. split; [exact Hnth|]. unfold entry_number. rewrite Hdef. reflexivity.
  - intros H.
    assert (In "="%char (Py.strip line)) as Hin
      by (apply in_strip; [apply table_line_has_equals; exact H | reflexivity]).
    destruct (Hpiece _ Hin) as (piece & Hnth & Hdef).
    exists piece. split; [exact Hnth|]. unfold num_values_of. rewrite Hdef. reflexivity.
Qed.

Lemma second_piece_exists_witness :
  (exists piece, nth_error (Py.split "=" (lit "Plan File=p03" ++ [newline])) 1 = Some piece /\
                 entry_number (lit "Plan File=p03" ++ [newline]) = tl (Py.strip piece)) /\
  (exists piece, nth_error (Py.split "=" (Py.strip (flow_decl 23))) 1 = Some piece /\
                 num_values_of (flow_decl 23) = Py.int piece).
Proof.
  split.
  - apply (proj1 (second_piece_exists (lit "Plan File=p03" ++ [newline]))).
    left. reflexivity.
  - apply (proj2 (second_piece_exists (flow_decl 23))). reflexivity.
Defined.

(** ** A geometry copy that fills a gap *)

Section GapFill.
Import Py LineFacts.

Lemma ascending_app (a b : list Z) :
  ascending (a ++ b) <->
  ascending a /\ ascending b /\ (forall x y, In x a -> In y b -> (x < y)%Z).
Proof.
  induction a as [|x a IH]; cbn [app ascending].
  - split; [intros H; repeat split; [exact H | intros ? ? []] | intros (_ & H & _); exact H].
  - rewrite IH. rewrite Forall_app. split.
    + intros ((Ha & Hb) & Hasc & Hbsc & Hab). repeat split; try assumption.
      intros u v [<- | Hu] Hv.
      * rewrite Forall_forall in Hb. apply Hb. apply list_elem_of_In. exact Hv.
      * apply Hab; assumption.
    + intros ((Ha & Hasc) & Hbsc & Hab). repeat split; try assumption.
      * apply Forall_forall. intros v Hv. apply list_elem_of_In in Hv.
        apply Hab; [left; reflexivity | exact Hv].
      * intros u v Hu Hv. apply Hab; [right; exact Hu | exact Hv].
Qed.

Lemma ascending_nodup (l : list Z) : ascending l -> List.NoDup l.
Proof.
  induction l as [|x l IH]; intros H; [constructor|]. destruct H as [Hx Hl].
  constructor; [|exact (IH Hl)]. intros Hin. rewrite Forall_forall in Hx.
  apply list_elem_of_In in Hin. specialize (Hx _ Hin). lia.
Qed.

(** The first index splits the list at the first line that satisfies the
    test. *)
Lemma find_index_split {A} (f : A -> bool) (l : list A) : forall i,
  Exists (fun x => f x = true) l ->
  exists pre x post, l = pre ++ x :: post /\
    find_index f i l = Some (i + length pre) /\
    Forall (fun y => f y = false) pre /\ f x = true.
Proof.
  induction l as [|x l IH]; intros i H; [inversion H|]. cbn [find_index].
  destruct (f x) eqn:E.
  - exists [], x, l. repeat split; [f_equal; cbn; lia | constructor | exact E].
  - assert (Exists (fun x => f x = true) l) as H' by (inversion H; [congruence | assumption]).
    destruct (IH (S i) H') as (pre & y & post & -> & Hi & Hpre & Hy).
    exists (x :: pre), y, post. repeat split; [|constructor; assumption | exact Hy].
    rewrite Hi. f_equal. cbn [length]. lia.
Qed.

Lemma existing_numbers_cons (key : text) (x : text) (l : list text) :
  existing_numbers key (x :: l)
  = match match_number key x with Some n => [n] | None => [] end ++ existing_numbers key l.
Proof. reflexivity. Qed.

(** Inserting a free number before the first geometry line whose number
    is not below it keeps an ascending registry ascending. *)
Lemma geom_insert_ascending (lines : list text) (n m : Z) :
  (0 <= n)%Z ->
  ascending (existing_numbers geom_key lines) ->
  ~ In n (existing_numbers geom_key lines) ->
  In m (existing_numbers geom_key lines) -> (n < m)%Z ->
  ascending (existing_numbers geom_key (geom_insert lines n)) /\
  (forall k, In k (existing_numbers geom_key (geom_insert lines n)) <->
             k = n \/ In k (existing_numbers geom_key lines)).
Proof.
  intros Hn Hasc Hfree Hm Hlt. unfold geom_insert.
  assert (Exists (fun x => geom_stop geom_key n x = true) lines) as Hex.
  { unfold existing_numbers in Hm. apply in_flat_map in Hm as (line & Hline & Hm).
    apply Exists_exists. exists line. split; [apply list_elem_of_In; exact Hline|].
    unfold geom_stop. destruct (match_number geom_key line) as [k|]; [|destruct Hm].
    destruct Hm as [-> | []]. apply negb_true_iff, Z.ltb_ge. lia. }
  destruct (find_index_split _ lines 0 Hex) as (pre & x & post & -> & -> & Hpre & Hx).
  unfold insert_at. cbn [Nat.add].
  rewrite firstn_app, Nat.sub_diag, firstn_all. cbn [firstn]. rewrite app_nil_r.
  rewrite drop_app_length.
  pose proof (match_number_new_line "G"%char (lit "eom File=g") n eq_refl Hn) as Hnew.
  change ("G"%char :: lit "eom File=g") with geom_key in Hnew.
  change (lit "Geom File=g") with geom_key.
  rewrite !existing_numbers_app in *.
  rewrite (existing_numbers_cons geom_key (geom_key ++ format_02d n ++ [newline])), Hnew.
  set (a := existing_numbers geom_key pre) in *.
  set (b := existing_numbers geom_key (x :: post)) in *.
  assert (forall k, In k a -> (k < n)%Z) as Ha.
  { intros k Hk. unfold a, existing_numbers in Hk. apply in_flat_map in Hk as (line & Hline & Hk).
    rewrite Forall_forall in Hpre. apply list_elem_of_In in Hline. specialize (Hpre _ Hline).
    unfold geom_stop in Hpre. destruct (match_number geom_key line) as [j|]; [|destruct Hk].
    destruct Hk as [-> | []]. apply negb_false_iff, Z.ltb_lt in Hpre. exact Hpre. }
  assert (forall k, In k b -> (n < k)%Z) as Hb.
  { apply ascending_app in Hasc as (_ & Hbsc & _).
    unfold b in *. rewrite existing_numbers_cons in *.
    unfold geom_stop in Hx. destruct (match_number geom_key x) as [j|]; [|discriminate Hx].
    apply negb_true_iff, Z.ltb_ge in Hx. cbn [app] in *.
    assert (j <> n) as Hj.
    { intros ->. apply Hfree. apply in_or_app. right. left. reflexivity. }
    destruct Hbsc as [Hj' _]. intros k [<- | Hk]; [lia|].
    rewrite Forall_forall in Hj'. apply list_elem_of_In in Hk. specialize (Hj' _ Hk). lia. }
  split.
  - apply ascending_app in Hasc as (Hasc_a & Hasc_b & Hab).
    apply ascending_app. split; [exact Hasc_a|]. split.
    + cbn [app ascending]. split; [|exact Hasc_b].
      apply Forall_forall. intros k Hk. apply list_elem_of_In in Hk. exact (Hb k Hk).
    + intros u v Hu [<- | Hv]; [exact (Ha u Hu) | exact (Hab u v Hu Hv)].
  - intros k. rewrite !in_app_iff. cbn [In]. intuition congruence.
Qed.

(** What was inserted into the lines of a newline-ended file and written
    is read back as it was. *)
Lemma geom_insert_read_back (t : text) (n : Z) :
  (0 <= n)%Z -> newline_ended t ->
  Os.readlines (Os.writelines (geom_insert (Os.readlines t) n))
  = geom_insert (Os.readlines t) n.
Proof.
  intros Hn Ht. apply readlines_writelines. apply terminated_lines_ok.
  destruct (geom_insert_at (Os.readlines t) n) as (i & ->).
  apply Forall_insert_at; [apply new_line_terminated; [reflexivity | exact Hn]|].
  apply readlines_all_terminated. exact Ht.
Qed.

End GapFill.

(** X23: a geometry copy that fills a gap keeps the registry in order.
    After [copy_geometry_from_template] has returned on a project file
    that was empty or ended with a newline, whose geometry numbers were
    positive and ascending and had one above the number allocated, the
    geometry numbers of the project file are ascending again: they are
    the numbers it had and the new one, which was not among them. *)
Theorem copy_geometry_fills_gap
    (path_stem : text -> text) (path_join : text -> text -> text)
    (project_folder project_file template_geom id t : text) (fs0 fs : fsys) (m : Z) :
  copy_geometry_from_template path_stem path_join project_folder project_file
    template_geom fs0 = (Ok id, fs) ->
  fs0 !! project_file = Some t ->
  newline_ended t ->
  ascending (existing_numbers geom_key (Os.readlines t)) ->
  Forall (fun k => (1 <= k)%Z) (existing_numbers geom_key (Os.readlines t)) ->
  In m (existing_numbers geom_key (Os.readlines t)) ->
  (gap_fill_next (existing_numbers geom_key (Os.readlines t)) < m)%Z ->
  exists t' n,
    fs !! project_file = Some t' /\
    id = lit "g" ++ Py.format_02d n /\
    smallest_free (existing_numbers geom_key (Os.readlines t)) n /\
    ascending (existing_numbers geom_key (Os.readlines t')) /\
    (forall k, In k (existing_numbers geom_key (Os.readlines t')) <->
               k = n \/ In k (existing_numbers geom_key (Os.readlines t))).
Proof.
  intros Hcopy Ht Hend Hasc Hpos Hm Hlt.
  destruct (copy_geometry_inv _ _ _ _ _ _ _ _ Hcopy) as (t' & n & Ht' & Hn & -> & Hfs).
  assert (t' = t) as -> by congruence.
  pose proof (gap_fill_next_spec _ (ascending_nodup _ Hasc) Hpos) as Hfree.
  rewrite <- Hn in Hfree, Hlt.
  assert (0 <= n)%Z as Hn0 by (destruct Hfree as [H _]; lia).
  exists (Os.writelines (geom_insert (Os.readlines t) n)), n.
  split; [exact Hfs|]. split; [reflexivity|]. split; [exact Hfree|].
  rewrite geom_insert_read_back by assumption.
  apply (geom_insert_ascending (Os.readlines t) n m); try assumption.
  destruct Hfree as (_ & H & _). exact H.
Qed.

Lemma copy_geometry_fills_gap_witness :
  let project_file := lit "Muncie.prj" in
  let t := lit "Geom File=g01" ++ [newline] ++ lit "Geom File=g03" ++ [newline] in
  let t' := lit "Geom File=g01" ++ [newline] ++ lit "Geom File=g02" ++ [newline]
            ++ lit "Geom File=g03" ++ [newline] in
  let fs0 : fsys :=
    <[project_file := t]>
      (<[lit "proj/Muncie.g01" := lit "geometry"]>
         {[lit "proj/Muncie.g01.hdf" := lit "tables"]}) in
  let fs : fsys :=
    <[project_file := t']>
      (<[lit "proj/Muncie.g02.hdf" := lit "tables"]>
         (<[lit "proj/Muncie.g02" := lit "geometry"]> fs0)) in
  copy_geometry_from_template demo_stem demo_join (lit "proj") project_file (lit "g01") fs0
    = (Ok (lit "g02"), fs) /\
  ascending (existing_numbers geom_key (Os.readlines t')).
Proof.
  intros project_file t t' fs0 fs.
  assert (copy_geometry_from_template demo_stem demo_join (lit "proj") project_file (lit "g01") fs0
          = (Ok (lit "g02"), fs)) as Hcopy by vm_refl.
  assert (fs0 !! project_file = Some t) as Ht by vm_refl.
  assert (newline_ended t) as Hend
    by (right; exists (lit "Geom File=g01" ++ [newline] ++ lit "Geom File=g03"); reflexivity).
  assert (existing_numbers geom_key (Os.readlines t) = [1; 3]%Z) as E by vm_refl.
  assert (ascending (existing_numbers geom_key (Os.readlines t))) as Hasc.
  { rewrite E. cbn. repeat split; repeat constructor; lia. }
  assert (Forall (fun k => (1 <= k)%Z) (existing_numbers geom_key (Os.readlines t))) as Hpos.
  { rewrite E. repeat constructor; lia. }
  assert (In 3%Z (existing_numbers geom_key (Os.readlines t))) as Hm.
  { rewrite E. right. left. reflexivity. }
  assert (gap_fill_next (existing_numbers geom_key (Os.readlines t)) < 3)%Z as Hlt.
  { rewrite E. vm_compute. reflexivity. }
  split; [exact Hcopy|].
  destruct (copy_geometry_fills_gap demo_stem demo_join (lit "proj") project_file (lit "g01")
              (lit "g02") t fs0 fs 3%Z Hcopy Ht Hend Hasc Hpos Hm Hlt)
    as (t'' & n & Hfs & _ & _ & Hasc' & _).
  assert (fs !! project_file = Some t') as Hfs' by vm_refl.
  assert (t'' = t') as -> by congruence.
  exact Hasc'.
Defined.

(** ** A project file without a final newline *)

Section NoFinalNewline.
Import Py LineFacts.

Lemma readlines_app_lines (ls : list text) (s : text) :
  Forall terminated ls -> Os.readlines (concat ls ++ s) = ls ++ Os.readlines s.
Proof.
  induction 1 as [|l ls Hl _ IH]; [reflexivity|].
  cbn [concat app]. rewrite <- app_assoc. rewrite readlines_terminated by exact Hl.
  rewrite IH. reflexivity.
Qed.

(** The lines of a text that continues a newline-ended text. *)
Lemma readlines_app (body s : text) :
  newline_ended body -> Os.readlines (body ++ s) = Os.readlines body ++ Os.readlines s.
Proof.
  intros H. rewrite <- (writelines_readlines body) at 1. unfold Os.writelines.
  apply readlines_app_lines. apply readlines_all_terminated. exact H.
Qed.

Lemma readlines_unterminated (s : text) :
  s <> [] -> free_of newline s = true -> Os.readlines s = [s].
Proof.
  intros Hne Hfree. rewrite <- (app_nil_r s) at 1.
  change (s ++ []) with (Os.writelines [s]). apply readlines_writelines.
  right. split; assumption.
Qed.

Lemma last_index_last {A} (f : A -> bool) (x : A) (pre : list A) : forall i,
  f x = true -> last_index f i (pre ++ [x]) = Some (i + length pre).
Proof.
  induction pre as [|y pre IH]; intros i H; cbn [app last_index length].
  - rewrite H. f_equal. lia.
  - rewrite (IH (S i) H). f_equal. lia.
Qed.

Lemma digits_free_newline (ds : text) :
  forallb is_digit ds = true -> free_of newline ds = true.
Proof.
  intros H. apply forallb_forall. intros x Hx. rewrite forallb_forall in H.
  specialize (H x Hx). destruct x as [[] [] [] [] [] [] [] []]; vm_compute in H |- *; congruence.
Qed.

(** A reference line read by the pattern, whatever follows the digits
    provided it is no digit and ends with a digit or with white space
    after one. *)
Lemma match_number_digits (c : ascii) (k ds rest : text) (d : ascii) (ws : text) :
  isspace c = false -> ds <> [] -> forallb is_digit ds = true ->
  starts_digit (rest ++ [d]) = false -> isspace d = false -> forallb isspace ws = true ->
  match_number (c :: k) ((c :: k) ++ ds ++ rest ++ d :: ws)
  = Some (digits_value 0 ds).
Proof.
  intros Hc Hne Hds Hrest Hd Hws. unfold match_number, Re.match_key_digits.
  replace ((c :: k) ++ ds ++ rest ++ d :: ws) with (c :: (k ++ ds ++ rest) ++ d :: ws)
    by (cbn; rewrite <- !app_assoc; reflexivity).
  rewrite strip_body by assumption.
  replace (c :: (k ++ ds ++ rest) ++ [d]) with ((c :: k) ++ ds ++ rest ++ [d])
    by (cbn; rewrite <- !app_assoc; reflexivity).
  rewrite prefix_ci_app. rewrite ReFacts.digits1_app by assumption. reflexivity.
Qed.

Lemma match_number_bare (c : ascii) (k ds : text) :
  isspace c = false -> ds <> [] -> forallb is_digit ds = true ->
  match_number (c :: k) ((c :: k) ++ ds) = Some (digits_value 0 ds).
Proof.
  intros Hc Hne Hds. unfold match_number, Re.match_key_digits.
  assert (strip ((c :: k) ++ ds) = (c :: k) ++ ds) as ->.
  { destruct (exists_last_digit ds Hne) as (body & d & E). rewrite E in *.
    rewrite forallb_app in Hds. apply andb_true_iff in Hds as [_ Hd]. cbn in Hd.
    rewrite andb_true_r in Hd.
    replace ((c :: k) ++ body ++ [d]) with (c :: (k ++ body) ++ d :: [])
      by (cbn; rewrite <- !app_assoc; reflexivity).
    apply strip_body; [exact Hc | apply ReadBack.digit_not_space; exact Hd | reflexivity]. }
  rewrite prefix_ci_app. rewrite <- (app_nil_r ds) at 1.
  rewrite ReFacts.digits1_app by (try assumption; reflexivity). reflexivity.
Qed.

(** The line made of a bare reference line and the line that a copy adds
    is read as the first of the two. *)
Lemma match_number_merged (ds : text) (n : Z) :
  ds <> [] -> forallb is_digit ds = true -> (0 <= n)%Z ->
  match_number unsteady_key
    ((unsteady_key ++ ds) ++ unsteady_key ++ format_02d n ++ [newline])
  = Some (digits_value 0 ds).
Proof.
  intros Hne Hds Hn.
  pose proof (ReadBack.format_02d_digits n Hn) as Hf.
  destruct (exists_last_digit _ (ReadBack.format_02d_nonempty n)) as (body & d & E).
  rewrite E in *. rewrite forallb_app in Hf. apply andb_true_iff in Hf as [_ Hd].
  cbn in Hd. rewrite andb_true_r in Hd.
  replace ((unsteady_key ++ ds) ++ unsteady_key ++ (body ++ [d]) ++ [newline])
    with (unsteady_key ++ ds ++ (unsteady_key ++ body) ++ d :: [newline])
    by (rewrite <- !app_assoc; reflexivity).
  apply (match_number_digits "U"%char (lit "nsteady File=u") ds (unsteady_key ++ body) d
           [newline]); try assumption; try reflexivity.
  apply ReadBack.digit_not_space. exact Hd.
Qed.

End NoFinalNewline.

(** X24: on a project file without a final newline the copy is not
    registered.  When the project file ends with an unsteady line that
    lacks its newline, [copy_unsteady_from_template] writes the new line
    straight after the digits of that line: the two are one line of the
    project file, which is read as the old one, so that the numbers of the
    project file are those it had and the number returned is not among
    them. *)
Theorem copy_unsteady_without_final_newline
    (path_stem : text -> text) (path_join : text -> text -> text)
    (project_folder project_file template_unsteady id body ds : text) (fs0 fs : fsys) :
  copy_unsteady_from_template path_stem path_join project_folder project_file
    template_unsteady fs0 = (Ok id, fs) ->
  fs0 !! project_file = Some (body ++ unsteady_key ++ ds) ->
  newline_ended body ->
  ds <> [] ->
  forallb Py.is_digit ds = true ->
  exists n,
    n = append_next (existing_numbers unsteady_key (Os.readlines (body ++ unsteady_key ++ ds))) /\
    id = lit "u" ++ Py.format_02d n /\
    fs !! project_file
    = Some (body ++ unsteady_key ++ ds ++ unsteady_key ++ Py.format_02d n ++ [newline]) /\
    existing_numbers unsteady_key
      (Os.readlines (body ++ unsteady_key ++ ds ++ unsteady_key ++ Py.format_02d n ++ [newline]))
    = existing_numbers unsteady_key (Os.readlines (body ++ unsteady_key ++ ds)) /\
    ~ In n (existing_numbers unsteady_key (Os.readlines (body ++ unsteady_key ++ ds))).
Proof.
  intros Hcopy Ht Hend Hne Hds.
  destruct (copy_unsteady_inv _ _ _ _ _ _ _ _ Hcopy) as (t' & n & Ht' & Hn & -> & Hfs).
  assert (t' = body ++ unsteady_key ++ ds) as -> by congruence.
  set (last := unsteady_key ++ ds) in *.
  assert (free_of newline last = true) as Hfree.
  { unfold last, free_of. rewrite forallb_app. apply andb_true_iff. split; [reflexivity|].
    apply digits_free_newline. exact Hds. }
  assert (last <> []) as Hlast by discriminate.
  assert (Os.readlines (body ++ last) = Os.readlines body ++ [last]) as Hlines.
  { rewrite readlines_app by exact Hend. rewrite (readlines_unterminated last) by assumption.
    reflexivity. }
  assert (match_number unsteady_key last = Some (Py.digits_value 0 ds)) as Hm.
  { apply (match_number_bare "U"%char (lit "nsteady File=u")); [reflexivity | assumption ..]. }
  assert (0 <= n)%Z as Hpos.
  { subst n. pose proof (append_next_pos _ (existing_numbers_nonneg unsteady_key
                                               (Os.readlines (body ++ last)))). lia. }
  assert (Forall (fun m => (m < n)%Z) (existing_numbers unsteady_key (Os.readlines (body ++ last))))
    as Habove by (subst n; apply append_next_above).
  exists n. split; [exact Hn|]. split; [reflexivity|].
  assert (ref_insert unsteady_key (Os.readlines (body ++ last)) n
          = Os.readlines body ++ [last; unsteady_key ++ Py.format_02d n ++ [newline]]) as Hins.
  { unfold ref_insert. rewrite find_index_none.
    2:{ apply Forall_forall. intros line Hin. apply list_elem_of_In in Hin.
        unfold greater_stop. destruct (match_number unsteady_key line) as [m|] eqn:Em;
          [|reflexivity].
        pose proof (existing_numbers_in _ _ _ _ Hin Em) as Hin'.
        rewrite Forall_forall in Habove. apply list_elem_of_In in Hin'.
        specialize (Habove _ Hin'). apply Z.ltb_ge. lia. }
    rewrite Hlines. rewrite last_index_last by (unfold is_ref_line; rewrite Hm; reflexivity).
    unfold Py.insert_at. cbn [Nat.add].
    replace (length (Os.readlines body) + 1) with (length (Os.readlines body ++ [last]))
      by (rewrite length_app; reflexivity).
    rewrite firstn_all, skipn_all. rewrite <- app_assoc. reflexivity. }
  rewrite Hins in Hfs.
  assert (Os.writelines (Os.readlines body ++ [last; unsteady_key ++ Py.format_02d n ++ [newline]])
          = body ++ unsteady_key ++ ds ++ unsteady_key ++ Py.format_02d n ++ [newline]) as Hw.
  { unfold Os.writelines. rewrite concat_app.
    change (concat (Os.readlines body)) with (Os.writelines (Os.readlines body)).
    rewrite writelines_readlines. cbn [concat]. rewrite app_nil_r.
    unfold last. rewrite <- !app_assoc. reflexivity. }
  rewrite Hw in Hfs. split; [exact Hfs|]. split.
  - replace (body ++ unsteady_key ++ ds ++ unsteady_key ++ Py.format_02d n ++ [newline])
      with (body ++ (last ++ unsteady_key ++ Py.format_02d n) ++ [newline])
      by (unfold last; rewrite <- !app_assoc; reflexivity).
    rewrite readlines_app by exact Hend.
    rewrite <- (app_nil_r ((last ++ unsteady_key ++ Py.format_02d n) ++ [newline])).
    rewrite LineFacts.readlines_terminated.
    2:{ exists (last ++ unsteady_key ++ Py.format_02d n). split; [reflexivity|].
        unfold free_of in *. rewrite !forallb_app, Hfree. cbn [andb].
        apply andb_true_iff. split; [reflexivity|].
        apply digits_free_newline. apply ReadBack.format_02d_digits. exact Hpos. }
    rewrite Hlines, !existing_numbers_app. f_equal.
    unfold existing_numbers. cbn [flat_map Os.readlines Os.readlines_aux app].
    rewrite Hm. rewrite <- !app_assoc.
    replace (last ++ unsteady_key ++ Py.format_02d n ++ [newline])
      with ((unsteady_key ++ ds) ++ unsteady_key ++ Py.format_02d n ++ [newline])
      by reflexivity.
    rewrite match_number_merged by assumption. reflexivity.
  - intros Hin. rewrite Forall_forall in Habove. apply list_elem_of_In in Hin.
    specialize (Habove _ Hin). lia.
Qed.

Lemma copy_unsteady_without_final_newline_witness :
  let project_file := lit "Muncie.prj" in
  let body := lit "Proj Title=Muncie" ++ [newline] in
  let fs0 : fsys :=
    <[project_file := body ++ lit "Unsteady File=u01"]> {[lit "proj/Muncie.u01" := lit "flow"]} in
  let fs : fsys :=
    <[project_file := body ++ lit "Unsteady File=u01Unsteady File=u02" ++ [newline]]>
      (<[lit "proj/Muncie.u02" := lit "flow"]> fs0) in
  copy_unsteady_from_template demo_stem demo_join (lit "proj") project_file (lit "u01") fs0
    = (Ok (lit "u02"), fs) /\
  existing_numbers unsteady_key
    (Os.readlines (body ++ lit "Unsteady File=u01Unsteady File=u02" ++ [newline])) = [1%Z].
Proof.
  intros project_file body fs0 fs.
  assert (copy_unsteady_from_template demo_stem demo_join (lit "proj") project_file (lit "u01") fs0
          = (Ok (lit "u02"), fs)) as Hcopy by vm_refl.
  assert (fs0 !! project_file = Some (body ++ unsteady_key ++ lit "01")) as Ht by vm_refl.
  assert (newline_ended body) as Hend by (right; exists (lit "Proj Title=Muncie"); reflexivity).
  split; [exact Hcopy|].
  destruct (copy_unsteady_without_final_newline demo_stem demo_join (lit "proj") project_file
              (lit "u01") (lit "u02") body (lit "01") fs0 fs Hcopy Ht Hend
              ltac:(discriminate) eq_refl) as (n & Hn & _ & _ & Hnums & _).
  assert (append_next (existing_numbers unsteady_key
                         (Os.readlines (body ++ unsteady_key ++ lit "01"))) = 2%Z) as E by vm_refl.
  rewrite E in Hn. subst n.
  assert (existing_numbers unsteady_key (Os.readlines (body ++ unsteady_key ++ lit "01"))
          = [1%Z]) as E2 by vm_refl.
  rewrite E2 in Hnums. exact Hnums.
Defined.
